(** * fluid-bg.ts: the fluid background renderer, embedded and verified

    Source: [src/assets/fluid-bg.ts] (class [FluidBackground] and its helpers).

    Layout of the development:
    - [JsNum]    JavaScript numbers as far as the engine computes with them
    - [Units]    [String.prototype.trim], [endsWith], [parseFloat], [unitToPx]
    - [Motion]   the drift and breath expressions of [render], over the reals
    - [Registry] the [Map<string, InternalBlob>] and the blob records
    - [Engine]   the state record, setters, blob CRUD, lifecycle and frame loop
    - [Views]    predicates and projections that the further properties use
    - [Editor]   [hexToRgb] and [toFbConfig] of [src/App.vue]
    The theorems follow the definitions. *)

From Stdlib Require Import ZArith QArith Qround Qreduction.
From Stdlib Require Import Reals Psatz Lia.
From Stdlib Require Import List String Ascii Bool.
From Stdlib Require Import DecimalString DecimalNat.
Import ListNotations.

(* ================================================================== *)
(** ** JavaScript numbers *)
(* ================================================================== *)

Module JsNum.

(** A JS number is NaN, one of the two infinities, or a finite value.  Finite
    values are kept as exact rationals: every finite double is one, and the
    operations below that the engine relies on for its guards ([<], [Math.max],
    [Math.min], [|0], [Math.floor], truthiness) are exact on doubles.  Rounding
    of [*], [/] and [-] and the sign of zero are not modelled. *)
Inductive num : Type :=
| NaN
| PInf
| NInf
| Fin (q : Q).

Definition ofZ (z : Z) : num := Fin (inject_Z z).

Definition Qltb (a b : Q) : bool := negb (Qle_bool b a).

(** [a < b]; false as soon as one side is NaN. *)
Definition lt (a b : num) : bool :=
  match a, b with
  | NaN, _ | _, NaN => false
  | PInf, _ => false
  | NInf, NInf => false
  | NInf, _ => true
  | Fin _, PInf => true
  | Fin _, NInf => false
  | Fin x, Fin y => Qltb x y
  end.

(** [a > b]. *)
Definition gt (a b : num) : bool := lt b a.

(** ToBoolean on a number: [0] and [NaN] are falsy. *)
Definition truthy (a : num) : bool :=
  match a with
  | NaN => false
  | Fin q => negb (Qeq_bool q 0)
  | _ => true
  end.

(** [a || b] on numbers. *)
Definition or_else (a b : num) : num := if truthy a then a else b.

(** [Math.max(a, b)] and [Math.min(a, b)]: NaN when an argument is NaN. *)
Definition max (a b : num) : num :=
  match a, b with
  | NaN, _ | _, NaN => NaN
  | _, _ => if lt a b then b else a
  end.

Definition min (a b : num) : num :=
  match a, b with
  | NaN, _ | _, NaN => NaN
  | _, _ => if lt b a then b else a
  end.

Definition sign (a : num) : comparison :=
  match a with
  | NaN => Eq
  | PInf => Gt
  | NInf => Lt
  | Fin q => (q ?= 0)%Q
  end.

Definition sign_mul (c d : comparison) : comparison :=
  match c, d with
  | Eq, _ | _, Eq => Eq
  | Gt, Gt | Lt, Lt => Gt
  | _, _ => Lt
  end.

Definition inf_of_sign (c : comparison) : num :=
  match c with
  | Gt => PInf
  | Lt => NInf
  | Eq => NaN
  end.

Definition sub (a b : num) : num :=
  match a, b with
  | NaN, _ | _, NaN => NaN
  | Fin x, Fin y => Fin (Qred (x - y))
  | PInf, PInf | NInf, NInf => NaN
  | PInf, _ | _, NInf => PInf
  | NInf, _ | _, PInf => NInf
  end.

Definition mul (a b : num) : num :=
  match a, b with
  | NaN, _ | _, NaN => NaN
  | Fin x, Fin y => Fin (Qred (x * y))
  | _, _ => inf_of_sign (sign_mul (sign a) (sign b))
  end.

Definition div (a b : num) : num :=
  match a, b with
  | NaN, _ | _, NaN => NaN
  | Fin x, Fin y =>
      if Qeq_bool y 0 then inf_of_sign (sign a) else Fin (Qred (x / y))
  | Fin _, _ => Fin 0
  | _, Fin y => inf_of_sign (sign_mul (sign a) (if Qltb y 0 then Lt else Gt))
  | _, _ => NaN
  end.

(** [Math.floor] and [Math.round] (round half up). *)
Definition floor (a : num) : num :=
  match a with
  | Fin q => ofZ (Qfloor q)
  | _ => a
  end.

Definition round (a : num) : num :=
  match a with
  | Fin q => ofZ (Qfloor (q + (1 # 2)))
  | _ => a
  end.

(** ToInt32, the conversion behind [x|0]: NaN and the infinities give 0, a
    finite value is truncated toward zero and wrapped into [-2^31, 2^31). *)
Definition wrap32 (z : Z) : Z := ((z + 2 ^ 31) mod 2 ^ 32 - 2 ^ 31)%Z.

Definition toInt32 (a : num) : Z :=
  match a with
  | Fin q => wrap32 (Z.quot (Qnum q) (Zpos (Qden q)))
  | _ => 0%Z
  end.

(** [x|0] as a number again. *)
Definition bitor0 (a : num) : num := ofZ (toInt32 a).

(** [clamp] of the source: [Math.min(b, Math.max(a, v))]. *)
Definition clamp (v a b : num) : num := min b (max a v).

(** Membership in the closed interval [[lo, hi]] of rationals. *)
Definition within (lo hi : Q) (a : num) : Prop :=
  match a with
  | Fin q => (lo <= q /\ q <= hi)%Q
  | _ => False
  end.

(** Being a nonnegative integer. *)
Definition nonneg_int (a : num) : Prop :=
  exists z : Z, (0 <= z)%Z /\ a = ofZ z.

End JsNum.

(* ================================================================== *)
(** ** The unit resolver *)
(* ================================================================== *)

Module Units.
Import JsNum.

Definition chars : Type := list ascii.

(** White space as [trim] and [parseFloat] see it, restricted to ASCII: space,
    tab, line feed, vertical tab, form feed and carriage return. *)
Definition is_ws (c : ascii) : bool :=
  let n := nat_of_ascii c in
  Nat.eqb n 32 || (Nat.leb 9 n && Nat.leb n 13).

Fixpoint trimStart (l : chars) : chars :=
  match l with
  | c :: r => if is_ws c then trimStart r else l
  | [] => []
  end.

Definition trim (l : chars) : chars := rev (trimStart (rev (trimStart l))).

Fixpoint startsWith (l p : chars) : bool :=
  match p, l with
  | [], _ => true
  | _ :: _, [] => false
  | a :: p', b :: l' => Ascii.eqb a b && startsWith l' p'
  end.

Definition endsWith (l : chars) (suffix : string) : bool :=
  startsWith (rev l) (rev (list_ascii_of_string suffix)).

Definition digit (c : ascii) : option Z :=
  let n := nat_of_ascii c in
  if Nat.leb 48 n && Nat.leb n 57 then Some (Z.of_nat (n - 48)) else None.

(** The longest run of decimal digits at the front, and what follows it. *)
Fixpoint take_digits (l : chars) : list Z * chars :=
  match l with
  | c :: r =>
      match digit c with
      | Some d => let (ds, rest) := take_digits r in (d :: ds, rest)
      | None => ([], l)
      end
  | [] => ([], [])
  end.

Definition digits_value (ds : list Z) : Z :=
  fold_left (fun acc d => (10 * acc + d)%Z) ds 0%Z.

Definition take_sign (l : chars) : bool * chars :=
  match l with
  | "-"%char :: r => (true, r)
  | "+"%char :: r => (false, r)
  | _ => (false, l)
  end.

(** The exponent part [e[+-]digits], when it is complete; 0 otherwise. *)
Definition exponent (l : chars) : Z :=
  match l with
  | c :: r =>
      if Ascii.eqb c "e" || Ascii.eqb c "E" then
        let (neg, r') := take_sign r in
        match take_digits r' with
        | ([], _) => 0%Z
        | (ds, _) => if neg then (- digits_value ds)%Z else digits_value ds
        end
      else 0%Z
  | [] => 0%Z
  end.

(** [parseFloat]: skip leading white space, then read the longest prefix that
    is a StrDecimalLiteral ([Infinity], or digits with an optional fraction
    and exponent, each with an optional sign); NaN when there is none.  The
    value is exact (no rounding to a double, no overflow to infinity). *)
Definition parseFloat (l : chars) : num :=
  let (neg, l1) := take_sign (trimStart l) in
  if startsWith l1 (list_ascii_of_string "Infinity") then
    (if neg then NInf else PInf)
  else
    let (ip, l2) := take_digits l1 in
    let (fp, l3) :=
      match l2 with
      | "."%char :: r => take_digits r
      | _ => ([], l2)
      end in
    match ip, fp with
    | [], [] => NaN
    | _, _ =>
        let m := digits_value (ip ++ fp) in
        let e := (exponent l3 - Z.of_nat (List.length fp))%Z in
        Fin (Qred (inject_Z (if neg then - m else m) * Qpower (10 # 1) e))
    end.

Definition isNaN (a : num) : bool :=
  match a with
  | NaN => true
  | _ => false
  end.

Record Dims : Type := mkDims { w : num; h : num; vMax : num }.

(** The [dims] object that [render] builds from the logical size. *)
Definition dims_of (cssW cssH : num) : Dims :=
  mkDims cssW cssH (JsNum.max cssW cssH).

Inductive Axis : Type := AxisX | AxisY | AxisVmax.

(** The argument of [unitToPx]: [number | string]. *)
Inductive Value : Type :=
| VNum (n : num)
| VStr (s : string).

Definition hundred : num := ofZ 100.

(** [String(v).trim()] of a string value. *)
Definition trimmed (str : string) : chars := trim (list_ascii_of_string str).

Definition unitToPx (v : Value) (dims : Dims) (axis : Axis) : num :=
  match v with
  | VNum n => n
  | VStr str =>
      let s := trimmed str in
      if endsWith s "px" then parseFloat s
      else if endsWith s "%" then
        mul (match axis with AxisY => h dims | _ => w dims end)
            (div (parseFloat s) hundred)
      else if endsWith s "vw" then mul (w dims) (div (parseFloat s) hundred)
      else if endsWith s "vh" then mul (h dims) (div (parseFloat s) hundred)
      else if endsWith s "vmax" then
        mul (vMax dims) (div (parseFloat s) hundred)
      else
        let n := parseFloat s in
        if isNaN n then ofZ 0 else n
  end.

Definition resolveDiameter (diameter : string) (dims : Dims) : num :=
  unitToPx (VStr diameter) dims AxisVmax.

(** Whether a trimmed string ends in one of the five units. *)
Definition has_unit (s : chars) : bool :=
  endsWith s "px" || endsWith s "%" || endsWith s "vw" || endsWith s "vh"
  || endsWith s "vmax".

End Units.

(* ================================================================== *)
(** ** The motion model *)
(* ================================================================== *)

(** [DriftSpec] and [BreathSpec], over a number type [N]: the registry stores
    them with JS numbers, the motion model reads them as reals. *)
Record DriftSpec (N : Type) : Type := mkDrift {
  ax : N;
  ay : N;
  sx : N;
  sy : N;
  speed : N
}.
Arguments mkDrift {N}.
Arguments ax {N}.
Arguments ay {N}.
Arguments sx {N}.
Arguments sy {N}.
Arguments speed {N}.

Record BreathSpec (N : Type) : Type := mkBreath {
  scale : N * N;
  opacity : N * N;
  bspeed : N;  (* [speed] *)
  phase : N
}.
Arguments mkBreath {N}.
Arguments scale {N}.
Arguments opacity {N}.
Arguments bspeed {N}.
Arguments phase {N}.

Module Motion.
Local Open Scope R_scope.

(** The arithmetic of [render] that moves a blob (the drift and breath
    blocks), over the reals: a finite double is read as the real it denotes
    and the rounding of each operation is left out.  An equality here holds
    of the doubles up to that rounding only, and [lerp] can leave the
    interval of its ends by a rounding step: in doubles [lerp(0.3, 0.9, 1)]
    is [0.9000000000000001]. *)

Definition TAU : R := PI * 2.

(** [x || 0] on a real: 0 is the only falsy one, and it is replaced by 0. *)
Definition or0 (x : R) : R := if Req_dec_T x 0 then 0 else x.

Definition lerp (a b t : R) : R := a + (b - a) * t.

(** [t = (tsMs - s.startMs) / 1000], in seconds. *)
Definition elapsed (tsMs startMs : R) : R := (tsMs - startMs) / 1000.

Definition drift_dx (d : DriftSpec R) (t : R) : R :=
  or0 (ax d) * sin (TAU * speed d * t)
  + or0 (sx d) * cos (TAU * speed d * 0.7 * t).

Definition drift_dy (d : DriftSpec R) (t : R) : R :=
  or0 (ay d) * cos (TAU * speed d * t)
  + or0 (sy d) * sin (TAU * speed d * 0.7 * t).

Definition drift (d : DriftSpec R) (t : R) : R * R :=
  (drift_dx d t, drift_dy d t).

(** [(scaleMul, opacityMul)]; [(1, 1)] without a breath spec. *)
Definition breath (b : option (BreathSpec R)) (t : R) : R * R :=
  match b with
  | None => (1, 1)
  | Some b =>
      let ph := or0 (phase b) * TAU in
      let s01 := 0.5 + 0.5 * sin (ph + TAU * bspeed b * t) in
      (lerp (fst (scale b)) (snd (scale b)) s01,
       lerp (fst (opacity b)) (snd (opacity b)) s01)
  end.

(** Sample specs: a 2 Hz breath and drift, and a drift made of the detuned
    cosine alone ([sx = 1]) at 1 Hz. *)
Definition breath_2Hz : BreathSpec R := mkBreath (1, 2) (0.5, 1) 2 0.25.
Definition drift_2Hz : DriftSpec R := mkDrift 3 4 5 6 2.
Definition drift_detuned : DriftSpec R := mkDrift 0 0 1 0 1.

End Motion.

(* ================================================================== *)
(** ** Blob records and the registry *)
(* ================================================================== *)

Module Registry.
Import JsNum Units.

Definition RGB : Type := (num * num * num)%type.

Record LayerSpec : Type := mkLayer {
  color : RGB;
  centerAlpha : num;
  midAlpha : num;
  edgeAlpha : num
}.

Definition CenterFunc : Type := Dims -> num * num.

Inductive CenterSpec : Type :=
| Computed (f : CenterFunc)
| Symbolic (x y : string).

Definition resolveCenter (c : CenterSpec) (dims : Dims) : num * num :=
  match c with
  | Computed f => f dims
  | Symbolic x y =>
      (unitToPx (VStr x) dims AxisX, unitToPx (VStr y) dims AxisY)
  end.

(** The properties of a blob object other than [id].  A property may be
    absent at run time: [updateBlob] stores a [Partial<BlobConfig>] under the
    [BlobConfig] type, and the spread of a partial record only carries the
    properties it has.  [breath] may be present and [null]. *)
Record Fields : Type := mkFields {
  diameter : option string;
  center : option CenterSpec;
  layers : option (list LayerSpec);
  blob_opacity : option num;      (* [opacity] *)
  parallaxScale : option num;
  drift : option (DriftSpec num);
  breath : option (option (BreathSpec num))
}.

(** An object with a string [id]: what [addBlob] and [materialize] take. *)
Record BlobConfig : Type := mkConfig {
  id : string;
  fields : Fields
}.

(** [Partial<BlobConfig>]. *)
Record PartialBlob : Type := mkPartial {
  p_id : option string;
  p_fields : Fields
}.

Record InternalBlob : Type := mkBlob {
  b_id : string;
  b_fields : Fields;
  _diameterPx : num
}.

(** A [BlobConfig] as its TypeScript type promises it: every property there. *)
Definition complete (f : Fields) : Prop :=
  diameter f <> None /\ center f <> None /\ layers f <> None /\
  blob_opacity f <> None /\ parallaxScale f <> None /\ drift f <> None /\
  breath f <> None.

Definition or_prev {A : Type} (next prev : option A) : option A :=
  match next with
  | Some v => Some v
  | None => prev
  end.

(** [{ ...prev, ...cfg }] on the properties other than [id]. *)
Definition spread (prev cfg : Fields) : Fields :=
  mkFields (or_prev (diameter cfg) (diameter prev))
           (or_prev (center cfg) (center prev))
           (or_prev (layers cfg) (layers prev))
           (or_prev (blob_opacity cfg) (blob_opacity prev))
           (or_prev (parallaxScale cfg) (parallaxScale prev))
           (or_prev (drift cfg) (drift prev))
           (or_prev (breath cfg) (breath prev)).

(** [{ ...cfg, _diameterPx: 0 }]. *)
Definition materialize (cfg : BlobConfig) : InternalBlob :=
  mkBlob (id cfg) (fields cfg) (ofZ 0).

(** The [Map<string, InternalBlob>]: entries in insertion order, one per key.
    [set] on a present key replaces the value where it stands. *)
Definition Map : Type := list (string * InternalBlob).

Fixpoint map_get (k : string) (m : Map) : option InternalBlob :=
  match m with
  | [] => None
  | (k', v) :: r => if String.eqb k k' then Some v else map_get k r
  end.

Fixpoint map_set (k : string) (v : InternalBlob) (m : Map) : Map :=
  match m with
  | [] => [(k, v)]
  | (k', v') :: r =>
      if String.eqb k k' then (k, v) :: r else (k', v') :: map_set k v r
  end.

Fixpoint map_delete (k : string) (m : Map) : Map :=
  match m with
  | [] => []
  | (k', v') :: r =>
      if String.eqb k k' then r else (k', v') :: map_delete k r
  end.

Definition map_clear (m : Map) : Map := [].

Definition map_size (m : Map) : nat := List.length m.

(** ToBoolean on [cfg.id]: an absent or empty identifier is falsy. *)
Definition truthy_id (i : option string) : option string :=
  match i with
  | Some EmptyString => None
  | Some s => Some s
  | None => None
  end.

Definition addBlob (cfg : BlobConfig) (blobs : Map) : Map :=
  let b := materialize cfg in
  map_set (b_id b) b blobs.

Definition updateBlob (i : string) (cfg : PartialBlob) (blobs : Map) : Map :=
  match map_get i blobs with
  | None =>
      match truthy_id (p_id cfg) with
      | Some ci => addBlob (mkConfig ci (p_fields cfg)) blobs
      | None => blobs
      end
  | Some prev =>
      let next :=
        materialize (mkConfig (b_id prev) (spread (b_fields prev) (p_fields cfg))) in
      map_set i next blobs
  end.

Definition removeBlob (i : string) (blobs : Map) : Map := map_delete i blobs.

(** The three registry operations, as data, and a sequence of them. *)
Inductive BlobOp : Type :=
| OpAdd (cfg : BlobConfig)
| OpUpdate (i : string) (cfg : PartialBlob)
| OpRemove (i : string).

Definition apply_op (o : BlobOp) (blobs : Map) : Map :=
  match o with
  | OpAdd cfg => addBlob cfg blobs
  | OpUpdate i cfg => updateBlob i cfg blobs
  | OpRemove i => removeBlob i blobs
  end.

Definition apply_ops (os : list BlobOp) (blobs : Map) : Map :=
  fold_left (fun m o => apply_op o m) os blobs.

(** Every key is the [id] of the blob stored under it. *)
Definition coherent (blobs : Map) : Prop :=
  Forall (fun kv => fst kv = b_id (snd kv)) blobs.

(** Sample records: a complete blob ["b1"], and the empty property bag. *)
Definition red_layer : LayerSpec :=
  mkLayer (ofZ 255, ofZ 0, ofZ 0) (ofZ 1) (Fin (1 # 2)) (ofZ 0).

Definition sample_fields : Fields :=
  mkFields (Some "72vmax"%string) (Some (Symbolic "50%" "50%"))
           (Some [red_layer]) (Some (ofZ 1)) (Some (ofZ 1))
           (Some (mkDrift (ofZ 0) (ofZ 0) (ofZ 0) (ofZ 0) (ofZ 0)))
           (Some None).

Definition no_fields : Fields :=
  mkFields None None None None None None None.

Definition blob_b1 : BlobConfig := mkConfig "b1" sample_fields.

End Registry.

(* ================================================================== *)
(** ** The engine *)
(* ================================================================== *)

Module Engine.
Import JsNum Units Registry.

Record State : Type := mkState {
  running : bool;
  alpha : num;
  blurPx : num;
  parallaxVmax : num;
  fpsCap : num;
  composite : string;
  background : option string;
  dpr : num;
  cssW : num;
  cssH : num;
  lastFrameMs : num;
  startMs : num;
  desynchronized : bool
}.

(** [FluidOptions]; [None] is an absent (or [null]) option. *)
Record FluidOptions : Type := mkOptions {
  o_alpha : option num;
  o_blurPx : option num;
  o_parallaxVmax : option num;
  o_fpsCap : option num;
  o_composite : option string;
  o_background : option string;
  o_autoStart : option bool;
  o_desynchronized : option bool
}.

(** The empty options object [{}]. *)
Definition no_options : FluidOptions :=
  mkOptions None None None None None None None None.

(** What the backing store holds, as the list of paint operations since it was
    last cleared, oldest first: the background fills and one disc per blob
    layer.  A fill is a [fillRect] over the whole store in the given style; it
    is composited onto what the store holds and hides it only as far as the
    colour is opaque, so the log keeps what came before it.  The geometry and
    the colours of a disc (the gradient, the blur and the blend mode) are not
    carried, and the order of the log is the order of the operations, not a
    stacking order.  [[]] is the store as [clearRect] over all of it, or a
    reset of the bitmap, leaves it: every pixel cleared.  What a cleared pixel
    is depends on the context: see [cleared]. *)
Inductive Paint : Type :=
| Fill (color : string)
| Disc (blob : string) (layer : LayerSpec).

Record Canvas : Type := mkCanvas {
  width : num;
  height : num;
  pixels : list Paint
}.

(** The 2D context with the attributes it was asked with.  Its drawing state
    (transform, filter, blend mode) is set and reset inside each method and is
    not carried. *)
Inductive Ctx : Type :=
| Context2D (alpha_channel desync : bool).



Record FluidBackground : Type := mkEngine {
  canvas : Canvas;
  ctx : option Ctx;
  rafId : Z;
  blobs : Map;
  state : State
}.


(** The host: whether [getContext('2d')] yields a context, the layout box of
    the canvas, [window.devicePixelRatio], and the animation-frame queue
    (handles are positive; the callbacks requested and not yet run). *)
Record Host : Type := mkHost {
  context2d : bool;
  rectWidth : num;
  rectHeight : num;
  devicePixelRatio : num;
  rafNext : positive;
  rafPending : list positive
}.

Record World : Type := mkWorld {
  host : Host;
  fb : FluidBackground
}.

(** How a call ends: normally, or by a thrown exception, with the state the
    call had reached. *)
Inductive Completion (A : Type) : Type :=
| Normal (a : A)
| Throw (a : A).
Arguments Normal {A}.
Arguments Throw {A}.

Definition after {A : Type} (c : Completion A) : A :=
  match c with
  | Normal a | Throw a => a
  end.

Definition throws {A : Type} (c : Completion A) : bool :=
  match c with
  | Normal _ => false
  | Throw _ => true
  end.

(** *** Field updates *)

Definition with_running (v : bool) (s : State) : State :=
  mkState v (alpha s) (blurPx s) (parallaxVmax s) (fpsCap s) (composite s)
          (background s) (dpr s) (cssW s) (cssH s) (lastFrameMs s) (startMs s)
          (desynchronized s).

Definition with_alpha (v : num) (s : State) : State :=
  mkState (running s) v (blurPx s) (parallaxVmax s) (fpsCap s) (composite s)
          (background s) (dpr s) (cssW s) (cssH s) (lastFrameMs s) (startMs s)
          (desynchronized s).

Definition with_blurPx (v : num) (s : State) : State :=
  mkState (running s) (alpha s) v (parallaxVmax s) (fpsCap s) (composite s)
          (background s) (dpr s) (cssW s) (cssH s) (lastFrameMs s) (startMs s)
          (desynchronized s).

Definition with_parallaxVmax (v : num) (s : State) : State :=
  mkState (running s) (alpha s) (blurPx s) v (fpsCap s) (composite s)
          (background s) (dpr s) (cssW s) (cssH s) (lastFrameMs s) (startMs s)
          (desynchronized s).

Definition with_fpsCap (v : num) (s : State) : State :=
  mkState (running s) (alpha s) (blurPx s) (parallaxVmax s) v (composite s)
          (background s) (dpr s) (cssW s) (cssH s) (lastFrameMs s) (startMs s)
          (desynchronized s).

Definition with_composite (v : string) (s : State) : State :=
  mkState (running s) (alpha s) (blurPx s) (parallaxVmax s) (fpsCap s) v
          (background s) (dpr s) (cssW s) (cssH s) (lastFrameMs s) (startMs s)
          (desynchronized s).

Definition with_background (v : option string) (s : State) : State :=
  mkState (running s) (alpha s) (blurPx s) (parallaxVmax s) (fpsCap s)
          (composite s) v (dpr s) (cssW s) (cssH s) (lastFrameMs s) (startMs s)
          (desynchronized s).

Definition with_size (w h r : num) (s : State) : State :=
  mkState (running s) (alpha s) (blurPx s) (parallaxVmax s) (fpsCap s)
          (composite s) (background s) r w h (lastFrameMs s) (startMs s)
          (desynchronized s).

Definition with_lastFrameMs (v : num) (s : State) : State :=
  mkState (running s) (alpha s) (blurPx s) (parallaxVmax s) (fpsCap s)
          (composite s) (background s) (dpr s) (cssW s) (cssH s) v (startMs s)
          (desynchronized s).

Definition with_state (s : State) (e : FluidBackground) : FluidBackground :=
  mkEngine (canvas e) (ctx e) (rafId e) (blobs e) s.

Definition with_blobs (m : Map) (e : FluidBackground) : FluidBackground :=
  mkEngine (canvas e) (ctx e) (rafId e) m (state e).

Definition with_rafId (i : Z) (e : FluidBackground) : FluidBackground :=
  mkEngine (canvas e) (ctx e) i (blobs e) (state e).

Definition with_canvas (c : Canvas) (e : FluidBackground) : FluidBackground :=
  mkEngine c (ctx e) (rafId e) (blobs e) (state e).

Definition with_pixels (p : list Paint) (e : FluidBackground) : FluidBackground :=
  with_canvas (mkCanvas (width (canvas e)) (height (canvas e)) p) e.

Definition on_fb (f : FluidBackground -> FluidBackground) (w : World) : World :=
  mkWorld (host w) (f (fb w)).

(** *** The host's animation-frame queue *)

Definition requestAnimationFrame (h : Host) : positive * Host :=
  (rafNext h,
   mkHost (context2d h) (rectWidth h) (rectHeight h) (devicePixelRatio h)
          (Pos.succ (rafNext h)) (rafPending h ++ [rafNext h])).

Definition cancelAnimationFrame (i : Z) (h : Host) : Host :=
  mkHost (context2d h) (rectWidth h) (rectHeight h) (devicePixelRatio h)
         (rafNext h)
         (filter (fun p => negb (Z.eqb (Zpos p) i)) (rafPending h)).

Definition with_pending (l : list positive) (h : Host) : Host :=
  mkHost (context2d h) (rectWidth h) (rectHeight h) (devicePixelRatio h)
         (rafNext h) l.

(** *** Setters *)

Definition setAlpha (a : num) (e : FluidBackground) : FluidBackground :=
  with_state (with_alpha (clamp a (ofZ 0) (ofZ 1)) (state e)) e.

Definition setBlurPx (px : num) (e : FluidBackground) : FluidBackground :=
  with_state (with_blurPx (JsNum.max (ofZ 0) (bitor0 px)) (state e)) e.

Definition setParallax (v : num) (e : FluidBackground) : FluidBackground :=
  with_state (with_parallaxVmax v (state e)) e.

Definition setFpsCap (fps : num) (e : FluidBackground) : FluidBackground :=
  with_state (with_fpsCap (JsNum.max (ofZ 0) (bitor0 fps)) (state e)) e.

Definition setComposite (mode : string) (e : FluidBackground) : FluidBackground :=
  with_state (with_composite mode (state e)) e.

Definition setBackground (color : option string) (e : FluidBackground)
  : FluidBackground :=
  with_state (with_background color (state e)) e.

(** *** Blob management on the engine *)

Definition addBlob (cfg : BlobConfig) (e : FluidBackground) : FluidBackground :=
  with_blobs (Registry.addBlob cfg (blobs e)) e.

Definition updateBlob (i : string) (cfg : PartialBlob) (e : FluidBackground)
  : FluidBackground :=
  with_blobs (Registry.updateBlob i cfg (blobs e)) e.

Definition removeBlob (i : string) (e : FluidBackground) : FluidBackground :=
  with_blobs (Registry.removeBlob i (blobs e)) e.

(** *** Size tracking *)

(** [a !== b] on numbers. *)
Definition strict_ne (a b : num) : bool :=
  match a, b with
  | Fin x, Fin y => negb (Qeq_bool x y)
  | PInf, PInf | NInf, NInf => false
  | _, _ => true
  end.

(** Assigning [canvas.width] or [canvas.height] resets the bitmap. *)
Definition ensureSize (h : Host) (e : FluidBackground) : FluidBackground :=
  let r := JsNum.max (ofZ 1) (or_else (devicePixelRatio h) (ofZ 1)) in
  let cw := JsNum.max (ofZ 1) (floor (rectWidth h)) in
  let ch := JsNum.max (ofZ 1) (floor (rectHeight h)) in
  let s := state e in
  if strict_ne cw (cssW s) || strict_ne ch (cssH s) || strict_ne r (dpr s) then
    mkEngine (mkCanvas (JsNum.max (ofZ 1) (round (mul cw r)))
                       (JsNum.max (ofZ 1) (round (mul ch r)))
                       [])
             (ctx e) (rafId e) (blobs e) (with_size cw ch r s)
  else e.

(** *** Rendering *)

(** Truthiness of [string | null]. *)
Definition truthy_str (s : option string) : bool :=
  match s with
  | Some EmptyString | None => false
  | Some _ => true
  end.

(** The loop of [render] over [this.blobs.values()].  Reading [b.layers.length],
    [center.x] or [b.drift.ax] on an absent property raises a TypeError and
    leaves the remaining blobs unpainted.  These are the errors of the loop
    that the records decide.  The errors of the canvas itself on the values
    computed for a disc ([createRadialGradient] on a radius that is negative
    or not finite, [addColorStop] on a colour written with NaN) depend on the
    geometry, which the log does not carry: [Normal] here says that no
    property read raised, not that the canvas drew every disc. *)
Fixpoint paint_blobs (bs : Map) (px : list Paint) : Completion (list Paint) :=
  match bs with
  | [] => Normal px
  | (_, b) :: rest =>
      match layers (b_fields b) with
      | None => Throw px
      | Some [] => paint_blobs rest px
      | Some ls =>
          match center (b_fields b), drift (b_fields b) with
          | Some _, Some _ =>
              paint_blobs rest (px ++ map (Disc (b_id b)) ls)
          | _, _ => Throw px
          end
      end
  end.

(** [render]: the background pass, then the blobs.  When [s.background] is
    truthy the pass is a [fillRect] in that style, composited ['source-over']
    onto what the store holds, with no clear before it; otherwise it is a
    [clearRect] of the whole store.  [tsMs] only moves and scales the discs,
    by the expressions of [Motion]. *)
Definition render (tsMs : num) (e : FluidBackground) : Completion FluidBackground :=
  match ctx e with
  | None => Throw e
  | Some _ =>
      let base :=
        match background (state e) with
        | Some c =>
            if truthy_str (Some c) then pixels (canvas e) ++ [Fill c] else []
        | None => []
        end in
      match paint_blobs (blobs e) base with
      | Normal px => Normal (with_pixels px e)
      | Throw px => Throw (with_pixels px e)
      end
  end.

(** *** The frame loop *)

(** [dt], [needCap], [minDt] and the rejection test of [loop]. *)
Definition nominal_dt : num := Fin (167 # 10).

Definition frame_dt (s : State) (now : num) : num :=
  if truthy (lastFrameMs s) then sub now (lastFrameMs s) else nominal_dt.

Definition needCap (s : State) : bool := gt (fpsCap s) (ofZ 0).

Definition minDt (s : State) : num :=
  if needCap s then div (ofZ 1000) (fpsCap s) else ofZ 0.

Definition rejects (s : State) (now : num) : bool :=
  needCap s && lt (frame_dt s now) (minDt s).

(** [loop], with [now] the reading of [performance.now()]. *)
Definition loop (now : num) (w : World) : Completion World :=
  let e := fb w in
  if negb (running (state e)) then Normal w
  else
    let (i, h) := requestAnimationFrame (host w) in
    let e1 := with_rafId (Zpos i) e in
    if rejects (state e1) now then Normal (mkWorld h e1)
    else
      let e2 := with_state (with_lastFrameMs now (state e1)) e1 in
      match render now (ensureSize h e2) with
      | Normal e3 => Normal (mkWorld h e3)
      | Throw e3 => Throw (mkWorld h e3)
      end.

(** The host running the oldest pending callback. *)
Definition frame (now : num) (w : World) : Completion World :=
  match rafPending (host w) with
  | [] => Normal w
  | _ :: rest => loop now (mkWorld (with_pending rest (host w)) (fb w))
  end.

(** *** Lifecycle *)

Definition start (now : num) (w : World) : Completion World :=
  let e := fb w in
  if running (state e) then Normal w
  else
    let s := with_lastFrameMs (ofZ 0) (with_running true (state e)) in
    loop now (mkWorld (host w) (with_state s e)).

Definition stop (w : World) : World :=
  let e := with_state (with_running false (state (fb w))) (fb w) in
  if Z.eqb (rafId e) 0 then mkWorld (host w) e
  else mkWorld (cancelAnimationFrame (rafId e) (host w)) (with_rafId 0 e).

(** [destroy]: [stop], then [clearRect] over the whole backing store under
    the identity transform, then [blobs.clear()].  What the cleared store
    shows depends on the context it was cleared through: see
    [blank_surface]. *)
Definition destroy (w : World) : World :=
  let w1 := stop w in
  let e := fb w1 in
  let e1 := match ctx e with
            | Some _ => with_pixels [] e
            | None => e
            end in
  mkWorld (host w1) (with_blobs (map_clear (blobs e1)) e1).

(** *** Construction *)

Definition from_option {A : Type} (o : option A) (d : A) : A :=
  match o with
  | Some v => v
  | None => d
  end.

Definition is_true (o : option bool) : bool := from_option o false.

(** The object assigned to [this.state]. *)
Definition initial_state (h : Host) (t0 : num) (opts : FluidOptions) : State :=
  mkState false
          (from_option (o_alpha opts) (Fin (1 # 2)))
          (from_option (o_blurPx opts) (ofZ 36))
          (from_option (o_parallaxVmax opts) (ofZ 1))
          (from_option (o_fpsCap opts) (ofZ 0))
          (from_option (o_composite opts) "source-over"%string)
          (o_background opts)
          (JsNum.max (ofZ 1) (or_else (devicePixelRatio h) (ofZ 1)))
          (ofZ 0) (ofZ 0) (ofZ 0) t0
          (is_true (o_desynchronized opts)).

(** [new FluidBackground(canvas, opts)] on host [h]; [t0] and [t1] are the
    readings of [performance.now()] by the constructor and by the first
    [loop].  [None] is the thrown ['2D context not available']. *)
Definition construct (h : Host) (cv : Canvas) (t0 t1 : num) (opts : FluidOptions)
  : option (Completion World) :=
  let wantOpaque := truthy_str (o_background opts) in
  if negb (context2d h) then None
  else
    let c := Context2D (negb wantOpaque) (is_true (o_desynchronized opts)) in
    let e := ensureSize h (mkEngine cv (Some c) 0 [] (initial_state h t0 opts)) in
    match o_autoStart opts with
    | Some false => Some (Normal (mkWorld h e))
    | _ => Some (start t1 (mkWorld h e))
    end.

(** *** Runs *)

(** Whether the callback run at [now] is one that [loop] accepts. *)
Definition accepts (w : World) (now : num) : bool :=
  match rafPending (host w) with
  | [] => false
  | _ :: _ => running (state (fb w)) && negb (rejects (state (fb w)) now)
  end.

(** The fields that the setters control. *)
Definition settings (s : State)
  : num * num * num * num * string * option string :=
  (alpha s, blurPx s, parallaxVmax s, fpsCap s, composite s, background s).

(** The ranges that the setters establish. *)
Definition in_range (s : State) : Prop :=
  within 0 1 (alpha s) /\ nonneg_int (blurPx s) /\ nonneg_int (fpsCap s).

(** A reading of [performance.now()] in a frame callback: finite, not 0. *)
Definition clock_reading (n : num) : Prop :=
  exists q : Q, n = Fin q /\ ~ (q == 0)%Q.

(** Frame [b] comes at least [m] milliseconds after frame [a]. *)
Definition apart (m : Q) (a b : num) : Prop :=
  match a, b with
  | Fin x, Fin y => (m <= y - x)%Q
  | _, _ => False
  end.

(** Every call a client or the host can make on a live engine. *)
Inductive Call : Type :=
| CallSetAlpha (a : num)
| CallSetBlurPx (px : num)
| CallSetParallax (v : num)
| CallSetFpsCap (fps : num)
| CallSetComposite (mode : string)
| CallSetBackground (color : option string)
| CallAddBlob (cfg : BlobConfig)
| CallUpdateBlob (i : string) (cfg : PartialBlob)
| CallRemoveBlob (i : string)
| CallStart (now : num)
| CallStop
| CallDestroy
| CallFrame (now : num)
| CallLayout (rw rh r : num).

Definition call (c : Call) (w : World) : World :=
  match c with
  | CallSetAlpha a => on_fb (setAlpha a) w
  | CallSetBlurPx px => on_fb (setBlurPx px) w
  | CallSetParallax v => on_fb (setParallax v) w
  | CallSetFpsCap fps => on_fb (setFpsCap fps) w
  | CallSetComposite mode => on_fb (setComposite mode) w
  | CallSetBackground color => on_fb (setBackground color) w
  | CallAddBlob cfg => on_fb (addBlob cfg) w
  | CallUpdateBlob i cfg => on_fb (updateBlob i cfg) w
  | CallRemoveBlob i => on_fb (removeBlob i) w
  | CallStart now => after (start now w)
  | CallStop => stop w
  | CallDestroy => destroy w
  | CallFrame now => after (frame now w)
  | CallLayout rw rh r =>
      mkWorld (mkHost (context2d (host w)) rw rh r (rafNext (host w))
                      (rafPending (host w)))
              (fb w)
  end.

Definition calls (cs : list Call) (w : World) : World :=
  fold_left (fun w c => call c w) cs w.

(** Whether [start] at [now] takes effect (the engine is stopped) and the
    [loop] it calls accepts its frame: [lastFrameMs] has just been reset. *)
Definition start_accepts (w : World) (now : num) : bool :=
  negb (running (state (fb w))) &&
  negb (rejects (with_lastFrameMs (ofZ 0) (with_running true (state (fb w)))) now).

(** The timestamps of the frames, in a sequence of calls, that [loop] accepts
    (does not return from before rendering): the frame callbacks, and the
    frame of the [loop] that [start] calls itself. *)
Fixpoint accepted_frames (w : World) (cs : list Call) : list num :=
  match cs with
  | [] => []
  | c :: rest =>
      match c with
      | CallFrame now => if accepts w now then [now] else []
      | CallStart now => if start_accepts w now then [now] else []
      | _ => []
      end ++ accepted_frames (call c w) rest
  end.

(** The accepted frames run by run.  A [start] that takes effect begins a new
    run of the loop; the first list is what remains of the run that is under
    way when the calls begin. *)
Definition push_frame (now : num) (rs : list (list num)) : list (list num) :=
  match rs with
  | [] => [[now]]
  | r :: rest => (now :: r) :: rest
  end.

Fixpoint runs (w : World) (cs : list Call) : list (list num) :=
  match cs with
  | [] => [[]]
  | c :: rest =>
      let rs := runs (call c w) rest in
      match c with
      | CallFrame now => if accepts w now then push_frame now rs else rs
      | CallStart now =>
          if running (state (fb w)) then rs
          else [] :: (if start_accepts w now then push_frame now rs else rs)
      | _ => rs
      end
  end.

(** A call that neither begins a new run of the loop nor changes the
    ceiling, and whose clock reading, for a frame callback, is finite and
    not 0. *)
Definition steady (c : Call) : Prop :=
  match c with
  | CallStart _ | CallSetFpsCap _ => False
  | CallFrame now => clock_reading now
  | _ => True
  end.

(** A call that does not change the ceiling, and whose clock reading, for
    [start] and for a frame callback, is finite and not 0. *)
Definition timed (c : Call) : Prop :=
  match c with
  | CallSetFpsCap _ => False
  | CallStart now | CallFrame now => clock_reading now
  | _ => True
  end.

(** A call other than [setAlpha(NaN)]. *)
Definition not_alpha_NaN (c : Call) : Prop :=
  match c with
  | CallSetAlpha NaN => False
  | _ => True
  end.

(** Sample hosts and engines: a 300 x 150 canvas in a 200 x 100 box at pixel
    ratio 2 with an empty frame queue; an engine built there with the empty
    options; one built stopped with a ceiling of 60 frames per second and then
    started at 1000 ms. *)
Definition blank_canvas : Canvas := mkCanvas (ofZ 300) (ofZ 150) [].

Definition sample_host : Host :=
  mkHost true (ofZ 200) (ofZ 100) (ofZ 2) 1%positive [].

Definition world_of (o : option (Completion World)) : World :=
  match o with
  | Some c => after c
  | None => mkWorld sample_host
              (mkEngine blank_canvas None 0 []
                 (mkState false NaN NaN NaN NaN EmptyString None NaN NaN NaN
                          NaN NaN false))
  end.

Definition default_world : World :=
  world_of (construct sample_host blank_canvas (ofZ 5) (ofZ 6) no_options).

Definition capped_options : FluidOptions :=
  mkOptions None None None (Some (ofZ 60)) None (Some "#102030"%string)
            (Some false) None.

Definition early_frames : list num := map ofZ [1005; 1017; 1030; 1034]%Z.

Definition busy_calls : list Call :=
  [CallFrame (ofZ 1005); CallSetBlurPx (ofZ 12); CallFrame (ofZ 1017);
   CallAddBlob blob_b1; CallFrame (ofZ 1030); CallLayout (ofZ 90) (ofZ 60) (ofZ 1);
   CallFrame (ofZ 1034)].

(** Calls that stop and restart the loop between two callbacks. *)
Definition restart_calls : list Call :=
  [CallFrame (ofZ 1005); CallFrame (ofZ 1017); CallStop; CallStart (ofZ 1018);
   CallFrame (ofZ 1020); CallFrame (ofZ 1035)].

Definition capped_world : World :=
  after (start (ofZ 1000)
           (world_of (construct sample_host blank_canvas (ofZ 5) (ofZ 6)
                                capped_options))).

End Engine.

(* ================================================================== *)
(** ** Views of the registry, the surface and the schedule *)
(* ================================================================== *)

Module Views.
Import JsNum Units Registry Engine.

(** Two numbers that are the same JS value: the same rational, whatever the
    fraction that writes it. *)
Definition same (a b : num) : Prop :=
  match a, b with
  | NaN, NaN | PInf, PInf | NInf, NInf => True
  | Fin x, Fin y => (x == y)%Q
  | _, _ => False
  end.

(** [this.blobs.keys()], in iteration order. *)
Definition keys (m : Map) : list string := map fst m.

(** Every stored blob carries the [_diameterPx: 0] of [materialize]. *)
Definition materialized (m : Map) : Prop :=
  Forall (fun kv => _diameterPx (snd kv) = ofZ 0) m.

(** A string of white space only. *)
Definition blank (s : string) : bool := forallb is_ws (list_ascii_of_string s).

(** A string without a decimal digit. *)
Definition no_digit (c : ascii) : bool :=
  match digit c with Some _ => false | None => true end.

Definition digit_free (s : string) : bool :=
  forallb no_digit (list_ascii_of_string s).

(** The number [n] in decimal notation, as a template literal prints an
    integer. *)
Definition decimal (n : nat) : string :=
  NilEmpty.string_of_uint (Nat.to_uint n).

(** The digits of a decimal numeral, most significant first. *)
Fixpoint uint_digits (d : Decimal.uint) : list Z :=
  match d with
  | Decimal.Nil => []
  | Decimal.D0 d => 0%Z :: uint_digits d
  | Decimal.D1 d => 1%Z :: uint_digits d
  | Decimal.D2 d => 2%Z :: uint_digits d
  | Decimal.D3 d => 3%Z :: uint_digits d
  | Decimal.D4 d => 4%Z :: uint_digits d
  | Decimal.D5 d => 5%Z :: uint_digits d
  | Decimal.D6 d => 6%Z :: uint_digits d
  | Decimal.D7 d => 7%Z :: uint_digits d
  | Decimal.D8 d => 8%Z :: uint_digits d
  | Decimal.D9 d => 9%Z :: uint_digits d
  end.

(** The characters of a decimal numeral. *)
Definition uint_chars (d : Decimal.uint) : chars :=
  list_ascii_of_string (NilEmpty.string_of_uint d).

(** The background pass of [render] on a store that holds [before]: when
    [s.background] is truthy, a fill onto what is there; otherwise the clear,
    after which nothing of it is left. *)
Definition background_pass (s : State) (before : list Paint) : list Paint :=
  match background s with
  | Some c => if truthy_str (Some c) then before ++ [Fill c] else []
  | None => []
  end.

(** The discs of one blob, one per layer in list order, and of a registry, in
    iteration order. *)
Definition blob_discs (b : InternalBlob) : list Paint :=
  match layers (b_fields b) with
  | Some ls => map (Disc (b_id b)) ls
  | None => []
  end.

Definition discs (m : Map) : list Paint :=
  flat_map (fun kv => blob_discs (snd kv)) m.

(** A blob on which the loop of [render] raises: [layers] is absent, or there
    are layers to paint and [center] or [drift] is absent. *)
Definition unpaintable (b : InternalBlob) : bool :=
  match layers (b_fields b) with
  | None => true
  | Some [] => false
  | Some _ =>
      match center (b_fields b), drift (b_fields b) with
      | Some _, Some _ => false
      | _, _ => true
      end
  end.

(** The backing store has the size that [ensureSize] assigns for the logical
    size and the pixel ratio in the state. *)
Definition sized (e : FluidBackground) : Prop :=
  width (canvas e)
  = JsNum.max (ofZ 1) (round (mul (cssW (state e)) (dpr (state e)))) /\
  height (canvas e)
  = JsNum.max (ofZ 1) (round (mul (cssH (state e)) (dpr (state e)))).

(** The schedule of a live engine: one callback pending, the one [rafId]
    names, while running; none, and [rafId] 0, while stopped. *)
Definition one_callback (w : World) : Prop :=
  if running (state (fb w))
  then exists p, rafId (fb w) = Zpos p /\ rafPending (host w) = [p]
  else rafId (fb w) = 0%Z /\ rafPending (host w) = [].

(** What no method assigns after construction: the start timestamp, the
    [desynchronized] flag and the context. *)
Definition constants (e : FluidBackground) : num * bool * option Ctx :=
  (startMs (state e), desynchronized (state e), ctx e).

(** The canvas size with the logical size and ratio it was computed from. *)
Definition geometry (e : FluidBackground) : num * num * num * num * num :=
  (width (canvas e), height (canvas e),
   cssW (state e), cssH (state e), dpr (state e)).

(** A registry with a painted blob and one without layers. *)
Definition two_blobs : Map :=
  Registry.addBlob (mkConfig "b2" (mkFields None None (Some []) None None None None))
    (Registry.addBlob blob_b1 []).

End Views.

(* ================================================================== *)
(** ** The editor's side of the interface *)
(* ================================================================== *)

(** Source: [src/App.vue], the functions that build what the editor hands to
    [addBlob] and [updateBlob]: [hexToRgb] and [toFbConfig]. *)
Module Editor.
Import JsNum Units Registry.

(** The value of a hexadecimal digit. *)
Definition hexval (c : ascii) : option Z :=
  let n := nat_of_ascii c in
  if Nat.leb 48 n && Nat.leb n 57 then Some (Z.of_nat (n - 48))
  else if Nat.leb 97 n && Nat.leb n 102 then Some (Z.of_nat (n - 87))
  else if Nat.leb 65 n && Nat.leb n 70 then Some (Z.of_nat (n - 55))
  else None.

Fixpoint take_hex (l : chars) : list Z :=
  match l with
  | c :: r =>
      match hexval c with
      | Some d => d :: take_hex r
      | None => []
      end
  | [] => []
  end.

Definition hex_value (ds : list Z) : Z :=
  fold_left (fun acc d => (16 * acc + d)%Z) ds 0%Z.

(** The [0x] or [0X] that [parseInt] strips when the radix is 16. *)
Definition strip_0x (l : chars) : chars :=
  match l with
  | "0"%char :: c :: r =>
      if Ascii.eqb c "x" || Ascii.eqb c "X" then r else l
  | _ => l
  end.

(** [parseInt(s, 16)]: leading white space, a sign, an optional [0x], then
    the longest run of hexadecimal digits; NaN when the run is empty.  The
    value is the exact integer (a double rounds it from [2^53] on). *)
Definition parseInt16 (l : chars) : num :=
  let (neg, l1) := take_sign (trimStart l) in
  match take_hex (strip_0x l1) with
  | [] => NaN
  | ds => ofZ (if neg then - hex_value ds else hex_value ds)
  end.

(** [hex.replace('#', '')]: the first ['#'] goes. *)
Fixpoint remove_hash (l : chars) : chars :=
  match l with
  | [] => []
  | c :: r => if Ascii.eqb c "#" then r else c :: remove_hash r
  end.

(** [s.split('').map(c => c + c).join('')]. *)
Definition double_chars (l : chars) : chars := flat_map (fun c => [c; c]) l.

(** [(n >> k) & 255]. *)
Definition channel (n : num) (k : Z) : num :=
  ofZ (Z.land (Z.shiftr (toInt32 n) k) 255).

Definition hexToRgb (hex : string) : RGB :=
  let s := trim (remove_hash (list_ascii_of_string hex)) in
  let full := if Nat.eqb (List.length s) 3 then double_chars s else s in
  let n := parseInt16 full in
  (channel n 16, channel n 8, channel n 0).

Record Layer : Type := mkEdLayer {
  hex : string;
  l_centerAlpha : num;
  l_midAlpha : num;
  l_edgeAlpha : num
}.

Record Breath : Type := mkEdBreath {
  enable : bool;
  scaleMin : num;
  scaleMax : num;
  opacityMin : num;
  opacityMax : num;
  br_speed : num;
  br_phase : num
}.

(** [centerX]: a string or a function of the dims. *)
Inductive CenterX : Type :=
| CxString (x : string)
| CxFunc (f : CenterFunc).

Record BlobItem : Type := mkItem {
  it_id : string;
  it_diameter : string;
  centerX : CenterX;
  centerY : option string;
  it_opacity : num;
  it_parallaxScale : num;
  it_layers : list Layer;
  it_drift : DriftSpec num;
  it_breath : Breath
}.

Definition toFbConfig (b : BlobItem) : BlobConfig :=
  let layers :=
    map (fun l => mkLayer (hexToRgb (hex l)) (l_centerAlpha l) (l_midAlpha l)
                          (l_edgeAlpha l)) (it_layers b) in
  let center :=
    match centerX b with
    | CxFunc f => Computed f
    | CxString x =>
        Symbolic x (match centerY b with Some y => y | None => "50%"%string end)
    end in
  let breath :=
    if enable (it_breath b)
    then Some (mkBreath (scaleMin (it_breath b), scaleMax (it_breath b))
                        (opacityMin (it_breath b), opacityMax (it_breath b))
                        (br_speed (it_breath b)) (br_phase (it_breath b)))
    else None in
  mkConfig (it_id b)
           (mkFields (Some (it_diameter b)) (Some center) (Some layers)
                     (Some (it_opacity b)) (Some (it_parallaxScale b))
                     (Some (it_drift b)) (Some breath)).

(** A config handed to [updateBlob] as its partial record. *)
Definition as_partial (cfg : BlobConfig) : PartialBlob :=
  mkPartial (Some (id cfg)) (fields cfg).

(** The three calls that [syncBlobs] makes on the engine. *)
Inductive SyncCall : Type :=
| SyncAdd (b : BlobItem)
| SyncUpdate (b : BlobItem)
| SyncRemove (i : string).

Definition sync_call (c : SyncCall) (m : Map) : Map :=
  match c with
  | SyncAdd b => Registry.addBlob (toFbConfig b) m
  | SyncUpdate b => Registry.updateBlob (it_id b) (as_partial (toFbConfig b)) m
  | SyncRemove i => Registry.removeBlob i m
  end.

Definition sync_calls (cs : list SyncCall) (m : Map) : Map :=
  fold_left (fun m c => sync_call c m) cs m.

(** Every stored blob has all its properties. *)
Definition all_complete (m : Map) : Prop :=
  Forall (fun kv => complete (b_fields (snd kv))) m.

(** A sample item. *)
Definition item_b1 : BlobItem :=
  mkItem "b1" "72vmax" (CxString "40%") None (ofZ 1) (ofZ 1)
         [mkEdLayer "#6d6afc" (ofZ 1) (Fin (1 # 2)) (ofZ 0)]
         (mkDrift (ofZ 8) (ofZ 6) (ofZ 4) (ofZ 3) (Fin (1 # 20)))
         (mkEdBreath false (ofZ 1) (ofZ 1) (ofZ 1) (ofZ 1) (ofZ 0) (ofZ 0)).

End Editor.

(* ================================================================== *)
(** ** Theorems: the unit resolver *)
(* ================================================================== *)

Section UnitResolver.
Import JsNum Units.

Lemma unitToPx_no_unit (str : string) (dims : Dims) (axis : Axis) :
  has_unit (trimmed str) = false ->
  unitToPx (VStr str) dims axis =
  if isNaN (parseFloat (trimmed str)) then ofZ 0 else parseFloat (trimmed str).
Proof.
  unfold has_unit, unitToPx. intro H.
  repeat (apply orb_false_iff in H; destruct H as [H ?]).
  now repeat match goal with E : endsWith _ _ = false |- _ => rewrite E; clear E end.
Qed.

Lemma startsWith_cons_inv (a : ascii) (p l : chars) :
  startsWith l (a :: p) = true ->
  exists l', l = a :: l' /\ startsWith l' p = true.
Proof.
  destruct l as [|b l']; simpl; [discriminate|].
  intro H. apply andb_true_iff in H. destruct H as [E H].
  apply Ascii.eqb_eq in E. subst b. now exists l'.
Qed.

Lemma endsWith_vmax_only (s : chars) :
  endsWith s "vmax" = true ->
  endsWith s "px" = false /\ endsWith s "%" = false /\
  endsWith s "vw" = false /\ endsWith s "vh" = false.
Proof.
  unfold endsWith. simpl. intro H.
  apply startsWith_cons_inv in H. destruct H as [l1 [E H]]. rewrite E.
  apply startsWith_cons_inv in H. destruct H as [l2 [E2 H]]. rewrite E2.
  repeat split; reflexivity.
Qed.

Lemma endsWith_percent_only (s : chars) :
  endsWith s "%" = true -> endsWith s "px" = false.
Proof.
  unfold endsWith. simpl. intro H.
  apply startsWith_cons_inv in H. destruct H as [l1 [E H]]. rewrite E.
  reflexivity.
Qed.

(** C1 (as amended).  A string with none of the five unit suffixes never
    raises and never resolves to NaN: it resolves to 0 when [parseFloat] finds
    no number at its front, and to the number found otherwise.  In particular
    ["bogus"] resolves to 0 for every [dims] and [axis]. *)
Theorem unitToPx_unrecognized_unit (str : string) (dims : Dims) (axis : Axis) :
  (has_unit (trimmed str) = false ->
   (parseFloat (trimmed str) = NaN -> unitToPx (VStr str) dims axis = ofZ 0) /\
   (parseFloat (trimmed str) <> NaN ->
    unitToPx (VStr str) dims axis = parseFloat (trimmed str)) /\
   unitToPx (VStr str) dims axis <> NaN) /\
  unitToPx (VStr "bogus") dims axis = ofZ 0.
Proof.
  split; [|reflexivity].
  intro H. rewrite (unitToPx_no_unit str dims axis H).
  destruct (parseFloat (trimmed str)) eqn:E; simpl;
    repeat split; intros; try congruence; try discriminate.
Qed.

Lemma unitToPx_unrecognized_unit_witness :
  has_unit (trimmed "  -x12 ") = false /\
  parseFloat (trimmed "  -x12 ") = NaN /\
  unitToPx (VStr "  -x12 ") (dims_of (ofZ 200) (ofZ 100)) AxisY = ofZ 0.
Proof.
  split; [reflexivity|]. split; [reflexivity|].
  apply (proj1 (unitToPx_unrecognized_unit "  -x12 "
                  (dims_of (ofZ 200) (ofZ 100)) AxisY));
    reflexivity.
Defined.

(** C1 (as stated) fails: ["10em"] has an unrecognized unit and resolves to
    10, not to 0. *)
Lemma unitToPx_10em_is_not_zero :
  has_unit (trimmed "10em") = false /\
  unitToPx (VStr "10em") (dims_of (ofZ 200) (ofZ 100)) AxisX = ofZ 10 /\
  unitToPx (VStr "10em") (dims_of (ofZ 200) (ofZ 100)) AxisX <> ofZ 0.
Proof.
  repeat split; try reflexivity. vm_compute. discriminate.
Qed.

(** A recognized unit behind an unparsable number is not caught by the
    [isNaN] test of the last branch: the result is NaN. *)
Example unitToPx_px_unparsable :
  unitToPx (VStr "abcpx") (dims_of (ofZ 200) (ofZ 100)) AxisX = NaN.
Proof. reflexivity. Qed.

(** The properties of the resolver that the specification lists as tests. *)
Example unitToPx_number (n : num) (dims : Dims) (axis : Axis) :
  unitToPx (VNum n) dims axis = n.
Proof. reflexivity. Qed.

Example unitToPx_percent_x :
  unitToPx (VStr "50%") (dims_of (ofZ 200) (ofZ 100)) AxisX = ofZ 100.
Proof. reflexivity. Qed.

Example unitToPx_percent_y :
  unitToPx (VStr "50%") (dims_of (ofZ 200) (ofZ 100)) AxisY = ofZ 50.
Proof. reflexivity. Qed.

Example unitToPx_vmax (axis : Axis) :
  unitToPx (VStr "10vmax") (dims_of (ofZ 200) (ofZ 400)) axis = ofZ 40.
Proof. destruct axis; reflexivity. Qed.

(** C2 (as amended).  [resolveDiameter] resolves the diameter expression with
    the axis ['vmax'].  A diameter in [vmax] units is that percentage of
    [max(width, height)]; a diameter in [%] is that percentage of the width,
    since the [%] rule only singles out the axis ['y']. *)
Theorem resolveDiameter_vmax_and_percent (str : string) (cw ch : num) :
  (endsWith (trimmed str) "vmax" = true ->
   resolveDiameter str (dims_of cw ch) =
   mul (JsNum.max cw ch) (div (parseFloat (trimmed str)) hundred)) /\
  (endsWith (trimmed str) "%" = true ->
   resolveDiameter str (dims_of cw ch) =
   mul cw (div (parseFloat (trimmed str)) hundred)).
Proof.
  unfold resolveDiameter, unitToPx. split; intro H.
  - destruct (endsWith_vmax_only _ H) as (E1 & E2 & E3 & E4).
    now rewrite E1, E2, E3, E4, H.
  - now rewrite (endsWith_percent_only _ H), H.
Qed.

Lemma resolveDiameter_vmax_and_percent_witness :
  endsWith (trimmed "72vmax") "vmax" = true /\
  endsWith (trimmed "50%") "%" = true /\
  resolveDiameter "72vmax" (dims_of (ofZ 100) (ofZ 200)) = ofZ 144 /\
  resolveDiameter "50%" (dims_of (ofZ 100) (ofZ 200)) = ofZ 50.
Proof.
  split; [reflexivity|]. split; [reflexivity|]. split.
  - rewrite (proj1 (resolveDiameter_vmax_and_percent "72vmax" (ofZ 100) (ofZ 200)));
      reflexivity.
  - rewrite (proj2 (resolveDiameter_vmax_and_percent "50%" (ofZ 100) (ofZ 200)));
      reflexivity.
Defined.

(** C2 (as stated) fails: on a 100 x 200 viewport the diameter ["50%"] is 50,
    half the width, where half of [max(width, height)] is 100. *)
Lemma resolveDiameter_percent_not_vmax :
  resolveDiameter "50%" (dims_of (ofZ 100) (ofZ 200)) = ofZ 50 /\
  mul (JsNum.max (ofZ 100) (ofZ 200)) (div (ofZ 50) hundred) = ofZ 100 /\
  resolveDiameter "50%" (dims_of (ofZ 100) (ofZ 200)) <>
  mul (JsNum.max (ofZ 100) (ofZ 200)) (div (ofZ 50) hundred).
Proof.
  repeat split; try reflexivity. vm_compute. discriminate.
Qed.

End UnitResolver.

(* ================================================================== *)
(** ** Theorems: the motion model *)
(* ================================================================== *)

Section MotionModel.
Import Motion.
Local Open Scope R_scope.

Lemma or0_id (x : R) : or0 x = x.
Proof. unfold or0. destruct (Req_dec_T x 0); lra. Qed.

Lemma Rabs_sin_le_1 (x : R) : Rabs (sin x) <= 1.
Proof. apply Rabs_le. apply SIN_bound. Qed.

Lemma Rabs_cos_le_1 (x : R) : Rabs (cos x) <= 1.
Proof. apply Rabs_le. apply COS_bound. Qed.

(** The modulus of [a * u + b * v] when [u] and [v] lie in [[-1, 1]]. *)
Lemma Rabs_combination (a b u v : R) :
  Rabs u <= 1 -> Rabs v <= 1 -> Rabs (a * u + b * v) <= Rabs a + Rabs b.
Proof.
  intros Hu Hv.
  eapply Rle_trans; [apply Rabs_triang|].
  rewrite !Rabs_mult.
  pose proof (Rabs_pos a). pose proof (Rabs_pos b).
  pose proof (Rabs_pos u). pose proof (Rabs_pos v).
  nra.
Qed.

(** C6.  The drift offsets are bounded by the sums of the moduli of their
    amplitudes, at every time and for every drift spec. *)
Theorem drift_bounded (d : DriftSpec R) (t : R) :
  Rabs (drift_dx d t) <= Rabs (ax d) + Rabs (sx d) /\
  Rabs (drift_dy d t) <= Rabs (ay d) + Rabs (sy d).
Proof.
  unfold drift_dx, drift_dy. rewrite !or0_id. split.
  - apply Rabs_combination; [apply Rabs_sin_le_1 | apply Rabs_cos_le_1].
  - apply Rabs_combination; [apply Rabs_cos_le_1 | apply Rabs_sin_le_1].
Qed.

Lemma sin_plus_TAU (x : R) : sin (x + TAU) = sin x.
Proof.
  unfold TAU. replace (x + PI * 2) with (x + 2 * INR 1 * PI) by (simpl; lra).
  apply sin_period.
Qed.

(** One full cycle of the breath phase. *)
Lemma breath_phase_step (ph s t : R) :
  s <> 0 -> sin (ph + TAU * s * (t + 1 / s)) = sin (ph + TAU * s * t).
Proof.
  intro Hs.
  replace (ph + TAU * s * (t + 1 / s)) with (ph + TAU * s * t + TAU)
    by (field; exact Hs).
  apply sin_plus_TAU.
Qed.

(** Ten cycles of the first drift component are seven of the detuned one. *)
Lemma drift_angles_step (s t : R) :
  s <> 0 ->
  TAU * s * (t + 10 / s) = TAU * s * t + 2 * INR 10 * PI /\
  TAU * s * 0.7 * (t + 10 / s) = TAU * s * 0.7 * t + 2 * INR 7 * PI.
Proof.
  intro Hs. unfold TAU. simpl INR.
  replace 0.7 with (7 / 10) by lra.
  split; field; exact Hs.
Qed.

(** C3 (as amended).  The breath multipliers repeat after [1/s], [s] the
    nonzero speed of the breath spec (and are 1 and 1 without one).  The
    drift offset repeats after [10/s], [s] the nonzero speed of the drift
    spec: its second component runs at 0.7 times the frequency of the first. *)
Theorem motion_periods (d : DriftSpec R) (b : BreathSpec R) (t : R) :
  (bspeed b <> 0 -> breath (Some b) (t + 1 / bspeed b) = breath (Some b) t) /\
  breath None t = (1, 1) /\
  (speed d <> 0 -> drift d (t + 10 / speed d) = drift d t).
Proof.
  split; [|split].
  - intro Hs. unfold breath. cbv zeta. now rewrite breath_phase_step.
  - reflexivity.
  - intro Hs. unfold drift, drift_dx, drift_dy.
    destruct (drift_angles_step (speed d) t Hs) as [E1 E2].
    rewrite E1, E2, !sin_period, !cos_period. reflexivity.
Qed.

Lemma motion_periods_witness :
  bspeed breath_2Hz <> 0 /\ speed drift_2Hz <> 0 /\
  breath (Some breath_2Hz) (7 + 1 / bspeed breath_2Hz)
  = breath (Some breath_2Hz) 7 /\
  drift drift_2Hz (7 + 10 / speed drift_2Hz) = drift drift_2Hz 7.
Proof.
  assert (H2 : (2 : R) <> 0) by lra.
  split; [exact H2|]. split; [exact H2|]. split.
  - exact (proj1 (motion_periods drift_2Hz breath_2Hz 7) H2).
  - exact (proj2 (proj2 (motion_periods drift_2Hz breath_2Hz 7)) H2).
Defined.

(** C3 (as stated) fails for the drift: with [sx = 1] and speed 1 the offset
    [dx] is 1 at [t = 0] and negative at [t = 0 + 1/1]: the two states are
    more than 1 apart. *)
Lemma drift_not_periodic_in_inverse_speed :
  drift_dx drift_detuned 0 = 1 /\
  drift_dx drift_detuned (0 + 1 / speed drift_detuned) < 0 /\
  drift_dx drift_detuned 0
  - drift_dx drift_detuned (0 + 1 / speed drift_detuned) > 1.
Proof.
  assert (H0 : drift_dx drift_detuned 0 = 1).
  { unfold drift_dx, drift_detuned. simpl. rewrite !or0_id.
    rewrite !Rmult_0_r, sin_0, cos_0. lra. }
  assert (H1 : drift_dx drift_detuned (0 + 1 / speed drift_detuned) < 0).
  { unfold drift_dx, drift_detuned. simpl. rewrite !or0_id.
    replace (TAU * 1 * 0.7 * (0 + 1 / 1)) with (2 / 5 * PI + PI)
      by (unfold TAU; lra).
    rewrite neg_cos.
    assert (0 < cos (2 / 5 * PI)).
    { pose proof PI_RGT_0. apply cos_gt_0; lra. }
    lra. }
  repeat split; [exact H0 | exact H1 | lra].
Qed.

End MotionModel.

(* ================================================================== *)
(** ** Theorems: the blob registry *)
(* ================================================================== *)

Section BlobRegistry.
Import JsNum Units Registry.

Lemma map_get_set_same (k : string) (v : InternalBlob) (m : Map) :
  map_get k (map_set k v m) = Some v.
Proof.
  induction m as [|[k' v'] r IH]; simpl.
  - now rewrite String.eqb_refl.
  - destruct (String.eqb k k') eqn:E; simpl; rewrite ?String.eqb_refl, ?E; auto.
Qed.

Lemma map_get_set_other (k k' : string) (v : InternalBlob) (m : Map) :
  k' <> k -> map_get k' (map_set k v m) = map_get k' m.
Proof.
  intro N. induction m as [|[k0 v0] r IH]; simpl.
  - destruct (String.eqb_spec k' k); congruence.
  - destruct (String.eqb_spec k k0); simpl.
    + subst k0. destruct (String.eqb_spec k' k); congruence.
    + now rewrite IH.
Qed.

Lemma map_set_size (k : string) (v : InternalBlob) (m : Map) :
  map_size (map_set k v m) =
  match map_get k m with
  | Some _ => map_size m
  | None => S (map_size m)
  end.
Proof.
  unfold map_size. induction m as [|[k' v'] r IH]; simpl; auto.
  destruct (String.eqb k k'); simpl; auto.
  rewrite IH. now destruct (map_get k r).
Qed.

Lemma map_get_coherent (k : string) (v : InternalBlob) (m : Map) :
  coherent m -> map_get k m = Some v -> b_id v = k.
Proof.
  unfold coherent. induction 1 as [|[k' v'] r Hkv _ IH]; simpl; [discriminate|].
  destruct (String.eqb_spec k k').
  - intro E. injection E as <-. simpl in Hkv. congruence.
  - exact IH.
Qed.

Lemma map_set_coherent (k : string) (v : InternalBlob) (m : Map) :
  k = b_id v -> coherent m -> coherent (map_set k v m).
Proof.
  unfold coherent. intros Hk. induction 1 as [|[k' v'] r Hkv Hr IH]; simpl.
  - now repeat constructor.
  - destruct (String.eqb k k'); constructor; auto.
Qed.

Lemma map_delete_coherent (k : string) (m : Map) :
  coherent m -> coherent (map_delete k m).
Proof.
  unfold coherent. induction 1 as [|[k' v'] r Hkv Hr IH]; simpl.
  - constructor.
  - destruct (String.eqb k k'); auto.
Qed.

Lemma addBlob_coherent (cfg : BlobConfig) (m : Map) :
  coherent m -> coherent (Registry.addBlob cfg m).
Proof. intro H. unfold Registry.addBlob. now apply map_set_coherent. Qed.

Lemma updateBlob_coherent (i : string) (cfg : PartialBlob) (m : Map) :
  coherent m -> coherent (Registry.updateBlob i cfg m).
Proof.
  intro H. unfold Registry.updateBlob.
  destruct (map_get i m) as [prev|] eqn:G.
  - apply map_set_coherent; auto. simpl.
    symmetry. now apply (map_get_coherent i prev m).
  - destruct (truthy_id (p_id cfg)); auto. now apply addBlob_coherent.
Qed.

Lemma apply_op_coherent (o : BlobOp) (m : Map) :
  coherent m -> coherent (apply_op o m).
Proof.
  destruct o; simpl; intro H.
  - now apply addBlob_coherent.
  - now apply updateBlob_coherent.
  - now apply map_delete_coherent.
Qed.

(** [updateBlob] on a key that the registry does not have. *)
Lemma registry_updateBlob_unknown (i : string) (cfg : PartialBlob) (m : Map) :
  map_get i m = None ->
  Registry.updateBlob i cfg m =
  match truthy_id (p_id cfg) with
  | Some ci => Registry.addBlob (mkConfig ci (p_fields cfg)) m
  | None => m
  end.
Proof. intro G. unfold Registry.updateBlob. now rewrite G. Qed.

(** C9.  From the empty registry (and from any registry whose keys are the
    ids of their blobs) every sequence of [addBlob], [updateBlob] and
    [removeBlob] leaves each key equal to the [id] of the blob under it; and
    [updateBlob] on a present id stores a blob with that same id, whatever id
    the partial record carries. *)
Theorem registry_keys_are_ids (os : list BlobOp) :
  coherent (apply_ops os []) /\
  (forall m, coherent m -> coherent (apply_ops os m)) /\
  (forall m i cfg prev,
     coherent m -> map_get i m = Some prev ->
     exists next,
       map_get i (Registry.updateBlob i cfg m) = Some next /\
       b_id next = b_id prev /\ b_id next = i).
Proof.
  assert (K : forall m, coherent m -> coherent (apply_ops os m)).
  { unfold apply_ops. induction os as [|o os IH]; simpl; auto.
    intros m H. apply IH. now apply apply_op_coherent. }
  split; [apply K; constructor|]. split; [exact K|].
  intros m i cfg prev H G. unfold Registry.updateBlob. rewrite G.
  eexists. split; [apply map_get_set_same|]. simpl.
  split; [reflexivity|]. now apply (map_get_coherent i prev m).
Qed.

Lemma registry_keys_are_ids_witness :
  coherent (Registry.addBlob blob_b1 []) /\
  map_get "b1" (Registry.addBlob blob_b1 []) = Some (materialize blob_b1) /\
  exists next,
    map_get "b1" (Registry.updateBlob "b1" (mkPartial (Some "zz"%string) no_fields)
                    (Registry.addBlob blob_b1 [])) = Some next /\
    b_id next = "b1"%string.
Proof.
  assert (H : coherent (Registry.addBlob blob_b1 [])) by (repeat constructor).
  split; [exact H|]. split; [reflexivity|].
  destruct (proj2 (proj2 (registry_keys_are_ids []))
              (Registry.addBlob blob_b1 []) "b1"%string
              (mkPartial (Some "zz"%string) no_fields) (materialize blob_b1)
              H eq_refl) as (next & G & _ & I).
  exists next. split; [exact G | exact I].
Defined.

End BlobRegistry.

(* ================================================================== *)
(** ** Theorems: the engine *)
(* ================================================================== *)

Section EngineFacts.
Import JsNum Units Registry Engine.

(** *** What the internal steps leave alone *)

Lemma ensureSize_frame (h : Host) (e : FluidBackground) :
  settings (state (ensureSize h e)) = settings (state e) /\
  running (state (ensureSize h e)) = running (state e) /\
  lastFrameMs (state (ensureSize h e)) = lastFrameMs (state e) /\
  blobs (ensureSize h e) = blobs e /\
  ctx (ensureSize h e) = ctx e /\
  rafId (ensureSize h e) = rafId e.
Proof.
  unfold ensureSize.
  match goal with |- context [if ?b then _ else _] => destruct b end;
    simpl; repeat split; reflexivity.
Qed.

Lemma render_frame (t : num) (e : FluidBackground) :
  state (after (render t e)) = state e /\
  blobs (after (render t e)) = blobs e /\
  ctx (after (render t e)) = ctx e /\
  rafId (after (render t e)) = rafId e.
Proof.
  unfold render. destruct (ctx e) eqn:C; simpl; [|now rewrite C].
  destruct (paint_blobs _ _); simpl; now rewrite C.
Qed.

Lemma render_no_blobs (t : num) (e : FluidBackground) (c : Ctx) :
  ctx e = Some c -> blobs e = [] -> background (state e) = None ->
  render t e = Normal (with_pixels [] e).
Proof. intros C B G. unfold render. now rewrite C, B, G. Qed.

(** *** The three ways through [loop] *)

Lemma loop_stopped (now : num) (w : World) :
  running (state (fb w)) = false -> loop now w = Normal w.
Proof. intro R. unfold loop. now rewrite R. Qed.

Lemma loop_rejected (now : num) (w : World) :
  running (state (fb w)) = true -> rejects (state (fb w)) now = true ->
  loop now w =
  Normal (mkWorld (snd (requestAnimationFrame (host w)))
                  (with_rafId (Zpos (rafNext (host w))) (fb w))).
Proof. intros R J. unfold loop. rewrite R. simpl. now rewrite J. Qed.

Lemma loop_accepted (now : num) (w : World) :
  running (state (fb w)) = true -> rejects (state (fb w)) now = false ->
  let w' := after (loop now w) in
  lastFrameMs (state (fb w')) = now /\
  settings (state (fb w')) = settings (state (fb w)) /\
  running (state (fb w')) = true /\
  blobs (fb w') = blobs (fb w) /\
  ctx (fb w') = ctx (fb w) /\
  rafId (fb w') = Zpos (rafNext (host w)) /\
  host w' = snd (requestAnimationFrame (host w)).
Proof.
  intros R J. unfold loop. rewrite R. simpl. rewrite J.
  set (e2 := with_state _ _).
  set (h := mkHost _ _ _ _ _ _).
  destruct (render_frame now (ensureSize h e2)) as (S1 & B1 & C1 & I1).
  destruct (ensureSize_frame h e2) as (S2 & R2 & L2 & B2 & C2 & I2).
  assert (E : forall c : Completion FluidBackground,
             fb (after match c with
                       | Normal e3 => Normal (mkWorld h e3)
                       | Throw e3 => Throw (mkWorld h e3)
                       end) = after c /\
             host (after match c with
                         | Normal e3 => Normal (mkWorld h e3)
                         | Throw e3 => Throw (mkWorld h e3)
                         end) = h) by (intros []; split; reflexivity).
  destruct (E (render now (ensureSize h e2))) as [E1 E2].
  rewrite E1, E2, S1, B1, C1, I1, S2, R2, L2, B2, C2, I2.
  subst e2. simpl. rewrite R. repeat split; reflexivity.
Qed.

(** [loop] never touches the settings, the running flag, the registry or the
    context. *)
Lemma loop_frame (now : num) (w : World) :
  let w' := after (loop now w) in
  settings (state (fb w')) = settings (state (fb w)) /\
  running (state (fb w')) = running (state (fb w)) /\
  blobs (fb w') = blobs (fb w) /\
  ctx (fb w') = ctx (fb w).
Proof.
  destruct (running (state (fb w))) eqn:R.
  - destruct (rejects (state (fb w)) now) eqn:J.
    + rewrite (loop_rejected now w R J). simpl. now rewrite R.
    + destruct (loop_accepted now w R J) as (_ & S & R' & B & C & _).
      cbv zeta. now rewrite S, R', B, C.
  - rewrite (loop_stopped now w R). simpl. now rewrite R.
Qed.

Lemma frame_frame (now : num) (w : World) :
  let w' := after (frame now w) in
  settings (state (fb w')) = settings (state (fb w)) /\
  running (state (fb w')) = running (state (fb w)) /\
  blobs (fb w') = blobs (fb w) /\
  ctx (fb w') = ctx (fb w).
Proof.
  unfold frame. destruct (rafPending (host w)); [now simpl|].
  apply (loop_frame now (mkWorld _ (fb w))).
Qed.

Lemma frame_lastFrameMs (now : num) (w : World) :
  lastFrameMs (state (fb (after (frame now w)))) =
  if accepts w now then now else lastFrameMs (state (fb w)).
Proof.
  unfold frame, accepts. destruct (rafPending (host w)) as [|i rest]; [reflexivity|].
  set (w1 := mkWorld _ _).
  change (fb w) with (fb w1).
  destruct (running (state (fb w1))) eqn:R.
  - destruct (rejects (state (fb w1)) now) eqn:J; simpl.
    + now rewrite (loop_rejected now w1 R J).
    + now destruct (loop_accepted now w1 R J) as (L & _).
  - now rewrite (loop_stopped now w1 R).
Qed.

Lemma frame_keeps_pending (now : num) (w : World) :
  running (state (fb w)) = true -> rafPending (host w) <> [] ->
  rafPending (host (after (frame now w))) <> [].
Proof.
  intros R P. unfold frame. destruct (rafPending (host w)) as [|i rest] eqn:Q;
    [congruence|].
  set (w1 := mkWorld _ _).
  assert (R1 : running (state (fb w1)) = true) by exact R.
  destruct (rejects (state (fb w1)) now) eqn:J.
  - rewrite (loop_rejected now w1 R1 J). simpl. now destruct rest.
  - destruct (loop_accepted now w1 R1 J) as (_ & _ & _ & _ & _ & _ & H).
    rewrite H. simpl. now destruct rest.
Qed.

(** *** The frame-rate ceiling *)

Lemma Qltb_false (a b : Q) : Qltb a b = false -> (b <= a)%Q.
Proof.
  unfold Qltb. intro H. apply negb_false_iff in H.
  now apply Qle_bool_iff.
Qed.

Lemma Qltb_true (a b : Q) : Qltb a b = true -> (a < b)%Q.
Proof.
  unfold Qltb. intro H. apply negb_true_iff in H.
  apply Qnot_le_lt. intro L. apply Qle_bool_iff in L. congruence.
Qed.

Lemma Qltb_of_lt (a b : Q) : (a < b)%Q -> Qltb a b = true.
Proof.
  intro H. unfold Qltb. apply negb_true_iff.
  destruct (Qle_bool b a) eqn:E; [|reflexivity].
  apply Qle_bool_iff in E. exfalso. exact (Qlt_not_le _ _ H E).
Qed.

Lemma Qeq_bool_false (a b : Q) : ~ (a == b)%Q -> Qeq_bool a b = false.
Proof.
  intro H. destruct (Qeq_bool a b) eqn:E; [|reflexivity].
  apply Qeq_bool_iff in E. contradiction.
Qed.

(** An accepted frame under a positive ceiling [c] comes at least [1000/c]
    after the frame recorded in [lastFrameMs]. *)
Lemma accepted_after_last (s : State) (c l q : Q) :
  fpsCap s = Fin c -> (0 < c)%Q ->
  lastFrameMs s = Fin l -> ~ (l == 0)%Q ->
  rejects s (Fin q) = false ->
  (1000 / c <= q - l)%Q.
Proof.
  intros F Hc L Hl J. unfold rejects, needCap, minDt, needCap, frame_dt, gt in J.
  rewrite F, L in J. unfold ofZ in J. cbn [lt truthy sub div] in J.
  rewrite (Qltb_of_lt (inject_Z 0) c Hc), (Qeq_bool_false l 0 Hl) in J.
  rewrite Qeq_bool_false in J by (intro E; rewrite E in Hc; discriminate).
  cbn [negb andb] in J.
  apply Qltb_false in J. rewrite !Qred_correct in J.
  exact J.
Qed.

Lemma apart_trans (m l q a : Q) :
  (0 <= m)%Q -> (m <= q - l)%Q -> (m <= a - q)%Q -> (m <= a - l)%Q.
Proof. intros. lra. Qed.

(** A steady call that is not a frame callback leaves the ceiling and the
    last accepted frame as they are. *)
Lemma steady_call_timing (c : Call) (w : World) :
  steady c -> (forall now, c <> CallFrame now) ->
  fpsCap (state (fb (call c w))) = fpsCap (state (fb w)) /\
  lastFrameMs (state (fb (call c w))) = lastFrameMs (state (fb w)).
Proof.
  intros S N. destruct c; try contradiction; try (split; reflexivity).
  - simpl. unfold stop. destruct (Z.eqb _ 0); split; reflexivity.
  - simpl. unfold destroy, stop.
    destruct (Z.eqb _ 0); simpl; destruct (ctx (fb w)); split; reflexivity.
  - now elim (N now).
Qed.

Lemma accepted_frames_apart (c : Q) (cs : list Call) :
  (0 < c)%Q -> Forall steady cs ->
  forall w, fpsCap (state (fb w)) = Fin c ->
  ForallOrdPairs (apart (1000 / c)) (accepted_frames w cs) /\
  (forall l, lastFrameMs (state (fb w)) = Fin l -> ~ (l == 0)%Q ->
     Forall (apart (1000 / c) (Fin l)) (accepted_frames w cs)).
Proof.
  intros Hc Hs. induction Hs as [|k rest Hk _ IH]; intros w F.
  - simpl. split; constructor.
  - assert (Hm : (0 <= 1000 / c)%Q).
    { apply Qlt_le_weak. apply Qlt_shift_div_l; [exact Hc|]. now rewrite Qmult_0_l. }
    assert (D : (exists now, k = CallFrame now) \/ forall now, k <> CallFrame now).
    { destruct k; try (right; discriminate). left. now exists now. }
    destruct D as [[now ->]|N].
    + destruct Hk as [q [-> Hq]].
      destruct (frame_frame (Fin q) w) as (S & _).
      assert (F' : fpsCap (state (fb (call (CallFrame (Fin q)) w))) = Fin c).
      { simpl. unfold settings in S. injection S as _ _ _ E _ _. now rewrite E. }
      destruct (IH _ F') as [IH1 IH2].
      pose proof (frame_lastFrameMs (Fin q) w) as L.
      cbn [accepted_frames]. destruct (accepts w (Fin q)) eqn:A.
      * specialize (IH2 q L Hq). split.
        -- now constructor.
        -- intros l Hl Hl0.
           assert (G : (1000 / c <= q - l)%Q).
           { unfold accepts in A. destruct (rafPending (host w)); [discriminate|].
             apply andb_true_iff in A. destruct A as [_ A].
             apply negb_true_iff in A.
             now apply (accepted_after_last (state (fb w)) c l q). }
           constructor; [exact G|].
           eapply Forall_impl; [|exact IH2].
           intros [| | |a]; simpl; try tauto.
           intro Ha. now apply (apart_trans _ l q a).
      * split; [exact IH1|]. intros l Hl Hl0. apply IH2; [|exact Hl0].
        simpl. now rewrite L.
    + destruct (steady_call_timing k w Hk N) as [E1 E2].
      assert (F' : fpsCap (state (fb (call k w))) = Fin c) by now rewrite E1.
      destruct (IH _ F') as [IH1 IH2].
      assert (Z0 : accepted_frames w (k :: rest) = accepted_frames (call k w) rest).
      { cbn [accepted_frames]. destruct k; try reflexivity;
          [contradiction | now elim (N now)]. }
      rewrite Z0. split; [exact IH1|].
      intros l Hl Hl0. apply IH2; [now rewrite E2 | exact Hl0].
Qed.

Lemma accepted_frames_uncapped (nows : list num) :
  forall w, running (state (fb w)) = true -> rafPending (host w) <> [] ->
  needCap (state (fb w)) = false ->
  accepted_frames w (map CallFrame nows) = nows.
Proof.
  induction nows as [|now rest IH]; intros w R P N; [reflexivity|].
  cbn [map accepted_frames]. unfold accepts at 1, rejects. rewrite R, N.
  destruct (rafPending (host w)) eqn:Q; [congruence|]. simpl. f_equal.
  destruct (frame_frame now w) as (S & R' & _).
  apply IH.
  - now rewrite R'.
  - apply frame_keeps_pending; [exact R | now rewrite Q].
  - unfold needCap in *. unfold settings in S.
    injection S as _ _ _ E _ _. now rewrite E.
Qed.

(** *** Runs of the loop *)

Lemma start_lastFrameMs (now : num) (w : World) :
  lastFrameMs (state (fb (after (start now w)))) =
  if running (state (fb w)) then lastFrameMs (state (fb w))
  else if start_accepts w now then now else ofZ 0.
Proof.
  unfold start, start_accepts. destruct (running (state (fb w))) eqn:R;
    [reflexivity|].
  set (w1 := mkWorld _ _).
  assert (R1 : running (state (fb w1)) = true) by reflexivity.
  change (rejects (with_lastFrameMs (ofZ 0) (with_running true (state (fb w)))) now)
    with (rejects (state (fb w1)) now).
  destruct (rejects (state (fb w1)) now) eqn:J; cbn [negb andb].
  - now rewrite (loop_rejected now w1 R1 J).
  - now destruct (loop_accepted now w1 R1 J) as (L & _).
Qed.

Lemma start_fpsCap (now : num) (w : World) :
  fpsCap (state (fb (after (start now w)))) = fpsCap (state (fb w)).
Proof.
  unfold start. destruct (running (state (fb w))); [reflexivity|].
  set (w1 := mkWorld _ _). destruct (loop_frame now w1) as (S & _).
  unfold settings in S. injection S as _ _ _ E _ _. now rewrite E.
Qed.

Lemma timed_steady (c : Call) :
  timed c -> (forall now, c <> CallStart now) -> steady c.
Proof. intros T N. destruct c; try exact T. now elim (N now). Qed.

Lemma push_frame_hd (now : num) (rs : list (list num)) :
  hd [] (push_frame now rs) = now :: hd [] rs.
Proof. now destruct rs. Qed.

Lemma push_frame_Forall (P : list num -> Prop) (now : num) (rs : list (list num)) :
  Forall P rs -> P (now :: hd [] rs) -> Forall P (push_frame now rs).
Proof.
  intros F H. destruct rs as [|r rest]; simpl in *.
  - now constructor.
  - inversion F; subst. now constructor.
Qed.

Lemma push_frame_concat (now : num) (rs : list (list num)) :
  List.concat (push_frame now rs) = now :: List.concat rs.
Proof. now destruct rs. Qed.

(** The runs hold the accepted frames, in order. *)
Lemma runs_concat (cs : list Call) :
  forall w, List.concat (runs w cs) = accepted_frames w cs.
Proof.
  induction cs as [|k rest IH]; intro w; [reflexivity|].
  cbn [runs accepted_frames]. destruct k; try (rewrite IH; reflexivity).
  - unfold start_accepts. destruct (running (state (fb w))); cbn [negb andb].
    + now rewrite IH.
    + destruct (negb _); cbn [List.concat app]; [rewrite push_frame_concat|];
        now rewrite IH.
  - destruct (accepts w now); [rewrite push_frame_concat|]; now rewrite IH.
Qed.

(** Without a [start] among the calls there is one run. *)
Lemma runs_steady (cs : list Call) :
  Forall steady cs -> forall w, runs w cs = [accepted_frames w cs].
Proof.
  induction 1 as [|k rest Hk _ IH]; intro w; [reflexivity|].
  cbn [runs accepted_frames]. rewrite IH.
  destruct k; try reflexivity; try contradiction.
  now destruct (accepts w now).
Qed.

Lemma runs_apart (c : Q) (cs : list Call) :
  (0 < c)%Q -> Forall timed cs ->
  forall w, fpsCap (state (fb w)) = Fin c ->
  Forall (ForallOrdPairs (apart (1000 / c))) (runs w cs) /\
  (forall l, lastFrameMs (state (fb w)) = Fin l -> ~ (l == 0)%Q ->
     Forall (apart (1000 / c) (Fin l)) (hd [] (runs w cs))).
Proof.
  intros Hc Hs. induction Hs as [|k rest Hk _ IH]; intros w F.
  - simpl. split; repeat constructor.
  - assert (Hm : (0 <= 1000 / c)%Q).
    { apply Qlt_le_weak. apply Qlt_shift_div_l; [exact Hc|]. now rewrite Qmult_0_l. }
    assert (D : (exists now, k = CallFrame now) \/ (exists now, k = CallStart now) \/
                ((forall now, k <> CallFrame now) /\ (forall now, k <> CallStart now))).
    { destruct k; try (right; right; split; discriminate).
      - right. left. now exists now.
      - left. now exists now. }
    destruct D as [[now ->]|[[now ->]|[N1 N2]]].
    + destruct Hk as [q [-> Hq]].
      destruct (frame_frame (Fin q) w) as (S & _).
      assert (F' : fpsCap (state (fb (call (CallFrame (Fin q)) w))) = Fin c).
      { simpl. unfold settings in S. injection S as _ _ _ E _ _. now rewrite E. }
      destruct (IH _ F') as [IH1 IH2].
      pose proof (frame_lastFrameMs (Fin q) w) as L.
      cbn [runs]. destruct (accepts w (Fin q)) eqn:A.
      * specialize (IH2 q L Hq). split.
        -- apply push_frame_Forall; [exact IH1|]. constructor; [exact IH2|].
           destruct (runs _ rest) as [|r rs]; [constructor|].
           now inversion IH1.
        -- intros l Hl Hl0. rewrite push_frame_hd.
           assert (G : (1000 / c <= q - l)%Q).
           { unfold accepts in A. destruct (rafPending (host w)); [discriminate|].
             apply andb_true_iff in A. destruct A as [_ A].
             apply negb_true_iff in A.
             now apply (accepted_after_last (state (fb w)) c l q). }
           constructor; [exact G|].
           eapply Forall_impl; [|exact IH2].
           intros [| | |a]; simpl; try tauto.
           intro Ha. now apply (apart_trans _ l q a).
      * split; [exact IH1|]. intros l Hl Hl0. apply IH2; [|exact Hl0].
        simpl. now rewrite L.
    + destruct Hk as [q [-> Hq]].
      assert (F' : fpsCap (state (fb (call (CallStart (Fin q)) w))) = Fin c).
      { simpl. now rewrite start_fpsCap. }
      destruct (IH _ F') as [IH1 IH2].
      pose proof (start_lastFrameMs (Fin q) w) as L.
      cbn [runs]. destruct (running (state (fb w))) eqn:R.
      * split; [exact IH1|]. intros l Hl Hl0. apply IH2; [|exact Hl0].
        simpl. now rewrite L.
      * split; [|intros; constructor].
        constructor; [constructor|].
        destruct (start_accepts w (Fin q)); [|exact IH1].
        specialize (IH2 q L Hq).
        apply push_frame_Forall; [exact IH1|]. constructor; [exact IH2|].
        destruct (runs _ rest) as [|r rs]; [constructor|].
        now inversion IH1.
    + pose proof (timed_steady k Hk N2) as Hst.
      destruct (steady_call_timing k w Hst N1) as [E1 E2].
      assert (F' : fpsCap (state (fb (call k w))) = Fin c) by now rewrite E1.
      destruct (IH _ F') as [IH1 IH2].
      assert (Z0 : runs w (k :: rest) = runs (call k w) rest).
      { cbn [runs]. destruct k; try reflexivity.
        - now elim (N2 now).
        - now elim (N1 now). }
      rewrite Z0. split; [exact IH1|].
      intros l Hl Hl0. apply IH2; [now rewrite E2 | exact Hl0].
Qed.

(** C4 (as amended).  The frames that [loop] accepts fall into runs: a
    [start] that takes effect begins a new one, and the frame of the [loop]
    it calls is the first of it.  Under a positive ceiling [c] that no call
    changes, any two frames accepted in the same run are at least [1000/c]
    ms apart, and those of the run under way as far from the frame that
    [lastFrameMs] records (clock readings finite and not 0).  Without a
    [start] among the calls all accepted frames belong to one run.  A
    callback that comes too early is rejected: the surface, the state and the
    registry are as before, and the next callback is requested and pending.
    With the ceiling at 0 every callback of a running engine is accepted. *)
Theorem frame_rate_ceiling (w : World) (cs : list Call) (nows : list num) :
  (forall c, fpsCap (state (fb w)) = Fin c -> (0 < c)%Q ->
     Forall timed cs ->
     Forall (ForallOrdPairs (apart (1000 / c))) (runs w cs) /\
     (forall l, lastFrameMs (state (fb w)) = Fin l -> ~ (l == 0)%Q ->
        Forall (apart (1000 / c) (Fin l)) (hd [] (runs w cs)))) /\
  List.concat (runs w cs) = accepted_frames w cs /\
  (forall c, fpsCap (state (fb w)) = Fin c -> (0 < c)%Q ->
     Forall steady cs ->
     runs w cs = [accepted_frames w cs] /\
     ForallOrdPairs (apart (1000 / c)) (accepted_frames w cs) /\
     (forall l, lastFrameMs (state (fb w)) = Fin l -> ~ (l == 0)%Q ->
        Forall (apart (1000 / c) (Fin l)) (accepted_frames w cs))) /\
  (forall now, running (state (fb w)) = true -> rafPending (host w) <> [] ->
     rejects (state (fb w)) now = true ->
     exists w', frame now w = Normal w' /\
       canvas (fb w') = canvas (fb w) /\ state (fb w') = state (fb w) /\
       blobs (fb w') = blobs (fb w) /\
       rafId (fb w') = Zpos (rafNext (host w)) /\
       In (rafNext (host w)) (rafPending (host w'))) /\
  (fpsCap (state (fb w)) = ofZ 0 -> running (state (fb w)) = true ->
     rafPending (host w) <> [] ->
     accepted_frames w (map CallFrame nows) = nows).
Proof.
  split; [|split; [|split; [|split]]].
  - intros c F Hc Hs. now apply (runs_apart c cs Hc Hs w F).
  - apply runs_concat.
  - intros c F Hc Hs. split; [now apply runs_steady|].
    now apply (accepted_frames_apart c cs Hc Hs w F).
  - intros now R P J. unfold frame.
    destruct (rafPending (host w)) as [|i rest] eqn:Q; [congruence|].
    set (w1 := mkWorld _ _).
    rewrite (loop_rejected now w1 R J). eexists. split; [reflexivity|].
    simpl. repeat split; try reflexivity.
    apply in_or_app. right. now left.
  - intros F R P. apply accepted_frames_uncapped; auto.
    unfold needCap. now rewrite F.
Qed.

Lemma clock_reading_ofZ (z : Z) : z <> 0%Z -> clock_reading (ofZ z).
Proof.
  intro H. exists (inject_Z z). split; [reflexivity|].
  unfold Qeq. simpl. lia.
Qed.

Lemma frame_rate_ceiling_witness :
  runs capped_world restart_calls
    = [map ofZ [1017]%Z; map ofZ [1018; 1035]%Z] /\
  Forall (ForallOrdPairs (apart (1000 / 60))) (runs capped_world restart_calls) /\
  accepted_frames capped_world busy_calls = map ofZ [1017; 1034]%Z /\
  ForallOrdPairs (apart (1000 / 60)) (accepted_frames capped_world busy_calls) /\
  Forall (apart (1000 / 60) (ofZ 1000)) (accepted_frames capped_world busy_calls) /\
  (exists w', frame (ofZ 1005) capped_world = Normal w' /\
     canvas (fb w') = canvas (fb capped_world) /\
     In (rafNext (host capped_world)) (rafPending (host w'))) /\
  accepted_frames default_world (map CallFrame early_frames) = early_frames.
Proof.
  assert (T : Forall timed restart_calls).
  { repeat constructor; apply clock_reading_ofZ; discriminate. }
  assert (S : Forall steady busy_calls).
  { repeat constructor; apply clock_reading_ofZ; discriminate. }
  destruct (proj1 (frame_rate_ceiling capped_world restart_calls []) 60
              eq_refl eq_refl T) as [G1 _].
  destruct (proj1 (proj2 (proj2 (frame_rate_ceiling capped_world busy_calls []))) 60
              eq_refl eq_refl S) as (_ & H1 & H2).
  split; [reflexivity|]. split; [exact G1|].
  split; [reflexivity|]. split; [exact H1|]. split; [|split].
  - apply (H2 1000); [reflexivity | discriminate].
  - destruct (proj1 (proj2 (proj2 (proj2 (frame_rate_ceiling capped_world [] []))))
                (ofZ 1005) eq_refl) as (w' & E & C & _ & _ & _ & P).
    + discriminate.
    + reflexivity.
    + exists w'. auto.
  - apply (proj2 (proj2 (proj2 (proj2 (frame_rate_ceiling default_world [] early_frames)))));
      [reflexivity | reflexivity | discriminate].
Defined.

(** C4 (as stated) fails across a restart.  Under a ceiling of 60 frames per
    second (at least 16.66 ms between frames) the engine accepts the callback
    at 1017 ms; [stop()] and [start()] at 1018 ms then render a frame at
    once, 1 ms after the last one: [start] resets [lastFrameMs], and [loop]
    judges its first frame on the nominal 16.7 ms. *)
Lemma restart_frames_too_close :
  fpsCap (state (fb capped_world)) = ofZ 60 /\
  accepted_frames capped_world
    [CallFrame (ofZ 1017); CallStop; CallStart (ofZ 1018)]
    = [ofZ 1017; ofZ 1018] /\
  ~ apart (1000 / 60) (ofZ 1017) (ofZ 1018) /\
  ~ ForallOrdPairs (apart (1000 / 60))
      (accepted_frames capped_world
         [CallFrame (ofZ 1017); CallStop; CallStart (ofZ 1018)]).
Proof.
  assert (N : ~ apart (1000 / 60) (ofZ 1017) (ofZ 1018)).
  { unfold apart, ofZ. intro H. apply Qle_bool_iff in H. discriminate. }
  split; [reflexivity|]. split; [reflexivity|]. split; [exact N|].
  intro H. change (accepted_frames capped_world _)
             with [ofZ 1017; ofZ 1018] in H.
  inversion H as [|a l Fa _]; subst. inversion Fa; subst. contradiction.
Qed.

(** A ceiling under 60 set before [start] starves the loop: [lastFrameMs]
    stays 0, so every callback sees the nominal 16.7 ms and is rejected. *)
Example frames_starved_at_30fps :
  accepted_frames
    (after (start (ofZ 1000)
              (on_fb (setFpsCap (ofZ 30))
                 (world_of (construct sample_host blank_canvas (ofZ 5) (ofZ 6)
                                      capped_options)))))
    (map CallFrame (map ofZ [1040; 1080; 1120; 1160; 2000]%Z)) = [].
Proof. reflexivity. Qed.

(** *** Construction *)

Lemma completion_normal {A : Type} (c : Completion A) :
  throws c = false -> c = Normal (after c).
Proof. destruct c; simpl; congruence. Qed.

Lemma loop_accepted_empty (now : num) (w : World) (c : Ctx) :
  running (state (fb w)) = true -> rejects (state (fb w)) now = false ->
  ctx (fb w) = Some c -> blobs (fb w) = [] -> background (state (fb w)) = None ->
  throws (loop now w) = false /\
  pixels (canvas (fb (after (loop now w)))) = [].
Proof.
  intros R J C B G. unfold loop. rewrite R. simpl. rewrite J.
  set (e2 := with_state _ _).
  set (h := mkHost _ _ _ _ _ _).
  destruct (ensureSize_frame h e2) as (S2 & _ & _ & B2 & C2 & _).
  assert (G2 : background (state (ensureSize h e2)) = None).
  { unfold settings in S2. injection S2 as _ _ _ _ _ E. rewrite E.
    subst e2. simpl. exact G. }
  rewrite (render_no_blobs now (ensureSize h e2) c).
  - split; reflexivity.
  - rewrite C2. subst e2. exact C.
  - rewrite B2. subst e2. exact B.
  - exact G2.
Qed.

(** The engine that [new FluidBackground(canvas, {})] builds. *)
Lemma construct_no_options (h : Host) (cv : Canvas) (t0 t1 : num) :
  context2d h = true ->
  exists w,
    construct h cv t0 t1 no_options = Some (Normal w) /\
    settings (state (fb w)) =
      (Fin (1 # 2), ofZ 36, ofZ 1, ofZ 0, "source-over"%string, None) /\
    running (state (fb w)) = true /\
    lastFrameMs (state (fb w)) = t1 /\
    rafId (fb w) = Zpos (rafNext h) /\
    rafPending (host w) = (rafPending h ++ [rafNext h])%list /\
    blobs (fb w) = [] /\
    pixels (canvas (fb w)) = [] /\
    ctx (fb w) = Some (Context2D true false).
Proof.
  intro H.
  set (e0 := ensureSize h (mkEngine cv (Some (Context2D true false)) 0 []
                             (initial_state h t0 no_options))).
  assert (E0 : construct h cv t0 t1 no_options = Some (start t1 (mkWorld h e0))).
  { unfold construct. now rewrite H. }
  destruct (ensureSize_frame h (mkEngine cv (Some (Context2D true false)) 0 []
                                  (initial_state h t0 no_options)))
    as (S0 & R0 & _ & B0 & C0 & _).
  fold e0 in S0, R0, B0, C0.
  change (settings (state e0) =
          (Fin (1 # 2), ofZ 36, ofZ 1, ofZ 0, "source-over"%string, None)) in S0.
  change (running (state e0) = false) in R0.
  change (blobs e0 = []) in B0.
  change (ctx e0 = Some (Context2D true false)) in C0.
  rewrite E0. unfold start. change (fb (mkWorld h e0)) with e0. rewrite R0.
  change (host (mkWorld h e0)) with h.
  set (w1 := mkWorld h _).
  assert (S1 : settings (state (fb w1)) =
               (Fin (1 # 2), ofZ 36, ofZ 1, ofZ 0, "source-over"%string, None))
    by exact S0.
  assert (R1 : running (state (fb w1)) = true) by reflexivity.
  pose proof S1 as S1'. unfold settings in S1'.
  injection S1' as _ _ _ F0 _ G0.
  assert (F1 : fpsCap (state (fb w1)) = ofZ 0) by exact F0.
  assert (G1 : background (state (fb w1)) = None) by exact G0.
  assert (J1 : rejects (state (fb w1)) t1 = false).
  { unfold rejects, needCap. now rewrite F1. }
  destruct (loop_accepted_empty t1 w1 (Context2D true false) R1 J1 C0 B0 G1)
    as [T P].
  destruct (loop_accepted t1 w1 R1 J1) as (L & S & R' & B & C & I & Hh).
  exists (after (loop t1 w1)).
  split; [now rewrite (completion_normal _ T) at 1|].
  rewrite S, S1, R', L, I, Hh, B, C.
  repeat split; auto.
Qed.

(** C7 (as amended).  On a host that yields a 2D context, construction with
    the empty options object gives alpha 0.5, blurPx 36, parallaxVmax 1,
    fpsCap 0, the composite operation ["source-over"] (the canvas name of the
    normal blend), no background, and a started loop: the engine is running,
    its first frame is accepted at once and the next callback is pending. *)
Theorem construct_defaults (h : Host) (cv : Canvas) (t0 t1 : num) :
  context2d h = true ->
  exists w,
    construct h cv t0 t1 no_options = Some (Normal w) /\
    alpha (state (fb w)) = Fin (1 # 2) /\
    blurPx (state (fb w)) = ofZ 36 /\
    parallaxVmax (state (fb w)) = ofZ 1 /\
    fpsCap (state (fb w)) = ofZ 0 /\
    composite (state (fb w)) = "source-over"%string /\
    background (state (fb w)) = None /\
    running (state (fb w)) = true /\
    lastFrameMs (state (fb w)) = t1 /\
    rafId (fb w) = Zpos (rafNext h) /\
    In (rafNext h) (rafPending (host w)).
Proof.
  intro H.
  destruct (construct_no_options h cv t0 t1 H)
    as (w & E & S & R & L & I & P & _).
  exists w. unfold settings in S. injection S as -> -> -> -> -> ->.
  repeat split; auto.
  rewrite P. apply in_or_app. right. now left.
Qed.

Lemma construct_defaults_witness :
  context2d sample_host = true /\
  exists w,
    construct sample_host blank_canvas (ofZ 5) (ofZ 6) no_options
      = Some (Normal w) /\
    composite (state (fb w)) = "source-over"%string /\
    running (state (fb w)) = true.
Proof.
  split; [reflexivity|].
  destruct (construct_defaults sample_host blank_canvas (ofZ 5) (ofZ 6) eq_refl)
    as (w & E & _ & _ & _ & _ & C & _ & R & _).
  exists w. auto.
Defined.

(** C7 (as stated) fails on the composite operation: the engine built with
    the empty options has ["source-over"], not ["normal"]. *)
Lemma construct_composite_not_normal :
  construct sample_host blank_canvas (ofZ 5) (ofZ 6) no_options
    = Some (Normal default_world) /\
  composite (state (fb default_world)) = "source-over"%string /\
  composite (state (fb default_world)) <> "normal"%string.
Proof.
  repeat split; try reflexivity. vm_compute. discriminate.
Qed.

(** *** Unknown identifiers *)

Lemma with_blobs_same (e : FluidBackground) : with_blobs (blobs e) e = e.
Proof. now destruct e. Qed.

(** C5.  [updateBlob(id, partial)] on an [id] that the registry does not
    have: when [partial.id] is an identifier (present and truthy, which is
    the test the code makes: the empty string counts as none) the call is
    [addBlob(partial)], which stores the record under its own id; in every
    other case the engine, and with it the registry and its size, is
    unchanged.  The call is a total function: nothing is raised. *)
Theorem updateBlob_unknown_id (i : string) (cfg : PartialBlob) (e : FluidBackground) :
  map_get i (blobs e) = None ->
  (forall ci, truthy_id (p_id cfg) = Some ci ->
     updateBlob i cfg e = addBlob (mkConfig ci (p_fields cfg)) e /\
     map_get ci (blobs (updateBlob i cfg e)) =
       Some (mkBlob ci (p_fields cfg) (ofZ 0))) /\
  (truthy_id (p_id cfg) = None ->
     updateBlob i cfg e = e /\
     blobs (updateBlob i cfg e) = blobs e /\
     map_size (blobs (updateBlob i cfg e)) = map_size (blobs e)).
Proof.
  intro G. unfold updateBlob, addBlob.
  rewrite (registry_updateBlob_unknown i cfg (blobs e) G). split.
  - intros ci E. rewrite E. split; [reflexivity|].
    simpl. unfold Registry.addBlob, materialize. simpl. apply map_get_set_same.
  - intro E. rewrite E, with_blobs_same. repeat split; reflexivity.
Qed.

Lemma updateBlob_unknown_id_witness :
  map_get "ghost" (blobs (fb default_world)) = None /\
  map_size (blobs (updateBlob "ghost" (mkPartial (Some "b2"%string) sample_fields)
                     (fb default_world))) = 1%nat /\
  updateBlob "ghost" (mkPartial None sample_fields) (fb default_world)
    = fb default_world /\
  updateBlob "ghost" (mkPartial (Some ""%string) sample_fields) (fb default_world)
    = fb default_world.
Proof.
  split; [reflexivity|]. split; [|split].
  - rewrite (proj1 (proj1 (updateBlob_unknown_id "ghost"
                             (mkPartial (Some "b2"%string) sample_fields)
                             (fb default_world) eq_refl) "b2"%string eq_refl)).
    reflexivity.
  - exact (proj1 (proj2 (updateBlob_unknown_id "ghost"
                           (mkPartial None sample_fields)
                           (fb default_world) eq_refl) eq_refl)).
  - exact (proj1 (proj2 (updateBlob_unknown_id "ghost"
                           (mkPartial (Some ""%string) sample_fields)
                           (fb default_world) eq_refl) eq_refl)).
Defined.

(** The other registry test of the specification: [add] then [remove]. *)
Example add_then_remove (cfg : BlobConfig) :
  Registry.removeBlob (id cfg) (Registry.addBlob cfg []) = [].
Proof.
  unfold Registry.removeBlob, Registry.addBlob. simpl.
  now rewrite String.eqb_refl.
Qed.

(** *** Destruction *)










(** *** Setter ranges *)

Lemma clamp_within (a : num) : a <> NaN -> within 0 1 (clamp a (ofZ 0) (ofZ 1)).
Proof.
  intro H. destruct a as [| | |q]; [congruence| | |].
  - vm_compute. split; discriminate.
  - vm_compute. split; discriminate.
  - unfold clamp, JsNum.max, ofZ. cbn [lt].
    destruct (Qltb (inject_Z 0) q) eqn:A.
    + unfold JsNum.min. cbn [lt]. destruct (Qltb q (inject_Z 1)) eqn:B.
      * apply Qltb_true in A, B. split; apply Qlt_le_weak; assumption.
      * apply Qltb_true in A. vm_compute. split; discriminate.
    + vm_compute. split; discriminate.
Qed.

Lemma max0_nonneg_int (z : Z) : nonneg_int (JsNum.max (ofZ 0) (ofZ z)).
Proof.
  unfold JsNum.max, ofZ. cbn [lt].
  destruct (Qltb (inject_Z 0) (inject_Z z)) eqn:A.
  - apply Qltb_true in A. rewrite <- Zlt_Qlt in A.
    exists z. split; [lia | reflexivity].
  - exists 0%Z. split; [lia | reflexivity].
Qed.

Lemma in_range_settings (s s' : State) :
  settings s = settings s' -> in_range s' -> in_range s.
Proof.
  unfold settings, in_range. intro E. injection E as -> -> _ -> _ _. auto.
Qed.

Lemma start_frame (now : num) (w : World) :
  settings (state (fb (after (start now w)))) = settings (state (fb w)).
Proof.
  unfold start. destruct (running (state (fb w))); [reflexivity|].
  set (w1 := mkWorld _ _). now destruct (loop_frame now w1) as (S & _).
Qed.

Lemma stop_frame (w : World) :
  settings (state (fb (stop w))) = settings (state (fb w)).
Proof. unfold stop. now destruct (Z.eqb _ 0). Qed.

Lemma destroy_frame (w : World) :
  settings (state (fb (destroy w))) = settings (state (fb w)).
Proof.
  unfold destroy. rewrite <- (stop_frame w). now destruct (ctx (fb (stop w))).
Qed.

Lemma call_in_range (c : Call) (w : World) :
  not_alpha_NaN c -> in_range (state (fb w)) -> in_range (state (fb (call c w))).
Proof.
  intros T (A & B & F).
  assert (K : in_range (state (fb w))) by (repeat split; assumption).
  destruct c; try exact (conj A (conj B F)).
  - assert (N : a <> NaN) by (now destruct a).
    exact (conj (clamp_within a N) (conj B F)).
  - exact (conj A (conj (max0_nonneg_int (toInt32 px)) F)).
  - exact (conj A (conj B (max0_nonneg_int (toInt32 fps)))).
  - exact (in_range_settings _ _ (start_frame now w) K).
  - exact (in_range_settings _ _ (stop_frame w) K).
  - exact (in_range_settings _ _ (destroy_frame w) K).
  - exact (in_range_settings _ _ (proj1 (frame_frame now w)) K).
Qed.

Lemma default_in_range (h : Host) (cv : Canvas) (t0 t1 : num) (w0 : World) :
  construct h cv t0 t1 no_options = Some (Normal w0) ->
  in_range (state (fb w0)).
Proof.
  intro H. destruct (context2d h) eqn:C.
  - destruct (construct_no_options h cv t0 t1 C) as (w1 & E & S & _).
    rewrite E in H. injection H as <-.
    unfold settings in S. injection S as A B _ F _ _.
    unfold in_range. rewrite A, B, F. repeat split; try discriminate.
    + exists 36%Z. split; [lia | reflexivity].
    + exists 0%Z. split; [lia | reflexivity].
  - unfold construct in H. rewrite C in H. discriminate.
Qed.

Lemma calls_in_range (cs : list Call) :
  Forall not_alpha_NaN cs ->
  forall w, in_range (state (fb w)) -> in_range (state (fb (calls cs w))).
Proof.
  unfold calls. induction 1 as [|c cs' T _ IH]; intros w H; simpl; [exact H|].
  apply IH. now apply call_in_range.
Qed.

(** X28.  What the setters do establish: [setAlpha] stores
    [clamp(a, 0, 1)], which lies in [[0, 1]] for every input but NaN;
    [setBlurPx] and [setFpsCap] store [max(0, x|0)], a nonnegative integer for
    every input, NaN and the infinities included.  The engine built with the
    empty options is in these ranges, and every sequence of calls without a
    [setAlpha(NaN)] keeps an engine in them.  The setters are total
    functions: none can raise. *)
Theorem setters_coerce (w : World) (cs : list Call) :
  (forall a e, alpha (state (setAlpha a e)) = clamp a (ofZ 0) (ofZ 1) /\
               (a <> NaN -> within 0 1 (alpha (state (setAlpha a e))))) /\
  (forall px e, blurPx (state (setBlurPx px e)) = JsNum.max (ofZ 0) (bitor0 px) /\
                nonneg_int (blurPx (state (setBlurPx px e)))) /\
  (forall fps e, fpsCap (state (setFpsCap fps e)) = JsNum.max (ofZ 0) (bitor0 fps) /\
                 nonneg_int (fpsCap (state (setFpsCap fps e)))) /\
  (forall h cv t0 t1 w0,
     construct h cv t0 t1 no_options = Some (Normal w0) ->
     in_range (state (fb w0))) /\
  (in_range (state (fb w)) -> Forall not_alpha_NaN cs ->
   in_range (state (fb (calls cs w)))).
Proof.
  split; [|split; [|split; [|split]]].
  - intros a e. split; [reflexivity|]. intro N. exact (clamp_within a N).
  - intros px e. split; [reflexivity|]. exact (max0_nonneg_int (toInt32 px)).
  - intros fps e. split; [reflexivity|]. exact (max0_nonneg_int (toInt32 fps)).
  - exact default_in_range.
  - intros H T. now apply calls_in_range.
Qed.

Lemma setters_coerce_witness :
  in_range (state (fb default_world)) /\
  Forall not_alpha_NaN
    [CallSetAlpha (ofZ 7); CallSetBlurPx (Fin (-7 # 2)); CallSetFpsCap PInf;
     CallSetAlpha NInf; CallSetBlurPx NaN; CallFrame (ofZ 40)] /\
  in_range (state (fb (calls
    [CallSetAlpha (ofZ 7); CallSetBlurPx (Fin (-7 # 2)); CallSetFpsCap PInf;
     CallSetAlpha NInf; CallSetBlurPx NaN; CallFrame (ofZ 40)] default_world))) /\
  within 0 1 (alpha (state (setAlpha (ofZ 7) (fb default_world)))).
Proof.
  assert (D : in_range (state (fb default_world))).
  { apply (proj1 (proj2 (proj2 (proj2 (setters_coerce default_world []))))
             sample_host blank_canvas (ofZ 5) (ofZ 6)).
    reflexivity. }
  assert (T : Forall not_alpha_NaN
    [CallSetAlpha (ofZ 7); CallSetBlurPx (Fin (-7 # 2)); CallSetFpsCap PInf;
     CallSetAlpha NInf; CallSetBlurPx NaN; CallFrame (ofZ 40)])
    by (repeat constructor).
  split; [exact D|]. split; [exact T|]. split.
  - exact (proj2 (proj2 (proj2 (proj2 (setters_coerce default_world _)))) D T).
  - apply (proj1 (setters_coerce default_world []) (ofZ 7) (fb default_world)).
    discriminate.
Defined.

(** C10.  The claim fails at [setAlpha(NaN)], by a slip in [clamp]:
    [Math.min(1, Math.max(0, NaN))] is NaN, so the setter that is there to
    bound alpha stores NaN, which is not in [[0, 1]], on an engine that was in
    range, and no frame or other setter repairs it afterwards.  The two
    sibling setters do coerce NaN: [x|0] maps it to 0. *)
Lemma setAlpha_NaN_out_of_range :
  in_range (state (fb default_world)) /\
  clamp NaN (ofZ 0) (ofZ 1) = NaN /\
  alpha (state (setAlpha NaN (fb default_world))) = NaN /\
  ~ within 0 1 (alpha (state (setAlpha NaN (fb default_world)))) /\
  ~ in_range (state (fb (calls [CallSetAlpha NaN] default_world))) /\
  alpha (state (fb (calls [CallSetAlpha NaN; CallFrame (ofZ 40);
                           CallSetBlurPx (ofZ 3)] default_world))) = NaN /\
  blurPx (state (setBlurPx NaN (fb default_world))) = ofZ 0 /\
  fpsCap (state (setFpsCap NaN (fb default_world))) = ofZ 0.
Proof.
  split; [|split; [reflexivity|split; [reflexivity|split; [|split]]]].
  - apply (default_in_range sample_host blank_canvas (ofZ 5) (ofZ 6)).
    reflexivity.
  - intro H. exact H.
  - intros [H _]. exact H.
  - repeat split.
Qed.

(** The constructor stores its options as they come: it does not coerce. *)
Example construct_does_not_coerce :
  alpha (state (fb (world_of
    (construct sample_host blank_canvas (ofZ 5) (ofZ 6)
       (mkOptions (Some (ofZ 5)) (Some (Fin (-7 # 2))) None None None None
                  None None))))) = ofZ 5.
Proof. reflexivity. Qed.

(** The coercions at work. *)
Example setBlurPx_truncates :
  blurPx (state (setBlurPx (Fin (75 # 10)) (fb default_world))) = ofZ 7 /\
  blurPx (state (setBlurPx (Fin (-75 # 10)) (fb default_world))) = ofZ 0 /\
  blurPx (state (setBlurPx (ofZ 3000000000) (fb default_world))) = ofZ 0 /\
  fpsCap (state (setFpsCap NaN (fb default_world))) = ofZ 0 /\
  alpha (state (setAlpha PInf (fb default_world))) = ofZ 1.
Proof. repeat split. Qed.

End EngineFacts.

(* ================================================================== *)
(** ** Further properties: the registry *)
(* ================================================================== *)

Section RegistryOperations.
Import JsNum Units Registry Views.

Lemma map_get_None_keys (k : string) (m : Map) :
  map_get k m = None <-> ~ In k (keys m).
Proof.
  induction m as [|[k' v'] r IH]; simpl; [tauto|].
  destruct (String.eqb_spec k k'); split; intro H.
  - discriminate.
  - exfalso. apply H. now left.
  - intros [E|I]; [congruence|]. now apply IH.
  - apply IH. intro I. apply H. now right.
Qed.

Lemma map_get_Some_keys (k : string) (v : InternalBlob) (m : Map) :
  map_get k m = Some v -> In k (keys m).
Proof.
  intro H. destruct (in_dec string_dec k (keys m)) as [I|N]; [exact I|].
  apply map_get_None_keys in N. congruence.
Qed.

Lemma keys_map_set (k : string) (v : InternalBlob) (m : Map) :
  keys (map_set k v m) =
  match map_get k m with
  | Some _ => keys m
  | None => (keys m ++ [k])%list
  end.
Proof.
  induction m as [|[k' v'] r IH]; simpl; [reflexivity|].
  destruct (String.eqb_spec k k'); simpl.
  - now subst.
  - rewrite IH. now destruct (map_get k r).
Qed.

Lemma map_set_same_value (k : string) (v : InternalBlob) (m : Map) :
  map_get k m = Some v -> map_set k v m = m.
Proof.
  induction m as [|[k' v'] r IH]; simpl; [discriminate|].
  destruct (String.eqb_spec k k').
  - intro E. injection E as <-. now subst.
  - intro E. now rewrite IH.
Qed.

Lemma map_set_twice (k : string) (v v' : InternalBlob) (m : Map) :
  map_set k v (map_set k v' m) = map_set k v m.
Proof.
  induction m as [|[k0 v0] r IH]; simpl.
  - now rewrite String.eqb_refl.
  - destruct (String.eqb k k0) eqn:E; simpl.
    + now rewrite String.eqb_refl.
    + now rewrite E, IH.
Qed.

Lemma map_get_delete_other (k k' : string) (m : Map) :
  k' <> k -> map_get k' (map_delete k m) = map_get k' m.
Proof.
  intro N. induction m as [|[k0 v0] r IH]; simpl; [reflexivity|].
  destruct (String.eqb_spec k k0); simpl.
  - subst k0. destruct (String.eqb_spec k' k); congruence.
  - now rewrite IH.
Qed.

Lemma map_delete_absent (k : string) (m : Map) :
  map_get k m = None -> map_delete k m = m.
Proof.
  induction m as [|[k0 v0] r IH]; simpl; [reflexivity|].
  destruct (String.eqb k k0); [discriminate|].
  intro H. now rewrite IH.
Qed.

Lemma keys_map_delete_subset (k k' : string) (m : Map) :
  In k' (keys (map_delete k m)) -> In k' (keys m).
Proof.
  induction m as [|[k0 v0] r IH]; simpl; [tauto|].
  destruct (String.eqb k k0); simpl; [now right|].
  intros [E|I]; [now left | right; now apply IH].
Qed.

Lemma map_delete_unique (k : string) (m : Map) :
  NoDup (keys m) -> NoDup (keys (map_delete k m)) /\ map_get k (map_delete k m) = None.
Proof.
  induction m as [|[k0 v0] r IH]; simpl; intro D.
  - split; [constructor | reflexivity].
  - inversion D as [|? ? N D']; subst.
    destruct (String.eqb_spec k k0); simpl.
    + subst k0. split; [exact D'|]. now apply map_get_None_keys.
    + destruct (IH D') as [U G]. split.
      * constructor; [|exact U]. intro I. apply N.
        now apply (keys_map_delete_subset k).
      * destruct (String.eqb_spec k k0); [congruence | exact G].
Qed.

Lemma map_set_unique (k : string) (v : InternalBlob) (m : Map) :
  NoDup (keys m) -> NoDup (keys (map_set k v m)).
Proof.
  intro D. rewrite keys_map_set. destruct (map_get k m) eqn:G; [exact D|].
  apply map_get_None_keys in G.
  apply NoDup_rev in D. rewrite <- (rev_involutive (keys m ++ [k])).
  apply NoDup_rev. rewrite rev_app_distr. simpl. constructor; [|exact D].
  now rewrite <- in_rev.
Qed.

Lemma map_delete_set_absent (k : string) (v : InternalBlob) (m : Map) :
  map_get k m = None -> map_delete k (map_set k v m) = m.
Proof.
  induction m as [|[k0 v0] r IH]; simpl.
  - now rewrite String.eqb_refl.
  - destruct (String.eqb k k0) eqn:E; [discriminate|].
    intro G. simpl. now rewrite E, IH.
Qed.

Lemma apply_op_unique (o : BlobOp) (m : Map) :
  NoDup (keys m) -> NoDup (keys (apply_op o m)).
Proof.
  intro D. destruct o as [cfg|i cfg|i]; simpl.
  - now apply map_set_unique.
  - unfold Registry.updateBlob. destruct (map_get i m).
    + now apply map_set_unique.
    + destruct (truthy_id (p_id cfg)); [now apply map_set_unique | exact D].
  - now apply map_delete_unique.
Qed.

Lemma map_set_materialized (k : string) (v : InternalBlob) (m : Map) :
  _diameterPx v = ofZ 0 -> materialized m -> materialized (map_set k v m).
Proof.
  unfold materialized. intros Hv. induction 1 as [|[k' v'] r Hkv Hr IH]; simpl.
  - now repeat constructor.
  - destruct (String.eqb k k'); constructor; auto.
Qed.

Lemma map_delete_materialized (k : string) (m : Map) :
  materialized m -> materialized (map_delete k m).
Proof.
  unfold materialized. induction 1 as [|[k' v'] r Hkv Hr IH]; simpl.
  - constructor.
  - destruct (String.eqb k k'); auto.
Qed.

Lemma apply_op_materialized (o : BlobOp) (m : Map) :
  materialized m -> materialized (apply_op o m).
Proof.
  intro D. destruct o as [cfg|i cfg|i]; simpl.
  - now apply map_set_materialized.
  - unfold Registry.updateBlob. destruct (map_get i m).
    + now apply map_set_materialized.
    + destruct (truthy_id (p_id cfg)); [now apply map_set_materialized | exact D].
  - now apply map_delete_materialized.
Qed.

Lemma map_get_materialized (k : string) (v : InternalBlob) (m : Map) :
  materialized m -> map_get k m = Some v -> _diameterPx v = ofZ 0.
Proof.
  unfold materialized. induction 1 as [|[k' v'] r Hkv _ IH]; simpl; [discriminate|].
  destruct (String.eqb k k'); [|exact IH].
  intro E. now injection E as <-.
Qed.

Lemma spread_no_fields (f : Fields) : spread f no_fields = f.
Proof. now destruct f. Qed.

Lemma spread_twice (f g : Fields) : spread (spread f g) g = spread f g.
Proof.
  destruct f, g. unfold spread. simpl.
  repeat match goal with
         | |- context [or_prev ?x _] => is_var x; destruct x
         end; reflexivity.
Qed.

Lemma spread_same (f : Fields) : spread f f = f.
Proof.
  destruct f. unfold spread. simpl.
  repeat match goal with
         | |- context [or_prev ?x _] => is_var x; destruct x
         end; reflexivity.
Qed.

Lemma spread_complete (f g : Fields) : complete g -> spread f g = g.
Proof.
  destruct g as [d c l o p dr b]. unfold complete. simpl.
  intros (H1 & H2 & H3 & H4 & H5 & H6 & H7).
  destruct d, c, l, o, p, dr, b; try congruence. reflexivity.
Qed.

Lemma apply_ops_unique (os : list BlobOp) (m : Map) :
  NoDup (keys m) -> NoDup (keys (apply_ops os m)).
Proof.
  unfold apply_ops. revert m. induction os as [|o os IH]; simpl; auto.
  intros m H. apply IH. now apply apply_op_unique.
Qed.

Lemma apply_ops_materialized (os : list BlobOp) (m : Map) :
  materialized m -> materialized (apply_ops os m).
Proof.
  unfold apply_ops. revert m. induction os as [|o os IH]; simpl; auto.
  intros m H. apply IH. now apply apply_op_materialized.
Qed.

(** X1.  Identifiers are unique in the registry: after any sequence of
    [addBlob], [updateBlob] and [removeBlob], from the empty registry or from
    one without repeated keys, no key occurs twice, and every stored blob has
    the [_diameterPx: 0] that [materialize] gives it. *)
Theorem registry_ids_unique (os : list BlobOp) :
  NoDup (keys (apply_ops os [])) /\ materialized (apply_ops os []) /\
  (forall m, NoDup (keys m) -> NoDup (keys (apply_ops os m))) /\
  (forall m, materialized m -> materialized (apply_ops os m)).
Proof.
  repeat split.
  - apply apply_ops_unique. constructor.
  - apply apply_ops_materialized. constructor.
  - apply apply_ops_unique.
  - apply apply_ops_materialized.
Qed.

Lemma registry_ids_unique_witness :
  NoDup (keys two_blobs) /\
  NoDup (keys (apply_ops [OpAdd blob_b1; OpRemove "b2"; OpAdd blob_b1] two_blobs)) /\
  materialized two_blobs /\
  materialized (apply_ops [OpUpdate "b1" (mkPartial None no_fields)] two_blobs).
Proof.
  assert (D : NoDup (keys two_blobs)).
  { repeat constructor; simpl; intuition discriminate. }
  assert (M : materialized two_blobs) by (repeat constructor).
  split; [exact D|]. split; [|split; [exact M|]].
  - exact (proj1 (proj2 (proj2 (registry_ids_unique
                                  [OpAdd blob_b1; OpRemove "b2"; OpAdd blob_b1])))
             two_blobs D).
  - exact (proj2 (proj2 (proj2 (registry_ids_unique
                                  [OpUpdate "b1" (mkPartial None no_fields)])))
             two_blobs M).
Defined.

(** X2.  [addBlob] then lookup: the blob is found under its id as
    [materialize] built it, the other ids are found as before, and the
    iteration (paint) order is kept: a new id goes last, an id that is present
    keeps its place. *)
Theorem addBlob_lookup_and_order (cfg : BlobConfig) (m : Map) :
  map_get (id cfg) (Registry.addBlob cfg m) = Some (materialize cfg) /\
  (forall k, k <> id cfg -> map_get k (Registry.addBlob cfg m) = map_get k m) /\
  (map_get (id cfg) m = None ->
   keys (Registry.addBlob cfg m) = (keys m ++ [id cfg])%list /\
   map_size (Registry.addBlob cfg m) = S (map_size m)) /\
  (map_get (id cfg) m <> None ->
   keys (Registry.addBlob cfg m) = keys m /\
   map_size (Registry.addBlob cfg m) = map_size m).
Proof.
  unfold Registry.addBlob. simpl. repeat split.
  - apply map_get_set_same.
  - intros k N. now apply map_get_set_other.
  - rewrite keys_map_set. now rewrite H.
  - rewrite map_set_size. now rewrite H.
  - rewrite keys_map_set. now destruct (map_get (id cfg) m).
  - rewrite map_set_size. now destruct (map_get (id cfg) m).
Qed.

Lemma addBlob_lookup_and_order_witness :
  map_get "b2" (Registry.addBlob blob_b1 []) = None /\
  keys (Registry.addBlob (mkConfig "b2" no_fields) (Registry.addBlob blob_b1 []))
  = ["b1"; "b2"]%string /\
  map_get "b1" (Registry.addBlob blob_b1 []) <> None /\
  keys (Registry.addBlob (mkConfig "b1" no_fields)
          (Registry.addBlob (mkConfig "b2" no_fields) (Registry.addBlob blob_b1 [])))
  = ["b1"; "b2"]%string.
Proof.
  split; [reflexivity|]. split; [|split; [discriminate|]].
  - rewrite (proj1 (proj1 (proj2 (proj2 (addBlob_lookup_and_order
               (mkConfig "b2" no_fields) (Registry.addBlob blob_b1 [])))) eq_refl)).
    reflexivity.
  - rewrite (proj1 (proj2 (proj2 (proj2 (addBlob_lookup_and_order
               (mkConfig "b1" no_fields)
               (Registry.addBlob (mkConfig "b2" no_fields)
                  (Registry.addBlob blob_b1 []))))) ltac:(discriminate))).
    reflexivity.
Defined.

(** X3.  [removeBlob]: in a registry without repeated keys the id is gone
    afterwards and the other ids are found as before; removing an id that is
    not there changes nothing; and removing a blob just added under a new id
    gives the registry back. *)
Theorem removeBlob_lookup (i : string) (m : Map) :
  (NoDup (keys m) -> map_get i (Registry.removeBlob i m) = None) /\
  (forall k, k <> i -> map_get k (Registry.removeBlob i m) = map_get k m) /\
  (map_get i m = None -> Registry.removeBlob i m = m) /\
  (forall cfg, id cfg = i -> map_get i m = None ->
     Registry.removeBlob i (Registry.addBlob cfg m) = m).
Proof.
  unfold Registry.removeBlob. repeat split.
  - intro D. now apply map_delete_unique.
  - intros k N. now apply map_get_delete_other.
  - apply map_delete_absent.
  - intros cfg <- G. unfold Registry.addBlob. simpl.
    now apply map_delete_set_absent.
Qed.

Lemma removeBlob_lookup_witness :
  NoDup (keys (Registry.addBlob blob_b1 [])) /\
  map_get "b1" (Registry.removeBlob "b1" (Registry.addBlob blob_b1 [])) = None /\
  Registry.removeBlob "b9" (Registry.addBlob blob_b1 []) = Registry.addBlob blob_b1 [] /\
  Registry.removeBlob "b2"
    (Registry.addBlob (mkConfig "b2" no_fields) (Registry.addBlob blob_b1 []))
  = Registry.addBlob blob_b1 [].
Proof.
  assert (D : NoDup (keys (Registry.addBlob blob_b1 []))).
  { repeat constructor. simpl. tauto. }
  split; [exact D|]. split; [|split].
  - exact (proj1 (removeBlob_lookup "b1" (Registry.addBlob blob_b1 [])) D).
  - exact (proj1 (proj2 (proj2 (removeBlob_lookup "b9" (Registry.addBlob blob_b1 []))))
             eq_refl).
  - exact (proj2 (proj2 (proj2 (removeBlob_lookup "b2" (Registry.addBlob blob_b1 []))))
             (mkConfig "b2" no_fields) eq_refl eq_refl).
Defined.

(** X4.  [updateBlob] on a present id is a merge in place: the stored
    properties are those of the partial record where it has them and the
    previous ones elsewhere, the id is the previous one, the keys and their
    order, the size and the other blobs are as before.  A partial record
    with every property replaces them all; one with none keeps them all. *)
Theorem updateBlob_merges (i : string) (cfg : PartialBlob) (m : Map)
        (prev : InternalBlob) :
  map_get i m = Some prev ->
  map_get i (Registry.updateBlob i cfg m) =
    Some (mkBlob (b_id prev) (spread (b_fields prev) (p_fields cfg)) (ofZ 0)) /\
  (complete (p_fields cfg) -> spread (b_fields prev) (p_fields cfg) = p_fields cfg) /\
  (p_fields cfg = no_fields -> spread (b_fields prev) (p_fields cfg) = b_fields prev) /\
  keys (Registry.updateBlob i cfg m) = keys m /\
  map_size (Registry.updateBlob i cfg m) = map_size m /\
  (forall k, k <> i -> map_get k (Registry.updateBlob i cfg m) = map_get k m).
Proof.
  intro G. unfold Registry.updateBlob. rewrite G. unfold materialize. simpl.
  repeat split.
  - apply map_get_set_same.
  - apply spread_complete.
  - intros ->. apply spread_no_fields.
  - rewrite keys_map_set. now rewrite G.
  - rewrite map_set_size. now rewrite G.
  - intros k N. now apply map_get_set_other.
Qed.

Lemma updateBlob_merges_witness :
  map_get "b1" (Registry.addBlob blob_b1 []) = Some (materialize blob_b1) /\
  map_get "b1"
    (Registry.updateBlob "b1"
       (mkPartial None (mkFields (Some "10px"%string) None None None None None None))
       (Registry.addBlob blob_b1 []))
  = Some (mkBlob "b1"
            (mkFields (Some "10px"%string) (Some (Symbolic "50%" "50%"))
               (Some [red_layer]) (Some (ofZ 1)) (Some (ofZ 1))
               (Some (mkDrift (ofZ 0) (ofZ 0) (ofZ 0) (ofZ 0) (ofZ 0))) (Some None))
            (ofZ 0)).
Proof.
  split; [reflexivity|].
  rewrite (proj1 (updateBlob_merges "b1"
             (mkPartial None (mkFields (Some "10px"%string) None None None None None None))
             (Registry.addBlob blob_b1 []) (materialize blob_b1) eq_refl)).
  reflexivity.
Defined.

(** X5.  [updateBlob] is idempotent: the same call a second time changes
    nothing, whether the id was present, absent with an id in the partial
    record, or absent without one. *)
Theorem updateBlob_idempotent (i : string) (cfg : PartialBlob) (m : Map) :
  Registry.updateBlob i cfg (Registry.updateBlob i cfg m) = Registry.updateBlob i cfg m.
Proof.
  unfold Registry.updateBlob at 2 3.
  destruct (map_get i m) as [prev|] eqn:G.
  - unfold Registry.updateBlob. rewrite map_get_set_same. unfold materialize. simpl.
    now rewrite spread_twice, map_set_twice.
  - destruct (truthy_id (p_id cfg)) as [ci|] eqn:T.
    + unfold Registry.addBlob, materialize. simpl.
      unfold Registry.updateBlob.
      destruct (String.eqb_spec i ci) as [->|N].
      * rewrite map_get_set_same. unfold materialize. simpl.
        now rewrite spread_same, map_set_twice.
      * rewrite map_get_set_other, G, T by exact N.
        unfold Registry.addBlob, materialize. simpl. apply map_set_twice.
    + unfold Registry.updateBlob. now rewrite G, T.
Qed.

(** X6.  On a registry built by the three operations, [updateBlob] with a
    partial record that has no property but perhaps an id changes nothing,
    for a present id as for an absent one with no id given. *)
Theorem updateBlob_nothing_to_merge (os : list BlobOp) (i : string)
        (pid : option string) :
  (map_get i (apply_ops os []) <> None \/ truthy_id pid = None) ->
  Registry.updateBlob i (mkPartial pid no_fields) (apply_ops os [])
  = apply_ops os [].
Proof.
  intro H. unfold Registry.updateBlob.
  destruct (map_get i (apply_ops os [])) as [prev|] eqn:G.
  - unfold materialize. simpl. rewrite spread_no_fields.
    apply map_set_same_value. rewrite G. f_equal.
    assert (Z0 : _diameterPx prev = ofZ 0).
    { apply (map_get_materialized i prev (apply_ops os [])); [|exact G].
      apply apply_ops_materialized. constructor. }
    destruct prev as [bi bf bd]. simpl in *. now rewrite Z0.
  - destruct H as [H|H]; [congruence|]. simpl. now rewrite H.
Qed.

Lemma updateBlob_nothing_to_merge_witness :
  map_get "b1" (apply_ops [OpAdd blob_b1] []) <> None /\
  Registry.updateBlob "b1" (mkPartial (Some "zz"%string) no_fields)
    (apply_ops [OpAdd blob_b1] [])
  = apply_ops [OpAdd blob_b1] [].
Proof.
  assert (P : map_get "b1" (apply_ops [OpAdd blob_b1] []) <> None) by discriminate.
  split; [exact P|].
  exact (updateBlob_nothing_to_merge [OpAdd blob_b1] "b1" (Some "zz"%string)
           (or_introl P)).
Defined.

End RegistryOperations.

(* ================================================================== *)
(** ** Further properties: the unit resolver *)
(* ================================================================== *)

Section UnitStrings.
Import JsNum Units Views.

Lemma chars_app (a b : string) :
  list_ascii_of_string (a ++ b) = (list_ascii_of_string a ++ list_ascii_of_string b)%list.
Proof. induction a as [|c a IH]; simpl; [reflexivity | now rewrite IH]. Qed.

Lemma trimStart_blank_app (pre l : chars) :
  forallb is_ws pre = true -> trimStart (pre ++ l) = trimStart l.
Proof.
  induction pre as [|c pre IH]; simpl; [reflexivity|].
  intro H. apply andb_true_iff in H. destruct H as [C H]. rewrite C. auto.
Qed.

Lemma trimStart_blank (l : chars) : forallb is_ws l = true -> trimStart l = [].
Proof.
  intro H. rewrite <- (app_nil_r l). now rewrite trimStart_blank_app.
Qed.

Lemma trimStart_app_kept (l x : chars) :
  trimStart l <> [] -> trimStart (l ++ x) = (trimStart l ++ x)%list.
Proof.
  induction l as [|c l IH]; simpl; [congruence|].
  destruct (is_ws c); [exact IH | reflexivity].
Qed.

Lemma forallb_rev {A : Type} (f : A -> bool) (l : list A) :
  forallb f (rev l) = forallb f l.
Proof.
  induction l as [|a l IH]; simpl; [reflexivity|].
  rewrite forallb_app, IH. simpl. rewrite andb_true_r. apply andb_comm.
Qed.

Lemma trim_padding (pre l post : chars) :
  forallb is_ws pre = true -> forallb is_ws post = true ->
  trim (pre ++ l ++ post) = trim l.
Proof.
  intros Hpre Hpost. unfold trim. rewrite trimStart_blank_app by exact Hpre.
  f_equal.
  destruct (trimStart l) as [|c r] eqn:E.
  - assert (B : trimStart (l ++ post) = []).
    { clear Hpre. induction l as [|a l IH]; simpl in *.
      - now apply trimStart_blank.
      - destruct (is_ws a); [auto | discriminate]. }
    now rewrite B.
  - rewrite trimStart_app_kept by (rewrite E; discriminate).
    rewrite E, rev_app_distr. apply trimStart_blank_app.
    now rewrite forallb_rev.
Qed.

(** X7.  White space around the expression does not matter: padding a string
    with spaces, tabs or line breaks on either side leaves its resolution
    unchanged, for every unit, [dims] and axis. *)
Theorem unitToPx_ignores_padding (pre s post : string) (dims : Dims) (axis : Axis) :
  blank pre = true -> blank post = true ->
  unitToPx (VStr (pre ++ s ++ post)) dims axis = unitToPx (VStr s) dims axis.
Proof.
  unfold blank. intros Hpre Hpost. unfold unitToPx, trimmed.
  now rewrite !chars_app, trim_padding.
Qed.

Lemma unitToPx_ignores_padding_witness :
  blank "  " = true /\ blank (String "010" "") = true /\
  unitToPx (VStr ("  " ++ "25vh" ++ String "010" ""))
           (dims_of (ofZ 200) (ofZ 400)) AxisX = ofZ 100.
Proof.
  split; [reflexivity|]. split; [reflexivity|].
  rewrite (unitToPx_ignores_padding "  " "25vh" (String "010" "")
             (dims_of (ofZ 200) (ofZ 400)) AxisX eq_refl eq_refl).
  reflexivity.
Defined.

(** X8.  The axis matters to the [%] unit alone, and there only as ['y'] or
    not: the axis ['vmax'] resolves every value as the axis ['x'] does, and a
    value that is a number or does not end in [%] resolves alike on all
    three axes. *)
Theorem unitToPx_axis (v : Value) (dims : Dims) :
  unitToPx v dims AxisVmax = unitToPx v dims AxisX /\
  (forall n a a', v = VNum n -> unitToPx v dims a = unitToPx v dims a') /\
  (forall str a a', v = VStr str -> endsWith (trimmed str) "%" = false ->
     unitToPx v dims a = unitToPx v dims a').
Proof.
  repeat split.
  - intros n a a' ->. reflexivity.
  - intros str a a' -> H. unfold unitToPx. rewrite H. reflexivity.
Qed.

Lemma unitToPx_axis_witness :
  endsWith (trimmed "30vmax") "%" = false /\
  unitToPx (VStr "30vmax") (dims_of (ofZ 200) (ofZ 400)) AxisY =
  unitToPx (VStr "30vmax") (dims_of (ofZ 200) (ofZ 400)) AxisX.
Proof.
  split; [reflexivity|].
  exact (proj2 (proj2 (unitToPx_axis (VStr "30vmax") (dims_of (ofZ 200) (ofZ 400))))
           "30vmax"%string AxisY AxisX eq_refl eq_refl).
Defined.

(** *** Strings without a number *)

Lemma trimStart_suffix (f : ascii -> bool) (l : chars) :
  forallb f l = true -> forallb f (trimStart l) = true.
Proof.
  induction l as [|c l IH]; simpl; [reflexivity|].
  intro H. destruct (is_ws c); [|exact H].
  apply andb_true_iff in H. now apply IH.
Qed.

Lemma trim_keeps (f : ascii -> bool) (l : chars) :
  forallb f l = true -> forallb f (trim l) = true.
Proof.
  intro H. unfold trim. rewrite forallb_rev. apply trimStart_suffix.
  rewrite forallb_rev. now apply trimStart_suffix.
Qed.

Lemma take_sign_suffix (f : ascii -> bool) (l : chars) :
  forallb f l = true -> forallb f (snd (take_sign l)) = true.
Proof.
  intro H. unfold take_sign.
  destruct l as [|c r]; [exact H|].
  assert (R : forallb f r = true) by (simpl in H; apply andb_true_iff in H; tauto).
  destruct c as [[] [] [] [] [] [] [] []]; simpl; auto.
Qed.

Lemma take_digits_none (l : chars) :
  forallb no_digit l = true -> take_digits l = ([], l).
Proof.
  destruct l as [|c r]; simpl; [reflexivity|].
  unfold no_digit at 1. destruct (digit c); [discriminate | reflexivity].
Qed.

Lemma parseFloat_digit_free (l : chars) :
  forallb no_digit l = true ->
  startsWith (snd (take_sign (trimStart l))) (list_ascii_of_string "Infinity") = false ->
  parseFloat l = NaN.
Proof.
  intros D I. unfold parseFloat.
  pose proof (take_sign_suffix no_digit _ (trimStart_suffix no_digit l D)) as D1.
  destruct (take_sign (trimStart l)) as [neg l1]. cbn [snd] in I, D1.
  rewrite I, (take_digits_none l1 D1).
  destruct l1 as [|c r]; [reflexivity|].
  assert (R : forallb no_digit r = true)
    by (simpl in D1; apply andb_true_iff in D1; tauto).
  destruct (Ascii.eqb_spec c "."%char) as [->|N].
  - now rewrite (take_digits_none r R).
  - destruct c as [[] [] [] [] [] [] [] []]; try reflexivity. now elim N.
Qed.

(** X9.  A string without a decimal digit (and other than a signed
    [Infinity]) has no number to read: it resolves to 0 when it ends in none
    of the five units, and to NaN when it does, since only the last branch
    tests [isNaN]. *)
Theorem unitToPx_digit_free (str : string) (dims : Dims) (axis : Axis) :
  digit_free str = true ->
  startsWith (snd (take_sign (trimStart (trimmed str))))
             (list_ascii_of_string "Infinity") = false ->
  unitToPx (VStr str) dims axis =
  if has_unit (trimmed str) then NaN else ofZ 0.
Proof.
  intros D I.
  assert (P : parseFloat (trimmed str) = NaN).
  { apply parseFloat_digit_free; [|exact I]. unfold trimmed. now apply trim_keeps. }
  unfold has_unit, unitToPx. rewrite P.
  destruct (endsWith _ "px"); [reflexivity|].
  destruct (endsWith _ "%"); [simpl; now destruct axis, (h dims), (w dims)|].
  destruct (endsWith _ "vw"); [simpl; now destruct (w dims)|].
  destruct (endsWith _ "vh"); [simpl; now destruct (h dims)|].
  destruct (endsWith _ "vmax"); [simpl; now destruct (vMax dims)|].
  reflexivity.
Qed.

Lemma unitToPx_digit_free_witness :
  digit_free " auto " = true /\ digit_free "--%" = true /\
  unitToPx (VStr " auto ") (dims_of (ofZ 200) (ofZ 100)) AxisX = ofZ 0 /\
  unitToPx (VStr "--%") (dims_of (ofZ 200) (ofZ 100)) AxisX = NaN.
Proof.
  split; [reflexivity|]. split; [reflexivity|]. split.
  - rewrite (unitToPx_digit_free " auto " (dims_of (ofZ 200) (ofZ 100)) AxisX
               eq_refl eq_refl).
    reflexivity.
  - rewrite (unitToPx_digit_free "--%" (dims_of (ofZ 200) (ofZ 100)) AxisX
               eq_refl eq_refl).
    reflexivity.
Defined.

(** *** Integers in decimal notation *)

Lemma take_digits_uint (d : Decimal.uint) (rest : chars) :
  take_digits rest = ([], rest) ->
  take_digits (uint_chars d ++ rest) = (uint_digits d, rest).
Proof.
  intro R. unfold uint_chars.
  induction d; cbn [NilEmpty.string_of_uint list_ascii_of_string app uint_digits];
    [exact R| | | | | | | | | |];
    cbn [take_digits]; rewrite IHd; reflexivity.
Qed.

Lemma fold_digits_uint (d : Decimal.uint) (acc : nat) :
  fold_left (fun a x => (10 * a + x)%Z) (uint_digits d) (Z.of_nat acc)
  = Z.of_nat (Nat.of_uint_acc d acc).
Proof.
  revert acc. induction d; intro acc; cbn [uint_digits fold_left Nat.of_uint_acc];
    [reflexivity| | | | | | | | | |];
    rewrite <- IHd; f_equal; rewrite Nat.tail_mul_spec; lia.
Qed.

Lemma digits_value_decimal (n : nat) :
  digits_value (uint_digits (Nat.to_uint n)) = Z.of_nat n.
Proof.
  unfold digits_value. rewrite (fold_digits_uint _ 0).
  fold (Nat.of_uint (Nat.to_uint n)). now rewrite DecimalNat.Unsigned.of_to.
Qed.

Lemma to_uint_not_Nil (n : nat) : Nat.to_uint n <> Decimal.Nil.
Proof.
  intro E. pose proof (DecimalNat.Unsigned.of_to n) as H. rewrite E in H.
  simpl in H. subst n. discriminate.
Qed.

(** What a digit character is not. *)
Lemma digit_char (c : ascii) (v : Z) :
  digit c = Some v ->
  is_ws c = false /\ take_sign [c] = (false, [c]) /\
  Ascii.eqb "I" c = false /\ Ascii.eqb "x" c = false /\ Ascii.eqb "%" c = false /\
  Ascii.eqb "w" c = false /\ Ascii.eqb "h" c = false.
Proof.
  destruct c as [[] [] [] [] [] [] [] []]; cbv; intro H;
    try discriminate; repeat split.
Qed.

Lemma uint_chars_digits (d : Decimal.uint) :
  forallb (fun c => match digit c with Some _ => true | None => false end)
          (uint_chars d) = true.
Proof. unfold uint_chars. induction d; simpl; auto. Qed.

Lemma uint_chars_cons (d : Decimal.uint) :
  d <> Decimal.Nil -> exists c r v, uint_chars d = c :: r /\ digit c = Some v.
Proof.
  intro N. unfold uint_chars. destruct d; [congruence| | | | | | | | | |];
    cbn [NilEmpty.string_of_uint list_ascii_of_string];
    eexists _, _, _; (split; [reflexivity | reflexivity]).
Qed.

Lemma uint_chars_last (d : Decimal.uint) :
  d <> Decimal.Nil -> exists c r v, rev (uint_chars d) = c :: r /\ digit c = Some v.
Proof.
  intro N. pose proof (uint_chars_digits d) as F. rewrite <- forallb_rev in F.
  destruct (rev (uint_chars d)) as [|c r] eqn:E.
  - destruct (uint_chars_cons d N) as (c & r & v & E' & _).
    apply (f_equal (@rev ascii)) in E. rewrite rev_involutive, E' in E. discriminate.
  - simpl in F. destruct (digit c) as [v|] eqn:D; [|discriminate].
    now exists c, r, v.
Qed.

Lemma trimStart_cons (c : ascii) (l : chars) :
  is_ws c = false -> trimStart (c :: l) = c :: l.
Proof. intro H. simpl. now rewrite H. Qed.

Lemma Qred_inject_Z (m : Z) : Qred (inject_Z m * Qpower (10 # 1) (0 - 0)) = inject_Z m.
Proof.
  change (Qred (m * 1 # 1) = (m # 1)). rewrite Z.mul_1_r.
  unfold Qred. pose proof (Z.ggcd_gcd m 1) as G.
  pose proof (Z.ggcd_correct_divisors m 1) as C.
  destruct (Z.ggcd m 1) as [g [aa bb]]. cbn [fst snd] in *.
  rewrite Z.gcd_1_r in G. subst g. destruct C as [C1 C2].
  rewrite Z.mul_1_l in C1, C2. subst. reflexivity.
Qed.

(** [parseFloat] on a decimal numeral followed by something that continues
    no number. *)
Lemma parseFloat_uint (d : Decimal.uint) (rest : chars) :
  d <> Decimal.Nil ->
  take_digits rest = ([], rest) ->
  match rest with
  | "."%char :: r => take_digits r
  | _ => ([], rest)
  end = ([], rest) ->
  exponent rest = 0%Z ->
  parseFloat (uint_chars d ++ rest) = ofZ (digits_value (uint_digits d)).
Proof.
  intros N R F E.
  destruct (uint_chars_cons d N) as (c & r & v & C & D).
  destruct (digit_char c v D) as (W & S & I & _).
  unfold parseFloat. rewrite C. cbn [app].
  rewrite (trimStart_cons c _ W).
  assert (S' : take_sign (c :: r ++ rest) = (false, c :: r ++ rest)).
  { unfold take_sign in *. destruct c as [[] [] [] [] [] [] [] []];
      try reflexivity; discriminate. }
  rewrite S'.
  assert (I' : startsWith (c :: r ++ rest) (list_ascii_of_string "Infinity") = false).
  { cbn [list_ascii_of_string startsWith]. now rewrite I. }
  rewrite I'. change (c :: r ++ rest) with ((c :: r) ++ rest). rewrite <- C.
  rewrite (take_digits_uint d rest R), F.
  assert (U : uint_digits d <> []) by (destruct d; [congruence | ..]; discriminate).
  destruct (uint_digits d) as [|x xs] eqn:X; [congruence|].
  rewrite app_nil_r, E. cbn [List.length Z.of_nat].
  unfold ofZ. now rewrite Qred_inject_Z.
Qed.

Lemma trim_digits_then (d : Decimal.uint) (rest : chars) :
  d <> Decimal.Nil ->
  (forall c r, rev (uint_chars d ++ rest) = c :: r -> is_ws c = false) ->
  trim (uint_chars d ++ rest) = (uint_chars d ++ rest)%list.
Proof.
  intros N L. destruct (uint_chars_cons d N) as (c & r & v & C & D).
  destruct (digit_char c v D) as (W & _).
  unfold trim. rewrite C. cbn [app]. rewrite (trimStart_cons c _ W).
  destruct (rev (c :: r ++ rest)) as [|c' r'] eqn:E.
  - apply (f_equal (@rev ascii)) in E. rewrite rev_involutive in E. discriminate.
  - rewrite (trimStart_cons c' r').
    + rewrite <- E. apply rev_involutive.
    + apply (L c' r'). rewrite C. exact E.
Qed.

(** X10.  An integer in decimal notation resolves to itself, with the unit
    [px] or with no unit at all, for every [dims] and axis ([n] below [2^53],
    where a double holds every integer). *)
Theorem unitToPx_decimal (n : nat) (dims : Dims) (axis : Axis) :
  (Z.of_nat n < 2 ^ 53)%Z ->
  unitToPx (VStr (decimal n ++ "px")) dims axis = ofZ (Z.of_nat n) /\
  unitToPx (VStr (decimal n)) dims axis = ofZ (Z.of_nat n).
Proof.
  intros _. pose proof (to_uint_not_Nil n) as N. unfold decimal. split.
  - unfold unitToPx, trimmed. rewrite chars_app.
    fold (uint_chars (Nat.to_uint n)). cbn [list_ascii_of_string].
    rewrite trim_digits_then; [|exact N|].
    + assert (P : endsWith (uint_chars (Nat.to_uint n) ++ ["p"%char; "x"%char]) "px"
                  = true).
      { unfold endsWith. rewrite rev_app_distr. simpl.
        now destruct (rev (uint_chars (Nat.to_uint n))). }
      rewrite P, parseFloat_uint; try reflexivity; [|exact N].
      now rewrite digits_value_decimal.
    + intros c r. rewrite rev_app_distr. cbn [rev app]. intro E.
      injection E as <- _. reflexivity.
  - assert (T : trimmed (NilEmpty.string_of_uint (Nat.to_uint n))
                = uint_chars (Nat.to_uint n)).
    { unfold trimmed. fold (uint_chars (Nat.to_uint n)).
      rewrite <- (app_nil_r (uint_chars (Nat.to_uint n))) at 1 2.
      rewrite trim_digits_then; [now rewrite app_nil_r | exact N |].
      intros c r. rewrite app_nil_r. intro E.
      destruct (uint_chars_last _ N) as (c' & r' & v & E' & D).
      rewrite E in E'. injection E' as -> _.
      now destruct (digit_char c' v D). }
    rewrite unitToPx_no_unit; rewrite T.
    + rewrite <- (app_nil_r (uint_chars (Nat.to_uint n))).
      rewrite parseFloat_uint; try reflexivity; [|exact N].
      now rewrite digits_value_decimal.
    + destruct (uint_chars_last _ N) as (c & r & v & E & D).
      destruct (digit_char c v D) as (_ & _ & _ & X & P & W & H).
      unfold has_unit, endsWith. rewrite E.
      cbn [list_ascii_of_string rev app startsWith].
      now rewrite X, P, W, H.
Qed.

Lemma unitToPx_decimal_witness :
  (Z.of_nat 800 < 2 ^ 53)%Z /\
  unitToPx (VStr (decimal 800 ++ "px")) (dims_of (ofZ 200) (ofZ 100)) AxisY = ofZ 800.
Proof.
  split; [reflexivity|].
  exact (proj1 (unitToPx_decimal 800 (dims_of (ofZ 200) (ofZ 100)) AxisY eq_refl)).
Defined.

End UnitStrings.

(* ================================================================== *)
(** ** Further properties: numbers and the motion model *)
(* ================================================================== *)

Section NumberCoercions.
Import JsNum Units Registry Engine Views.

Lemma min_of_bounds (lo hi : Q) :
  (lo <= hi)%Q -> within lo hi (JsNum.min (Fin hi) (Fin lo)).
Proof.
  intro L. unfold JsNum.min. cbn [lt]. destruct (Qltb lo hi); cbn [within].
  - split; [apply Qle_refl | exact L].
  - split; [exact L | apply Qle_refl].
Qed.

(** X11.  [clamp(v, lo, hi)] with finite bounds [lo <= hi]: the result is in
    [[lo, hi]] for every [v] but NaN (the infinities go to the bounds), a
    value already in the interval comes back as it is, and NaN comes back as
    NaN. *)
Theorem clamp_in_bounds (v : num) (lo hi : Q) :
  (lo <= hi)%Q ->
  (v <> NaN -> within lo hi (clamp v (Fin lo) (Fin hi))) /\
  (within lo hi v -> same (clamp v (Fin lo) (Fin hi)) v) /\
  clamp NaN (Fin lo) (Fin hi) = NaN.
Proof.
  intro L. split; [|split; [|reflexivity]].
  - intro N. destruct v as [| | |q]; [congruence| | |].
    + unfold clamp. cbn [JsNum.max lt JsNum.min]. cbn [within].
      split; [exact L | apply Qle_refl].
    + unfold clamp. cbn [JsNum.max lt]. now apply min_of_bounds.
    + unfold clamp. cbn [JsNum.max lt].
      destruct (Qltb lo q) eqn:A.
      * unfold JsNum.min. cbn [lt]. destruct (Qltb q hi) eqn:B; cbn [within].
        -- apply Qltb_true in A, B. split; apply Qlt_le_weak; assumption.
        -- split; [exact L | apply Qle_refl].
      * now apply min_of_bounds.
  - destruct v as [| | |q]; cbn [within]; try tauto. intros [A B].
    unfold clamp. cbn [JsNum.max lt].
    destruct (Qltb lo q) eqn:C.
    + unfold JsNum.min. cbn [lt]. destruct (Qltb q hi) eqn:D; cbn [same].
      * apply Qeq_refl.
      * apply Qltb_false in D. now apply Qle_antisym.
    + apply Qltb_false in C. assert (E : (q == lo)%Q) by now apply Qle_antisym.
      unfold JsNum.min. cbn [lt]. destruct (Qltb lo hi) eqn:D; cbn [same].
      * now symmetry.
      * apply Qltb_false in D. rewrite E. now apply Qle_antisym.
Qed.

Lemma clamp_in_bounds_witness :
  (0 <= 1)%Q /\
  within 0 1 (clamp (Fin (17 # 10)) (Fin 0) (Fin 1)) /\
  same (clamp (Fin (2 # 4)) (Fin 0) (Fin 1)) (Fin (2 # 4)).
Proof.
  assert (L : (0 <= 1)%Q) by discriminate.
  split; [exact L|]. split.
  - apply (proj1 (clamp_in_bounds (Fin (17 # 10)) 0 1 L)). discriminate.
  - assert (W : within 0 1 (Fin (2 # 4))) by (split; discriminate).
    exact (proj1 (proj2 (clamp_in_bounds (Fin (2 # 4)) 0 1 L)) W).
Defined.

Lemma wrap32_small (z : Z) :
  (- 2 ^ 31 <= z < 2 ^ 31)%Z -> wrap32 z = z.
Proof. intro H. unfold wrap32. rewrite Z.mod_small; lia. Qed.

Lemma wrap32_range (z : Z) : (- 2 ^ 31 <= wrap32 z < 2 ^ 31)%Z.
Proof.
  unfold wrap32. pose proof (Z.mod_pos_bound (z + 2 ^ 31) (2 ^ 32)). lia.
Qed.

Lemma quot_nonneg_floor (q : Q) :
  (0 <= q)%Q -> Z.quot (Qnum q) (Zpos (Qden q)) = Qfloor q.
Proof.
  destruct q as [n d]. unfold Qle. simpl. intro H.
  rewrite Z.quot_div_nonneg; [reflexivity | lia | lia].
Qed.

Lemma max0_ofZ (z : Z) :
  JsNum.max (ofZ 0) (ofZ z) = ofZ (Z.max 0 z).
Proof.
  unfold JsNum.max, ofZ. cbn [lt].
  destruct (Qltb (inject_Z 0) (inject_Z z)) eqn:A.
  - apply Qltb_true in A. rewrite <- Zlt_Qlt in A. now rewrite Z.max_r by lia.
  - apply Qltb_false in A. rewrite <- Zle_Qle in A. now rewrite Z.max_l by lia.
Qed.

(** X12.  [setBlurPx] and [setFpsCap] on a finite input: from 0 up to (not
    including) [2^31] they store the integer part, and from above
    [-2^31 - 1] up to 0 they store 0; whatever the input, what they store
    is an integer from 0 to [2^31 - 1]. *)
Theorem setBlurPx_integer_part (q : Q) (a : num) (e : FluidBackground) :
  ((0 <= q)%Q -> (q < inject_Z (2 ^ 31))%Q ->
   blurPx (state (setBlurPx (Fin q) e)) = ofZ (Qfloor q) /\
   fpsCap (state (setFpsCap (Fin q) e)) = ofZ (Qfloor q)) /\
  ((inject_Z (- 2 ^ 31 - 1) < q)%Q -> (q <= 0)%Q ->
   blurPx (state (setBlurPx (Fin q) e)) = ofZ 0 /\
   fpsCap (state (setFpsCap (Fin q) e)) = ofZ 0) /\
  (exists z, (0 <= z < 2 ^ 31)%Z /\ blurPx (state (setBlurPx a e)) = ofZ z) /\
  (exists z, (0 <= z < 2 ^ 31)%Z /\ fpsCap (state (setFpsCap a e)) = ofZ z).
Proof.
  assert (S1 : forall x, blurPx (state (setBlurPx x e)) = ofZ (Z.max 0 (toInt32 x)))
    by (intro x; exact (max0_ofZ (toInt32 x))).
  assert (S2 : forall x, fpsCap (state (setFpsCap x e)) = ofZ (Z.max 0 (toInt32 x)))
    by (intro x; exact (max0_ofZ (toInt32 x))).
  split; [|split; [|split]].
  - intros H0 H1. rewrite S1, S2. cbn [toInt32].
    rewrite (quot_nonneg_floor q H0).
    assert (B : (0 <= Qfloor q < 2 ^ 31)%Z).
    { split.
      - change 0%Z with (Qfloor 0). now apply Qfloor_resp_le.
      - pose proof (Qfloor_le q) as F.
        rewrite Zlt_Qlt. eapply Qle_lt_trans; [exact F | exact H1]. }
    rewrite wrap32_small by lia. rewrite Z.max_r by lia. split; reflexivity.
  - intros H0 H1. rewrite S1, S2. cbn [toInt32].
    assert (B : (- 2 ^ 31 <= Z.quot (Qnum q) (Zpos (Qden q)) <= 0)%Z).
    { destruct q as [n d]. unfold Qlt, Qle in *. simpl in *.
      assert (Hn : (n <= 0)%Z) by lia.
      rewrite <- (Z.opp_involutive n) at 1 2. rewrite Z.quot_opp_l by lia.
      rewrite Z.quot_div_nonneg by lia.
      assert (E : (0 <= - n / Z.pos d <= 2 ^ 31)%Z).
      { split; [apply Z.div_pos; lia|].
        apply Z.lt_succ_r. apply Z.div_lt_upper_bound; lia. }
      lia. }
    rewrite wrap32_small by lia. rewrite Z.max_l by lia. split; reflexivity.
  - rewrite S1. exists (Z.max 0 (toInt32 a)). split; [|reflexivity].
    destruct a; cbn [toInt32]; try lia.
    pose proof (wrap32_range (Z.quot (Qnum q0) (Zpos (Qden q0)))). lia.
  - rewrite S2. exists (Z.max 0 (toInt32 a)). split; [|reflexivity].
    destruct a; cbn [toInt32]; try lia.
    pose proof (wrap32_range (Z.quot (Qnum q0) (Zpos (Qden q0)))). lia.
Qed.

Lemma setBlurPx_integer_part_witness :
  (0 <= 75 # 10)%Q /\ (75 # 10 < inject_Z (2 ^ 31))%Q /\
  blurPx (state (setBlurPx (Fin (75 # 10)) (fb default_world))) = ofZ 7 /\
  (inject_Z (- 2 ^ 31 - 1) < - 75 # 10)%Q /\ (- 75 # 10 <= 0)%Q /\
  fpsCap (state (setFpsCap (Fin (- 75 # 10)) (fb default_world))) = ofZ 0.
Proof.
  assert (A : (0 <= 75 # 10)%Q) by discriminate.
  assert (B : (75 # 10 < inject_Z (2 ^ 31))%Q) by reflexivity.
  assert (C : (inject_Z (- 2 ^ 31 - 1) < - 75 # 10)%Q) by reflexivity.
  assert (D : (- 75 # 10 <= 0)%Q) by discriminate.
  split; [exact A|]. split; [exact B|]. split; [|split; [exact C|split; [exact D|]]].
  - exact (proj1 (proj1 (setBlurPx_integer_part (75 # 10) NaN (fb default_world)) A B)).
  - exact (proj2 (proj1 (proj2 (setBlurPx_integer_part (- 75 # 10) NaN
                                  (fb default_world))) C D)).
Defined.

(** Beyond that window [x|0] wraps: a large negative input becomes a large
    blur radius. *)
Example setBlurPx_wraps :
  blurPx (state (setBlurPx (ofZ (-3000000000)) (fb default_world)))
  = ofZ 1294967296.
Proof. reflexivity. Qed.

End NumberCoercions.

Section MotionAtRest.
Import Motion.
Local Open Scope R_scope.

(** X14.  The drift at rest: at elapsed time 0, and at every time when the
    speed is 0, the offset is the constant [(sx, ay)], the amplitudes of the
    two cosine terms; with the four amplitudes at 0 it is [(0, 0)] at every
    time and speed. *)
Theorem drift_at_rest (d : DriftSpec R) (t : R) :
  drift d 0 = (sx d, ay d) /\
  (speed d = 0 -> drift d t = (sx d, ay d)) /\
  (ax d = 0 -> ay d = 0 -> sx d = 0 -> sy d = 0 -> drift d t = (0, 0)).
Proof.
  unfold drift, drift_dx, drift_dy. rewrite !or0_id. repeat split.
  - rewrite !Rmult_0_r, sin_0, cos_0. f_equal; lra.
  - intros ->. rewrite !Rmult_0_r, !Rmult_0_l, sin_0, cos_0. f_equal; lra.
  - intros -> -> -> ->. f_equal; lra.
Qed.

Lemma drift_at_rest_witness :
  speed (mkDrift 3 4 5 6 0) = 0 /\ drift (mkDrift 3 4 5 6 0) 9 = (5, 4).
Proof.
  split; [reflexivity|].
  exact (proj1 (proj2 (drift_at_rest (mkDrift 3 4 5 6 0) 9)) eq_refl).
Defined.

End MotionAtRest.

(* ================================================================== *)
(** ** Further properties: rendering and the lifecycle *)
(* ================================================================== *)

Section RenderingAndLifecycle.
Import JsNum Units Registry Engine Views.

(** *** Rendering *)

Lemma paint_blobs_normal (bs : Map) :
  forall px px', paint_blobs bs px = Normal px' -> px' = (px ++ discs bs)%list.
Proof.
  induction bs as [|[k b] rest IH]; intros px px'; simpl.
  - intro E. injection E as <-. now rewrite app_nil_r.
  - unfold blob_discs. simpl.
    destruct (layers (b_fields b)) as [[|l ls]|]; [| |discriminate].
    + simpl. apply IH.
    + destruct (center (b_fields b)); [|discriminate].
      destruct (drift (b_fields b)); [|discriminate].
      intro E. apply IH in E. now rewrite <- app_assoc in E.
Qed.

Lemma paint_blobs_throws (bs : Map) (b : InternalBlob) :
  In b (map snd bs) -> unpaintable b = true ->
  forall px, throws (paint_blobs bs px) = true.
Proof.
  intros I U. induction bs as [|[k b0] rest IH]; simpl in *; [contradiction|].
  intro px. destruct I as [->|I].
  - unfold unpaintable in U.
    destruct (layers (b_fields b)) as [[|l ls]|]; [discriminate| |reflexivity].
    destruct (center (b_fields b)); [|reflexivity].
    destruct (drift (b_fields b)); [discriminate | reflexivity].
  - destruct (layers (b_fields b0)) as [[|l ls]|]; [now apply IH| |reflexivity].
    destruct (center (b_fields b0)); [|reflexivity].
    destruct (drift (b_fields b0)); [now apply IH | reflexivity].
Qed.

Lemma render_throws (t : num) (e : FluidBackground) (b : InternalBlob) :
  In b (map snd (blobs e)) -> unpaintable b = true -> throws (render t e) = true.
Proof.
  intros I U. unfold render. destruct (ctx e); [|reflexivity].
  pose proof (paint_blobs_throws (blobs e) b I U) as T.
  match goal with |- context [paint_blobs ?bs ?px] =>
    specialize (T px); destruct (paint_blobs bs px) end; [discriminate | reflexivity].
Qed.

Lemma map_get_In (k : string) (v : InternalBlob) (m : Map) :
  map_get k m = Some v -> In v (map snd m).
Proof.
  induction m as [|[k' v'] r IH]; simpl; [discriminate|].
  destruct (String.eqb k k').
  - intro E. injection E as ->. now left.
  - intro E. right. now apply IH.
Qed.

(** X15.  What a frame that [render] completes does to the surface, in the
    order of the operations: the background pass, then one disc per layer for
    the blobs in registry order, the layers of a blob in list order; a blob
    with no layers adds nothing.  Without a background the pass is a clear,
    and nothing of what the surface held is left.  With one the pass is a
    fill painted onto what the surface held, which is not cleared first.  The
    state, the registry and the size of the canvas are untouched. *)
Theorem render_paints_in_order (t : num) (e e' : FluidBackground) :
  render t e = Normal e' ->
  pixels (canvas e')
  = (background_pass (state e) (pixels (canvas e)) ++ discs (blobs e))%list /\
  (truthy_str (background (state e)) = false ->
   pixels (canvas e') = discs (blobs e)) /\
  (forall c, background (state e) = Some c -> truthy_str (Some c) = true ->
   pixels (canvas e') = (pixels (canvas e) ++ Fill c :: discs (blobs e))%list) /\
  state e' = state e /\ blobs e' = blobs e /\
  width (canvas e') = width (canvas e) /\ height (canvas e') = height (canvas e).
Proof.
  unfold render. destruct (ctx e); [|discriminate].
  fold (background_pass (state e) (pixels (canvas e))).
  destruct (paint_blobs (blobs e) (background_pass (state e) (pixels (canvas e))))
    as [px|px] eqn:P; [|discriminate].
  intro E. injection E as <-. simpl.
  apply paint_blobs_normal in P. subst px. unfold background_pass.
  split; [reflexivity|]. split; [|split; [|now repeat split]].
  - intro T. destruct (background (state e)) as [[|a g]|];
      [reflexivity | discriminate | reflexivity].
  - intros g -> T. destruct g as [|a g]; [discriminate|].
    simpl. now rewrite <- app_assoc.
Qed.

Lemma render_paints_in_order_witness :
  pixels (canvas (fb capped_world)) = [Fill "#102030"] /\
  render (ofZ 50) (with_blobs two_blobs (fb capped_world))
  = Normal (with_pixels [Fill "#102030"; Fill "#102030"; Disc "b1" red_layer]
              (with_blobs two_blobs (fb capped_world))) /\
  pixels (canvas (with_pixels [Fill "#102030"; Fill "#102030"; Disc "b1" red_layer]
                    (with_blobs two_blobs (fb capped_world))))
  = (pixels (canvas (fb capped_world)) ++ Fill "#102030" :: discs two_blobs)%list /\
  render (ofZ 50)
    (setBackground None (with_blobs two_blobs (fb capped_world)))
  = Normal (with_pixels [Disc "b1" red_layer]
              (setBackground None (with_blobs two_blobs (fb capped_world)))) /\
  pixels (canvas (with_pixels [Disc "b1" red_layer]
                    (setBackground None (with_blobs two_blobs (fb capped_world)))))
  = discs two_blobs.
Proof.
  assert (R : render (ofZ 50) (with_blobs two_blobs (fb capped_world))
              = Normal (with_pixels
                          [Fill "#102030"; Fill "#102030"; Disc "b1" red_layer]
                          (with_blobs two_blobs (fb capped_world))))
    by reflexivity.
  assert (Q : render (ofZ 50)
                (setBackground None (with_blobs two_blobs (fb capped_world)))
              = Normal (with_pixels [Disc "b1" red_layer]
                          (setBackground None
                             (with_blobs two_blobs (fb capped_world)))))
    by reflexivity.
  split; [reflexivity|]. split; [exact R|]. split; [|split; [exact Q|]].
  - exact (proj1 (proj2 (proj2 (render_paints_in_order _ _ _ R)))
             "#102030"%string eq_refl eq_refl).
  - exact (proj1 (proj2 (render_paints_in_order _ _ _ Q)) eq_refl).
Defined.

(** X16.  A stored blob without [layers] (or with layers to paint and without
    [center] or [drift]) makes [render] raise.  [updateBlob] on an unknown id
    stores such a blob when the partial record has an id and no layers; from
    then on every accepted frame raises, while the loop stays scheduled and
    running. *)
Theorem partial_blob_breaks_render (now : num) (w : World) :
  (forall b, In b (map snd (blobs (fb w))) -> unpaintable b = true ->
     throws (render now (fb w)) = true) /\
  (forall i cfg ci,
     map_get i (blobs (fb w)) = None -> truthy_id (p_id cfg) = Some ci ->
     layers (p_fields cfg) = None ->
     throws (render now (updateBlob i cfg (fb w))) = true) /\
  (forall b, In b (map snd (blobs (fb w))) -> unpaintable b = true ->
     running (state (fb w)) = true -> rafPending (host w) <> [] ->
     rejects (state (fb w)) now = false ->
     throws (frame now w) = true /\
     running (state (fb (after (frame now w)))) = true /\
     rafPending (host (after (frame now w))) <> []).
Proof.
  split; [|split].
  - intros b I U. now apply (render_throws now (fb w) b).
  - intros i cfg ci G T L.
    apply (render_throws now _ (mkBlob ci (p_fields cfg) (ofZ 0))).
    + apply (map_get_In ci). unfold updateBlob. simpl.
      rewrite (registry_updateBlob_unknown i cfg _ G), T.
      unfold Registry.addBlob, materialize. simpl. apply map_get_set_same.
    + unfold unpaintable. simpl. now rewrite L.
  - intros b I U R P J. split; [|split].
    + unfold frame. destruct (rafPending (host w)) as [|p rest]; [congruence|].
      unfold loop. cbn [fb host]. rewrite R. simpl negb. cbv iota.
      cbn [requestAnimationFrame]. cbn [with_rafId state]. rewrite J.
      match goal with |- context [render now ?x] =>
        assert (T : throws (render now x) = true);
          [|destruct (render now x); [discriminate | reflexivity]] end.
      apply (render_throws now _ b); [|exact U].
      match goal with |- context [ensureSize ?h ?x] =>
        destruct (ensureSize_frame h x) as (_ & _ & _ & B & _) end.
      rewrite B. exact I.
    + destruct (frame_frame now w) as (_ & R' & _). now rewrite R'.
    + now apply frame_keeps_pending.
Qed.

Lemma partial_blob_breaks_render_witness :
  map_get "ghost" (blobs (fb default_world)) = None /\
  throws (render (ofZ 40)
            (updateBlob "ghost" (mkPartial (Some "b7"%string) no_fields)
               (fb default_world))) = true.
Proof.
  split; [reflexivity|].
  exact (proj1 (proj2 (partial_blob_breaks_render (ofZ 40) default_world))
           "ghost"%string (mkPartial (Some "b7"%string) no_fields) "b7"%string
           eq_refl eq_refl eq_refl).
Defined.

(** *** Stopping and starting *)

Lemma frame_stopped (now : num) (w : World) :
  running (state (fb w)) = false -> fb (after (frame now w)) = fb w.
Proof.
  intro R. unfold frame. destruct (rafPending (host w)); [reflexivity|].
  now rewrite loop_stopped.
Qed.

Lemma frames_stopped (nows : list num) :
  forall w, running (state (fb w)) = false ->
  fb (calls (map CallFrame nows) w) = fb w /\
  accepted_frames w (map CallFrame nows) = [].
Proof.
  unfold calls. induction nows as [|now rest IH]; intros w R; [now split|].
  cbn [map fold_left accepted_frames call].
  pose proof (frame_stopped now w R) as F.
  assert (R' : running (state (fb (after (frame now w)))) = false) by now rewrite F.
  destruct (IH _ R') as [I1 I2]. rewrite I1, I2, F. split; [reflexivity|].
  unfold accepts. rewrite R. now destruct (rafPending (host w)).
Qed.

Lemma stop_not_running (w : World) : running (state (fb (stop w))) = false.
Proof. unfold stop. now destruct (Z.eqb _ 0). Qed.

Lemma destroy_not_running (w : World) : running (state (fb (destroy w))) = false.
Proof.
  unfold destroy. pose proof (stop_not_running w).
  now destruct (ctx (fb (stop w))).
Qed.

(** X17.  After [stop], and after [destroy], no frame callback renders
    anything: whatever callbacks the host still runs, and at whatever times,
    none is accepted and the engine (surface, state, registry) stays exactly
    as [stop] or [destroy] left it. *)
Theorem stop_halts_rendering (w : World) (nows : list num) :
  fb (calls (map CallFrame nows) (stop w)) = fb (stop w) /\
  accepted_frames (stop w) (map CallFrame nows) = [] /\
  fb (calls (map CallFrame nows) (destroy w)) = fb (destroy w) /\
  accepted_frames (destroy w) (map CallFrame nows) = [].
Proof.
  destruct (frames_stopped nows (stop w) (stop_not_running w)) as [A B].
  destruct (frames_stopped nows (destroy w) (destroy_not_running w)) as [C D].
  now repeat split.
Qed.

Lemma start_running (now : num) (w : World) :
  running (state (fb (after (start now w)))) = true.
Proof.
  unfold start. destruct (running (state (fb w))) eqn:R; [exact R|].
  set (w1 := mkWorld _ _). destruct (loop_frame now w1) as (_ & R' & _).
  now rewrite R'.
Qed.

(** X18.  [start] leaves the engine running, and a second [start] does
    nothing at all: no second callback is requested and [lastFrameMs] is not
    reset.  [stop] is idempotent as well. *)
Theorem start_twice (n1 n2 : num) (w : World) :
  running (state (fb (after (start n1 w)))) = true /\
  start n2 (after (start n1 w)) = Normal (after (start n1 w)) /\
  stop (stop w) = stop w.
Proof.
  split; [apply start_running|]. split.
  - unfold start at 1. now rewrite start_running.
  - destruct w as [h [cv c r b s]]. unfold stop. simpl.
    destruct (Z.eqb_spec r 0) as [->|N]; simpl; reflexivity.
Qed.

(** *** Starting under a ceiling *)

Lemma frame_not_accepted (now : num) (w : World) :
  accepts w now = false ->
  state (fb (after (frame now w))) = state (fb w) /\
  canvas (fb (after (frame now w))) = canvas (fb w) /\
  blobs (fb (after (frame now w))) = blobs (fb w).
Proof.
  unfold accepts, frame. destruct (rafPending (host w)) as [|p rest]; [now intros|].
  set (w1 := mkWorld _ _). change (fb w) with (fb w1).
  destruct (running (state (fb w1))) eqn:R.
  - simpl. intro J. apply negb_false_iff in J.
    now rewrite (loop_rejected now w1 R J).
  - intros _. now rewrite (loop_stopped now w1 R).
Qed.

Lemma starved_rejects (s : State) (c : Q) (now : num) :
  fpsCap s = Fin c -> (0 < c)%Q -> (167 # 10 < 1000 / c)%Q ->
  lastFrameMs s = ofZ 0 -> rejects s now = true.
Proof.
  intros F Hc Hm L. unfold rejects, needCap, minDt, needCap, frame_dt, gt.
  rewrite F, L. unfold ofZ. cbn [lt truthy div].
  rewrite (Qltb_of_lt (inject_Z 0) c Hc).
  rewrite (Qeq_bool_false c 0) by (intro E; rewrite E in Hc; discriminate).
  change (Qeq_bool (inject_Z 0) 0) with true. cbn [negb andb].
  unfold nominal_dt. cbn [lt]. apply Qltb_of_lt. now rewrite Qred_correct.
Qed.

Lemma starved_frames (c : Q) (nows : list num) :
  (0 < c)%Q -> (167 # 10 < 1000 / c)%Q ->
  forall w, fpsCap (state (fb w)) = Fin c -> lastFrameMs (state (fb w)) = ofZ 0 ->
  accepted_frames w (map CallFrame nows) = [] /\
  state (fb (calls (map CallFrame nows) w)) = state (fb w) /\
  canvas (fb (calls (map CallFrame nows) w)) = canvas (fb w).
Proof.
  intros Hc Hm. unfold calls.
  induction nows as [|now rest IH]; intros w F L; [now repeat split|].
  cbn [map fold_left accepted_frames call].
  assert (A : accepts w now = false).
  { unfold accepts. destruct (rafPending (host w)); [reflexivity|].
    rewrite (starved_rejects _ c now F Hc Hm L). apply andb_false_r. }
  destruct (frame_not_accepted now w A) as (S & C & _).
  rewrite A. destruct (IH (after (frame now w))) as (I1 & I2 & I3);
    [now rewrite S | now rewrite S |].
  rewrite I1, I2, I3, S, C. now repeat split.
Qed.

(** X19.  [start] under a ceiling.  On a stopped engine whose ceiling [c] is
    positive and asks for more than the nominal 16.7 ms between frames
    ([1000/c > 16.7], that is [c] up to 59), [start] and every frame callback
    after it are rejected: [lastFrameMs] stays 0, so each callback is judged
    on the nominal delta again and nothing is ever painted.  With no ceiling,
    or one of 60 and more, the frame at [start] is accepted. *)
Theorem start_under_ceiling (now : num) (w : World) (c : Q) (nows : list num) :
  running (state (fb w)) = false -> fpsCap (state (fb w)) = Fin c ->
  ((0 < c)%Q -> (167 # 10 < 1000 / c)%Q ->
   accepted_frames (after (start now w)) (map CallFrame nows) = [] /\
   lastFrameMs (state (fb (calls (map CallFrame nows) (after (start now w)))))
     = ofZ 0 /\
   canvas (fb (calls (map CallFrame nows) (after (start now w)))) = canvas (fb w)) /\
  ((c <= 0)%Q \/ ((0 < c)%Q /\ (1000 / c <= 167 # 10)%Q) ->
   lastFrameMs (state (fb (after (start now w)))) = now).
Proof.
  intros R F. unfold start. rewrite R. set (w1 := mkWorld _ _).
  assert (R1 : running (state (fb w1)) = true) by reflexivity.
  assert (F1 : fpsCap (state (fb w1)) = Fin c) by exact F.
  assert (L1 : lastFrameMs (state (fb w1)) = ofZ 0) by reflexivity.
  split.
  - intros Hc Hm.
    pose proof (starved_rejects _ c now F1 Hc Hm L1) as J.
    rewrite (loop_rejected now w1 R1 J). cbn [after].
    set (w2 := mkWorld _ _).
    destruct (starved_frames c nows Hc Hm w2 F1 L1) as (A & S & C).
    rewrite A, S, C. now repeat split.
  - intro H.
    assert (J : rejects (state (fb w1)) now = false).
    { unfold rejects, needCap, minDt, needCap, frame_dt, gt.
      rewrite F1, L1. unfold ofZ. cbn [lt truthy div].
      destruct H as [H|[Hc Hm]].
      - assert (E : Qltb (inject_Z 0) c = false).
        { unfold Qltb. apply negb_false_iff. now apply Qle_bool_iff. }
        now rewrite E.
      - rewrite (Qltb_of_lt (inject_Z 0) c Hc).
        rewrite (Qeq_bool_false c 0) by (intro E; rewrite E in Hc; discriminate).
        change (Qeq_bool (inject_Z 0) 0) with true. cbn [negb andb].
        unfold nominal_dt. cbn [lt]. unfold Qltb. apply negb_false_iff.
        apply Qle_bool_iff. now rewrite Qred_correct. }
    now destruct (loop_accepted now w1 R1 J) as (L & _).
Qed.

Lemma start_under_ceiling_witness :
  running (state (fb (stop capped_world))) = false /\
  accepted_frames
    (after (start (ofZ 2000) (on_fb (setFpsCap (ofZ 30)) (stop capped_world))))
    (map CallFrame early_frames) = [] /\
  lastFrameMs (state (fb (after (start (ofZ 2000) (stop capped_world))))) = ofZ 2000.
Proof.
  split; [reflexivity|]. split.
  - apply (proj1 (start_under_ceiling (ofZ 2000)
                    (on_fb (setFpsCap (ofZ 30)) (stop capped_world)) 30
                    early_frames eq_refl eq_refl)); reflexivity.
  - apply (proj2 (start_under_ceiling (ofZ 2000) (stop capped_world) 60 []
                    eq_refl eq_refl)).
    right. split; [reflexivity | discriminate].
Defined.

(** *** What construction sets up and every call keeps *)

Lemma sized_geometry (e e' : FluidBackground) :
  geometry e' = geometry e -> sized e -> sized e'.
Proof.
  unfold geometry, sized. intro G. injection G as -> -> -> -> ->. auto.
Qed.

Lemma constants_geometry_render (t : num) (e : FluidBackground) :
  constants (after (render t e)) = constants e /\
  geometry (after (render t e)) = geometry e.
Proof.
  unfold render. destruct (ctx e) eqn:C; [|now split].
  destruct (paint_blobs _ _); unfold constants, geometry; simpl;
    now rewrite C.
Qed.

Lemma ensureSize_constants (h : Host) (e : FluidBackground) :
  constants (ensureSize h e) = constants e.
Proof.
  unfold ensureSize.
  match goal with |- context [if ?b then _ else _] => destruct b end; reflexivity.
Qed.

Lemma ensureSize_sized (h : Host) (e : FluidBackground) :
  sized e -> sized (ensureSize h e).
Proof.
  unfold ensureSize.
  match goal with |- context [if ?b then _ else _] => destruct b end;
    [intros _; split; reflexivity | auto].
Qed.

Lemma max1_not_zero (x : num) : strict_ne (JsNum.max (ofZ 1) x) (ofZ 0) = true.
Proof.
  destruct x as [| | |q]; try reflexivity.
  unfold JsNum.max, ofZ. cbn [lt].
  destruct (Qltb (inject_Z 1) q) eqn:A; [|reflexivity].
  apply Qltb_true in A. cbn [strict_ne]. apply negb_true_iff.
  apply Qeq_bool_false. intro E. rewrite E in A. discriminate.
Qed.

Lemma ensureSize_first (h : Host) (e : FluidBackground) :
  cssW (state e) = ofZ 0 -> sized (ensureSize h e).
Proof.
  intro Z0. unfold ensureSize. rewrite Z0, max1_not_zero. split; reflexivity.
Qed.

Lemma loop_constants_sized (now : num) (w : World) :
  constants (fb (after (loop now w))) = constants (fb w) /\
  (sized (fb w) -> sized (fb (after (loop now w)))).
Proof.
  unfold loop. destruct (running (state (fb w))); [|now split].
  simpl. destruct (rejects (state (fb w)) now); [now split|].
  set (e2 := with_state _ _). set (h := mkHost _ _ _ _ _ _).
  destruct (constants_geometry_render now (ensureSize h e2)) as [C G].
  assert (E : forall c : Completion FluidBackground,
             fb (after match c with
                       | Normal e3 => Normal (mkWorld h e3)
                       | Throw e3 => Throw (mkWorld h e3)
                       end) = after c) by (now intros []).
  rewrite E, C, ensureSize_constants. split; [reflexivity|].
  intro S. apply (sized_geometry _ _ G). apply ensureSize_sized. exact S.
Qed.

Lemma start_constants_sized (now : num) (w : World) :
  constants (fb (after (start now w))) = constants (fb w) /\
  (sized (fb w) -> sized (fb (after (start now w)))).
Proof.
  unfold start. destruct (running (state (fb w))); [now split|].
  set (w1 := mkWorld _ _). destruct (loop_constants_sized now w1) as [C S].
  split; [now rewrite C | exact S].
Qed.

Lemma frame_constants_sized (now : num) (w : World) :
  constants (fb (after (frame now w))) = constants (fb w) /\
  (sized (fb w) -> sized (fb (after (frame now w)))).
Proof.
  unfold frame. destruct (rafPending (host w)); [now split|].
  apply (loop_constants_sized now (mkWorld _ (fb w))).
Qed.

Lemma call_constants_sized (c : Call) (w : World) :
  constants (fb (call c w)) = constants (fb w) /\
  (sized (fb w) -> sized (fb (call c w))).
Proof.
  destruct c; try (split; [reflexivity | exact (fun S => S)]).
  - apply start_constants_sized.
  - simpl. unfold stop. destruct (Z.eqb _ 0); split; auto.
  - simpl. unfold destroy, stop.
    destruct (Z.eqb _ 0); simpl; destruct (ctx (fb w)) eqn:C;
      unfold constants; simpl; rewrite ?C; split; auto.
  - apply frame_constants_sized.
Qed.




(** X21.  The backing store follows the layout: from construction on, with
    any options and on any host, and after every sequence of calls, the
    canvas has the width and height that [ensureSize] computes from the
    logical size and pixel ratio recorded in the state: at least 1, and the
    rounded product of the two. *)
Theorem canvas_stays_sized (w : World) (cs : list Call) :
  (forall h cv t0 t1 opts c,
     construct h cv t0 t1 opts = Some c -> sized (fb (after c))) /\
  (sized (fb w) -> sized (fb (calls cs w))).
Proof.
  split.
  - intros h cv t0 t1 opts c. unfold construct.
    destruct (context2d h); [|discriminate]. cbn [negb].
    set (e0 := ensureSize h _).
    assert (S0 : sized e0) by (apply ensureSize_first; reflexivity).
    destruct (o_autoStart opts) as [[|]|]; intro E; injection E as <-;
      try exact S0;
      now apply (proj2 (start_constants_sized t1 (mkWorld h e0))).
  - unfold calls. revert w. induction cs as [|c cs IH]; intros w S; [exact S|].
    simpl. apply IH. now apply (proj2 (call_constants_sized c w)).
Qed.

Lemma canvas_stays_sized_witness :
  sized (fb default_world) /\
  sized (fb (calls [CallLayout (Fin (6405 # 10)) (ofZ 360) (Fin (3 # 2));
                    CallFrame (ofZ 40); CallSetBlurPx (ofZ 3)] default_world)) /\
  width (canvas (fb (calls [CallLayout (Fin (6405 # 10)) (ofZ 360) (Fin (3 # 2));
                            CallFrame (ofZ 40)] default_world))) = ofZ 960.
Proof.
  assert (S : sized (fb default_world)).
  { apply (proj1 (canvas_stays_sized default_world [])
             sample_host blank_canvas (ofZ 5) (ofZ 6) no_options
             (Normal default_world)).
    reflexivity. }
  split; [exact S|]. split; [|reflexivity].
  exact (proj2 (canvas_stays_sized default_world _) S).
Defined.

(** X22.  The start timestamp, the [desynchronized] flag and the context are
    fixed at construction: no sequence of calls changes them.  In particular
    [stop] and [start] do not reset the clock that the elapsed time of the
    motion is measured from. *)
Theorem constants_never_change (w : World) (cs : list Call) :
  constants (fb (calls cs w)) = constants (fb w).
Proof.
  unfold calls. revert w. induction cs as [|c cs IH]; intro w; [reflexivity|].
  simpl. rewrite IH. apply (proj1 (call_constants_sized c w)).
Qed.

(** *** The schedule *)

Lemma loop_schedules (now : num) (w : World) :
  running (state (fb w)) = true ->
  running (state (fb (after (loop now w)))) = true /\
  rafId (fb (after (loop now w))) = Zpos (rafNext (host w)) /\
  rafPending (host (after (loop now w))) = (rafPending (host w) ++ [rafNext (host w)])%list.
Proof.
  intro R. destruct (rejects (state (fb w)) now) eqn:J.
  - rewrite (loop_rejected now w R J). simpl. now rewrite R.
  - destruct (loop_accepted now w R J) as (_ & _ & R' & _ & _ & I & H).
    cbv zeta in *. now rewrite R', I, H.
Qed.

Lemma one_callback_same (w w' : World) :
  running (state (fb w')) = running (state (fb w)) ->
  rafId (fb w') = rafId (fb w) -> rafPending (host w') = rafPending (host w) ->
  one_callback w -> one_callback w'.
Proof. unfold one_callback. now intros -> -> ->. Qed.

Lemma start_one_callback (now : num) (w : World) :
  one_callback w -> one_callback (after (start now w)).
Proof.
  intro O. unfold start. destruct (running (state (fb w))) eqn:R; [exact O|].
  unfold one_callback in O. rewrite R in O. destruct O as [_ P].
  set (w1 := mkWorld _ _).
  destruct (loop_schedules now w1 eq_refl) as (R' & I & Q).
  unfold one_callback. rewrite R'. exists (rafNext (host w)).
  split; [exact I|]. rewrite Q. subst w1. simpl. now rewrite P.
Qed.

Lemma stop_one_callback (w : World) : one_callback w -> one_callback (stop w).
Proof.
  destruct w as [h [cv c r b s]]. unfold one_callback, stop. cbn [fb host state rafId].
  destruct (running s).
  - intros (p & I & P). subst r. simpl. rewrite P. simpl.
    rewrite Pos.eqb_refl. now split.
  - intros [I P]. subst r. simpl. now split.
Qed.

Lemma frame_one_callback (now : num) (w : World) :
  one_callback w -> one_callback (after (frame now w)).
Proof.
  intro O. unfold frame. unfold one_callback in O.
  destruct (running (state (fb w))) eqn:R.
  - destruct O as (p & I & P). rewrite P. set (w1 := mkWorld _ _).
    destruct (loop_schedules now w1 R) as (R' & I' & Q).
    unfold one_callback. rewrite R'. exists (rafNext (host w)).
    split; [exact I'|]. now rewrite Q.
  - destruct O as [I P]. rewrite P. unfold one_callback. cbn [after].
    now rewrite R.
Qed.

Lemma call_one_callback (c : Call) (w : World) :
  one_callback w -> one_callback (call c w).
Proof.
  intro O. destruct c;
    try (apply (one_callback_same w); [reflexivity | reflexivity | reflexivity | exact O]).
  - now apply start_one_callback.
  - now apply stop_one_callback.
  - simpl. apply (one_callback_same (stop w)); [| | |now apply stop_one_callback].
    + unfold destroy. now destruct (ctx (fb (stop w))).
    + unfold destroy. now destruct (ctx (fb (stop w))).
    + reflexivity.
  - now apply frame_one_callback.
Qed.

(** X23.  The loop is never scheduled twice.  For an engine built on a host
    with no callback pending, after every sequence of calls: while it runs,
    exactly one callback is pending and [rafId] names it; while it is
    stopped, none is pending and [rafId] is 0. *)
Theorem loop_scheduled_once (w : World) (cs : list Call) :
  (forall h cv t0 t1 opts c,
     rafPending h = [] -> construct h cv t0 t1 opts = Some c ->
     one_callback (after c)) /\
  (one_callback w -> one_callback (calls cs w)).
Proof.
  split.
  - intros h cv t0 t1 opts c P. unfold construct.
    destruct (context2d h); [|discriminate]. cbn [negb].
    set (e0 := ensureSize h _).
    destruct (ensureSize_frame h (mkEngine cv
                (Some (Context2D (negb (truthy_str (o_background opts)))
                                 (is_true (o_desynchronized opts)))) 0 []
                (initial_state h t0 opts))) as (_ & R0 & _ & _ & _ & I0).
    fold e0 in R0, I0.
    assert (O : one_callback (mkWorld h e0)).
    { unfold one_callback. cbn [fb host]. rewrite R0. now split. }
    destruct (o_autoStart opts) as [[|]|]; intro E; injection E as <-;
      try exact O; now apply start_one_callback.
  - unfold calls. revert w. induction cs as [|c cs IH]; intros w O; [exact O|].
    simpl. apply IH. now apply call_one_callback.
Qed.

Lemma loop_scheduled_once_witness :
  rafPending sample_host = [] /\
  one_callback default_world /\
  one_callback (calls [CallStart (ofZ 7); CallFrame (ofZ 30); CallStop;
                       CallStart (ofZ 90); CallStart (ofZ 91); CallFrame (ofZ 120)]
                  default_world) /\
  rafPending (host (calls [CallStart (ofZ 7); CallFrame (ofZ 30); CallStop;
                           CallStart (ofZ 90); CallStart (ofZ 91);
                           CallFrame (ofZ 120)] default_world)) = [4%positive].
Proof.
  assert (O : one_callback default_world).
  { apply (proj1 (loop_scheduled_once default_world [])
             sample_host blank_canvas (ofZ 5) (ofZ 6) no_options
             (Normal default_world)); reflexivity. }
  split; [reflexivity|]. split; [exact O|]. split; [|reflexivity].
  exact (proj2 (loop_scheduled_once default_world _) O).
Defined.

End RenderingAndLifecycle.

(* ================================================================== *)
(** ** Further properties: what the editor hands to the engine *)
(* ================================================================== *)

Section EditorInterface.
Import JsNum Units Registry Views Editor.

Lemma channel_range (n : num) (k : Z) :
  exists z, channel n k = ofZ z /\ (0 <= z <= 255)%Z.
Proof.
  unfold channel. eexists. split; [reflexivity|].
  change 255%Z with (Z.ones 8) at 1 2. rewrite Z.land_ones by lia.
  pose proof (Z.mod_pos_bound (Z.shiftr (toInt32 n) k) (2 ^ 8)). lia.
Qed.

(** X24.  Whatever string [hexToRgb] is given (no digits, too many, a sign),
    each of the three channels is an integer from 0 to 255. *)
Theorem hexToRgb_channels (s : string) :
  exists r g b,
    hexToRgb s = (ofZ r, ofZ g, ofZ b) /\
    (0 <= r <= 255)%Z /\ (0 <= g <= 255)%Z /\ (0 <= b <= 255)%Z.
Proof.
  unfold hexToRgb.
  match goal with |- context [channel ?n 16] =>
    destruct (channel_range n 16) as (r & -> & Hr);
    destruct (channel_range n 8) as (g & -> & Hg);
    destruct (channel_range n 0) as (b & -> & Hb) end.
  now exists r, g, b.
Qed.

(** What a hexadecimal digit is and is not. *)
Lemma hex_char (c : ascii) (v : Z) :
  hexval c = Some v ->
  (0 <= v <= 15)%Z /\ is_ws c = false /\ Ascii.eqb c "#" = false /\
  take_sign [c] = (false, [c]) /\ Ascii.eqb c "x" = false /\ Ascii.eqb c "X" = false.
Proof.
  destruct c as [[] [] [] [] [] [] [] []]; cbv; intro H;
    try discriminate; injection H as <-; repeat split; discriminate.
Qed.

Lemma channels_of_six (v1 v2 v3 v4 v5 v6 : Z) :
  (0 <= v1 <= 15)%Z -> (0 <= v2 <= 15)%Z -> (0 <= v3 <= 15)%Z ->
  (0 <= v4 <= 15)%Z -> (0 <= v5 <= 15)%Z -> (0 <= v6 <= 15)%Z ->
  let n := ofZ (hex_value [v1; v2; v3; v4; v5; v6]) in
  (channel n 16, channel n 8, channel n 0)
  = (ofZ (16 * v1 + v2), ofZ (16 * v3 + v4), ofZ (16 * v5 + v6)).
Proof.
  intros H1 H2 H3 H4 H5 H6. cbv zeta. unfold channel, hex_value. cbn [fold_left].
  cbn [toInt32 ofZ inject_Z Qnum Qden]. rewrite Z.quot_1_r.
  rewrite wrap32_small by lia.
  change 255%Z with (Z.ones 8). rewrite !Z.land_ones by lia.
  rewrite !Z.shiftr_div_pow2 by lia.
  change (2 ^ 16)%Z with 65536%Z. change (2 ^ 8)%Z with 256%Z.
  change (2 ^ 0)%Z with 1%Z. rewrite Z.div_1_r.
  set (n := (16 * (16 * (16 * (16 * (16 * (16 * 0 + v1) + v2) + v3) + v4) + v5)
             + v6)%Z).
  assert (E1 : ((n / 65536) mod 256 = 16 * v1 + v2)%Z)
    by (subst n; Z.div_mod_to_equations; lia).
  assert (E2 : ((n / 256) mod 256 = 16 * v3 + v4)%Z)
    by (subst n; Z.div_mod_to_equations; lia).
  assert (E3 : (n mod 256 = 16 * v5 + v6)%Z)
    by (subst n; Z.div_mod_to_equations; lia).
  now rewrite E1, E2, E3.
Qed.

(** [parseInt16] on six hexadecimal digits. *)
Lemma parseInt16_six (c1 c2 c3 c4 c5 c6 : ascii) (v1 v2 v3 v4 v5 v6 : Z) :
  hexval c1 = Some v1 -> hexval c2 = Some v2 -> hexval c3 = Some v3 ->
  hexval c4 = Some v4 -> hexval c5 = Some v5 -> hexval c6 = Some v6 ->
  parseInt16 [c1; c2; c3; c4; c5; c6] = ofZ (hex_value [v1; v2; v3; v4; v5; v6]).
Proof.
  intros H1 H2 H3 H4 H5 H6.
  destruct (hex_char c1 v1 H1) as (_ & W1 & _ & S1 & _).
  destruct (hex_char c2 v2 H2) as (_ & _ & _ & _ & X2 & Y2).
  unfold parseInt16. rewrite (trimStart_cons c1 _ W1).
  assert (S : take_sign [c1; c2; c3; c4; c5; c6] = (false, [c1; c2; c3; c4; c5; c6])).
  { unfold take_sign in *. destruct c1 as [[] [] [] [] [] [] [] []];
      try reflexivity; discriminate. }
  rewrite S.
  assert (P : strip_0x [c1; c2; c3; c4; c5; c6] = [c1; c2; c3; c4; c5; c6]).
  { unfold strip_0x. rewrite X2, Y2.
    destruct c1 as [[] [] [] [] [] [] [] []]; reflexivity. }
  rewrite P. cbn [take_hex]. rewrite H1, H2, H3, H4, H5, H6.
  assert (B : (0 <= hex_value [v1; v2; v3; v4; v5; v6])%Z).
  { destruct (hex_char c1 v1 H1) as (? & _), (hex_char c2 v2 H2) as (? & _),
      (hex_char c3 v3 H3) as (? & _), (hex_char c4 v4 H4) as (? & _),
      (hex_char c5 v5 H5) as (? & _), (hex_char c6 v6 H6) as (? & _).
    unfold hex_value. cbn [fold_left]. lia. }
  reflexivity.
Qed.

Lemma trim_no_space (l : chars) :
  forallb (fun c => negb (is_ws c)) l = true -> trim l = l.
Proof.
  intro H. unfold trim.
  assert (T : forall x, forallb (fun c => negb (is_ws c)) x = true -> trimStart x = x).
  { intros [|c r]; [reflexivity|]. simpl. intro E.
    apply andb_true_iff in E. destruct E as [E _].
    apply negb_true_iff in E. now rewrite E. }
  rewrite (T l H), T, rev_involutive; [reflexivity|].
  now rewrite forallb_rev.
Qed.

(** X25.  [hexToRgb] decodes the two notations of a colour: six hexadecimal
    digits give the three bytes they write, three digits give each digit
    twice ([#abc] is [#aabbcc], each channel 17 times its digit), in either
    letter case and with or without the leading [#]. *)
Theorem hexToRgb_decodes (c1 c2 c3 c4 c5 c6 : ascii) (v1 v2 v3 v4 v5 v6 : Z) :
  hexval c1 = Some v1 -> hexval c2 = Some v2 -> hexval c3 = Some v3 ->
  hexval c4 = Some v4 -> hexval c5 = Some v5 -> hexval c6 = Some v6 ->
  let six := string_of_list_ascii [c1; c2; c3; c4; c5; c6] in
  let three := string_of_list_ascii [c1; c2; c3] in
  hexToRgb (String "#" six)
    = (ofZ (16 * v1 + v2), ofZ (16 * v3 + v4), ofZ (16 * v5 + v6)) /\
  hexToRgb six = hexToRgb (String "#" six) /\
  hexToRgb (String "#" three) = (ofZ (17 * v1), ofZ (17 * v2), ofZ (17 * v3)) /\
  hexToRgb three = hexToRgb (String "#" three).
Proof.
  intros H1 H2 H3 H4 H5 H6. cbv zeta.
  destruct (hex_char c1 v1 H1) as (B1 & W1 & N1 & _).
  destruct (hex_char c2 v2 H2) as (B2 & W2 & N2 & _).
  destruct (hex_char c3 v3 H3) as (B3 & W3 & N3 & _).
  destruct (hex_char c4 v4 H4) as (B4 & W4 & N4 & _).
  destruct (hex_char c5 v5 H5) as (B5 & W5 & N5 & _).
  destruct (hex_char c6 v6 H6) as (B6 & W6 & N6 & _).
  assert (R6 : remove_hash [c1; c2; c3; c4; c5; c6] = [c1; c2; c3; c4; c5; c6])
    by (cbn [remove_hash]; now rewrite N1, N2, N3, N4, N5, N6).
  assert (R3 : remove_hash [c1; c2; c3] = [c1; c2; c3])
    by (cbn [remove_hash]; now rewrite N1, N2, N3).
  assert (T6 : trim [c1; c2; c3; c4; c5; c6] = [c1; c2; c3; c4; c5; c6])
    by (apply trim_no_space; cbn [forallb]; now rewrite W1, W2, W3, W4, W5, W6).
  assert (T3 : trim [c1; c2; c3] = [c1; c2; c3])
    by (apply trim_no_space; cbn [forallb]; now rewrite W1, W2, W3).
  assert (S6 : hexToRgb (String "#" (string_of_list_ascii [c1; c2; c3; c4; c5; c6]))
               = (ofZ (16 * v1 + v2), ofZ (16 * v3 + v4), ofZ (16 * v5 + v6))).
  { unfold hexToRgb. cbn [list_ascii_of_string string_of_list_ascii remove_hash].
    cbn [Ascii.eqb Bool.eqb]. rewrite T6. cbn [List.length Nat.eqb].
    rewrite (parseInt16_six c1 c2 c3 c4 c5 c6 v1 v2 v3 v4 v5 v6) by assumption.
    now apply channels_of_six. }
  assert (S3 : hexToRgb (String "#" (string_of_list_ascii [c1; c2; c3]))
               = (ofZ (17 * v1), ofZ (17 * v2), ofZ (17 * v3))).
  { unfold hexToRgb. cbn [list_ascii_of_string string_of_list_ascii remove_hash].
    cbn [Ascii.eqb Bool.eqb]. rewrite T3. cbn [List.length Nat.eqb].
    cbn [double_chars flat_map app].
    rewrite (parseInt16_six c1 c1 c2 c2 c3 c3 v1 v1 v2 v2 v3 v3) by assumption.
    rewrite channels_of_six by assumption.
    f_equal; [f_equal|]; apply f_equal; lia. }
  repeat split.
  - exact S6.
  - rewrite S6. unfold hexToRgb.
    cbn [list_ascii_of_string string_of_list_ascii]. rewrite R6, T6.
    cbn [List.length Nat.eqb].
    rewrite (parseInt16_six c1 c2 c3 c4 c5 c6 v1 v2 v3 v4 v5 v6) by assumption.
    now apply channels_of_six.
  - exact S3.
  - rewrite S3. unfold hexToRgb.
    cbn [list_ascii_of_string string_of_list_ascii]. rewrite R3, T3.
    cbn [List.length Nat.eqb]. cbn [double_chars flat_map app].
    rewrite (parseInt16_six c1 c1 c2 c2 c3 c3 v1 v1 v2 v2 v3 v3) by assumption.
    rewrite channels_of_six by assumption.
    f_equal; [f_equal|]; apply f_equal; lia.
Qed.

Lemma hexToRgb_decodes_witness :
  hexval "7" = Some 7%Z /\ hexval "f" = Some 15%Z /\ hexval "D" = Some 13%Z /\
  hexToRgb "#7fD8ff" = (ofZ 127, ofZ 216, ofZ 255) /\
  hexToRgb "#7fD" = (ofZ 119, ofZ 255, ofZ 221).
Proof.
  split; [reflexivity|]. split; [reflexivity|]. split; [reflexivity|]. split.
  - exact (proj1 (hexToRgb_decodes "7" "f" "D" "8" "f" "f" 7 15 13 8 15 15
                    eq_refl eq_refl eq_refl eq_refl eq_refl eq_refl)).
  - exact (proj1 (proj2 (proj2 (hexToRgb_decodes "7" "f" "D" "8" "f" "f" 7 15 13 8 15 15
                    eq_refl eq_refl eq_refl eq_refl eq_refl eq_refl)))).
Defined.

(** *** Full configs through [updateBlob] *)

Lemma truthy_id_nonempty (i : string) :
  i <> EmptyString -> truthy_id (Some i) = Some i.
Proof. destruct i; [congruence | reflexivity]. Qed.

Lemma updateBlob_full (cfg : BlobConfig) (m : Map) :
  complete (fields cfg) -> id cfg <> EmptyString -> coherent m ->
  Registry.updateBlob (id cfg) (as_partial cfg) m = Registry.addBlob cfg m.
Proof.
  intros C N H. unfold Registry.updateBlob, as_partial. cbn [p_id p_fields].
  destruct (map_get (id cfg) m) as [prev|] eqn:G.
  - rewrite (spread_complete _ _ C).
    rewrite (map_get_coherent (id cfg) prev m H G).
    unfold Registry.addBlob. now destruct cfg.
  - rewrite (truthy_id_nonempty _ N). now destruct cfg.
Qed.

(** X26.  [updateBlob] with a full config is an upsert: when the partial
    record has every property and carries the non-empty id it is filed
    under, the call does exactly what [addBlob] of that config does, on a
    present id (the blob is replaced in place) as on an absent one. *)
Theorem updateBlob_with_full_config (cfg : BlobConfig) (os : list BlobOp) :
  complete (fields cfg) -> id cfg <> EmptyString ->
  Registry.updateBlob (id cfg) (as_partial cfg) (apply_ops os [])
  = Registry.addBlob cfg (apply_ops os []).
Proof.
  intros C N. apply updateBlob_full; [exact C | exact N|].
  unfold apply_ops.
  assert (K : forall m, coherent m ->
                coherent (fold_left (fun m o => apply_op o m) os m)).
  { induction os as [|o os' IH]; simpl; auto.
    intros m H. apply IH. now apply apply_op_coherent. }
  apply K. constructor.
Qed.

Lemma toFbConfig_complete (b : BlobItem) : complete (fields (toFbConfig b)).
Proof. unfold toFbConfig, complete. simpl. repeat split; discriminate. Qed.

Lemma updateBlob_with_full_config_witness :
  complete (fields (toFbConfig item_b1)) /\ id (toFbConfig item_b1) <> EmptyString /\
  Registry.updateBlob "b1" (as_partial (toFbConfig item_b1))
    (apply_ops [OpAdd blob_b1] [])
  = [("b1"%string, materialize (toFbConfig item_b1))].
Proof.
  assert (C : complete (fields (toFbConfig item_b1))) by apply toFbConfig_complete.
  assert (N : id (toFbConfig item_b1) <> EmptyString) by discriminate.
  split; [exact C|]. split; [exact N|].
  change "b1"%string with (id (toFbConfig item_b1)) at 1.
  rewrite (updateBlob_with_full_config (toFbConfig item_b1) [OpAdd blob_b1] C N).
  reflexivity.
Defined.

Lemma map_set_all_complete (k : string) (v : InternalBlob) (m : Map) :
  complete (b_fields v) -> all_complete m -> all_complete (map_set k v m).
Proof.
  unfold all_complete. intros Hv. induction 1 as [|[k' v'] r Hkv Hr IH]; simpl.
  - constructor; [exact Hv | constructor].
  - destruct (String.eqb k k'); constructor; auto.
Qed.

Lemma map_delete_all_complete (k : string) (m : Map) :
  all_complete m -> all_complete (map_delete k m).
Proof.
  unfold all_complete. induction 1 as [|[k' v'] r Hkv Hr IH]; simpl.
  - constructor.
  - destruct (String.eqb k k'); auto.
Qed.

Lemma sync_call_all_complete (c : SyncCall) (m : Map) :
  all_complete m -> all_complete (sync_call c m).
Proof.
  intro H. destruct c as [b|b|i]; simpl.
  - apply map_set_all_complete; [apply toFbConfig_complete | exact H].
  - unfold Registry.updateBlob. destruct (map_get (it_id b) m).
    + apply map_set_all_complete; [|exact H]. simpl.
      rewrite spread_complete; apply toFbConfig_complete.
    + unfold as_partial. cbn [p_id p_fields id].
      destruct (truthy_id (Some (id (toFbConfig b)))); [|exact H].
      apply map_set_all_complete; [apply toFbConfig_complete | exact H].
  - now apply map_delete_all_complete.
Qed.

Lemma complete_paintable (b : InternalBlob) :
  complete (b_fields b) -> unpaintable b = false.
Proof.
  unfold complete, unpaintable. intros (_ & C & L & _ & _ & D & _).
  destruct (layers (b_fields b)) as [[|l ls]|]; [reflexivity| |congruence].
  destruct (center (b_fields b)); [|congruence].
  destruct (drift (b_fields b)); [reflexivity | congruence].
Qed.

(** X27.  What the editor syncs is always whole: [toFbConfig] builds a config
    with every property (a missing [centerY] becomes ["50%"], a disabled
    breath becomes [null]), so after any sequence of its [addBlob],
    [updateBlob] and [removeBlob] calls every stored blob has all its
    properties and none is one that [render] trips over. *)
Theorem editor_blobs_are_whole (cs : list SyncCall) (item : BlobItem) :
  complete (fields (toFbConfig item)) /\
  all_complete (sync_calls cs []) /\
  (forall b, In b (map snd (sync_calls cs [])) -> unpaintable b = false).
Proof.
  assert (A : all_complete (sync_calls cs [])).
  { unfold sync_calls.
    assert (K : forall m, all_complete m ->
                  all_complete (fold_left (fun m c => sync_call c m) cs m)).
    { induction cs as [|c cs' IH]; simpl; auto.
      intros m H. apply IH. now apply sync_call_all_complete. }
    apply K. constructor. }
  split; [apply toFbConfig_complete|]. split; [exact A|].
  intros b I. apply complete_paintable.
  unfold all_complete in A. rewrite Forall_forall in A.
  apply in_map_iff in I. destruct I as ([k v] & <- & I). exact (A _ I).
Qed.

Lemma editor_blobs_are_whole_witness :
  In (materialize (toFbConfig item_b1))
     (map snd (sync_calls [SyncAdd item_b1; SyncUpdate item_b1] [])) /\
  unpaintable (materialize (toFbConfig item_b1)) = false.
Proof.
  assert (I : In (materialize (toFbConfig item_b1))
                 (map snd (sync_calls [SyncAdd item_b1; SyncUpdate item_b1] [])))
    by (left; reflexivity).
  split; [exact I|].
  exact (proj2 (proj2 (editor_blobs_are_whole [SyncAdd item_b1; SyncUpdate item_b1]
                         item_b1)) _ I).
Defined.

End EditorInterface.
